(** * Pintos (KAIST) kernel core: scheduler, sleep service, priority
      donation and file-backed pages.

    A shallow embedding of [threads/thread.c] and [vm/file.c].  Kernel
    objects live in explicit stores indexed by their address; every C
    function becomes a computation over the kernel state that may
    return, hit a failed [ASSERT] (kernel panic) or dereference a
    pointer that designates no live object. *)

From Stdlib Require Import ZArith Lia.
From stdpp Require Import gmap list strings.

Local Open Scope Z_scope.

(** ** Intrusive list routines ([lib/kernel/list.c])

    Lists of kernel objects are modelled by the list of the addresses of
    the objects that embed the [list_elem]s, head first. *)

Section KernelList.
Context {A : Type}.

(** Modelled from the spec: [list_insert_ordered] of [lib/kernel/list.c]
    (absent from the sources).  "inserts into [ready_list] in priority
    order; ties preserve FIFO insertion order": the element goes before
    the first element [e] with [less (elem, e)], at the tail if none. *)
Fixpoint list_insert_ordered (less : A -> A -> bool) (elem : A) (l : list A)
  : list A :=
  match l with
  | [] => [elem]
  | e :: l' =>
      if less elem e then elem :: e :: l'
      else e :: list_insert_ordered less elem l'
  end.

(** Modelled from the spec: [list_sort] of [lib/kernel/list.c] (absent
    from the sources), a stable sort by [less]; "re-sort waiters each
    time".  Written as a stable insertion sort: an element passes the
    elements that are strictly [less] than it and no other. *)
Fixpoint sort_insert (less : A -> A -> bool) (x : A) (l : list A) : list A :=
  match l with
  | [] => [x]
  | y :: l' =>
      if less y x then y :: sort_insert less x l' else x :: y :: l'
  end.

Definition list_sort (less : A -> A -> bool) (l : list A) : list A :=
  foldr (sort_insert less) [] l.

(** [sorted_by less l]: no element is strictly [less] than one that
    stands before it. *)
Fixpoint sorted_by (less : A -> A -> bool) (l : list A) : Prop :=
  match l with
  | [] => True
  | x :: l' => Forall (fun y => less y x = false) l' /\ sorted_by less l'
  end.
End KernelList.

Module Thread.

(** ** Constants *)

Definition THREAD_MAGIC : Z := 0xcd6abf4b.
Definition TIME_SLICE : Z := 4.
Definition DONATE_MAX_DEPTH : nat := 8.
Definition INT64_MAX : Z := 2 ^ 63 - 1.

(** Modelled from the spec: the constants of [threads/thread.h] (absent
    from the sources): "[PRI_MIN = 0], [PRI_MAX = 63], [PRI_DEFAULT = 31]";
    [TID_ERROR] is the error value of [tid_t]. *)
Definition PRI_MIN : Z := 0.
Definition PRI_DEFAULT : Z := 31.
Definition PRI_MAX : Z := 63.
Definition TID_ERROR : Z := -1.

(** ** Data model *)

Inductive thread_status :=
| THREAD_RUNNING | THREAD_READY | THREAD_BLOCKED | THREAD_DYING.

Inductive intr_level := INTR_OFF | INTR_ON.

#[global] Instance thread_status_eq_dec : EqDecision thread_status.
Proof. solve_decision. Defined.

#[global] Instance intr_level_eq_dec : EqDecision intr_level.
Proof. solve_decision. Defined.

(** Modelled from the spec: [struct thread] of [threads/thread.h] (absent
    from the sources), with the members [thread.c] reads and writes.
    Pointers are addresses ([Z]); a pointer that may be [NULL] is an
    [option].  [donations] and [children] list the threads linked through
    [donation_elem] and [child_elem].  Of the trap frame only the call
    set up by [thread_create] is kept: [tf_call = Some (function, aux)]
    stands for [rip = kernel_thread], [rdi = function], [rsi = aux]. *)
Record thread := mkThread {
  tid : Z;
  status : thread_status;
  name : string;
  priority : Z;
  wakeup_tick : Z;
  init_priority : Z;
  wait_on_lock : option Z;
  donations : list Z;
  children : list Z;
  fdt : option Z;
  next_fd : Z;
  max_fd : Z;
  tf_call : option (Z * Z);
  magic : Z
}.

(** Modelled from the spec: [struct lock] of [threads/synch.h] (absent
    from the sources): "Holder (optional Thread reference) and an
    embedded binary semaphore"; [thread.c] only reads the holder. *)
Record lock := mkLock { holder : option Z }.

(** The kernel state: the object stores and the file-scope variables of
    [thread.c].  [current] is what [running_thread ()] computes from the
    stack pointer.  [fdt_pages] maps the address of a file-descriptor
    table to its entries (an absent index reads as zero). *)
Record kstate := mkState {
  threads : gmap Z thread;
  locks : gmap Z lock;
  fdt_pages : gmap Z (gmap nat Z);
  ready_list : list Z;
  sleep_list : list Z;
  destruction_req : list Z;
  next_tick_to_awake : Z;
  idle_thread : option Z;
  initial_thread : option Z;
  current : Z;
  next_tid : Z;
  thread_ticks : Z;
  cur_intr_level : intr_level;
  in_intr_context : bool
}.

Definition set_status (v : thread_status) (t : thread) : thread :=
  mkThread (tid t) v (name t) (priority t) (wakeup_tick t) (init_priority t)
    (wait_on_lock t) (donations t) (children t) (fdt t) (next_fd t) (max_fd t)
    (tf_call t) (magic t).

Definition set_priority (v : Z) (t : thread) : thread :=
  mkThread (tid t) (status t) (name t) v (wakeup_tick t) (init_priority t)
    (wait_on_lock t) (donations t) (children t) (fdt t) (next_fd t) (max_fd t)
    (tf_call t) (magic t).

Definition set_wakeup_tick (v : Z) (t : thread) : thread :=
  mkThread (tid t) (status t) (name t) (priority t) v (init_priority t)
    (wait_on_lock t) (donations t) (children t) (fdt t) (next_fd t) (max_fd t)
    (tf_call t) (magic t).

Definition set_init_priority (v : Z) (t : thread) : thread :=
  mkThread (tid t) (status t) (name t) (priority t) (wakeup_tick t) v
    (wait_on_lock t) (donations t) (children t) (fdt t) (next_fd t) (max_fd t)
    (tf_call t) (magic t).

Definition set_donations (v : list Z) (t : thread) : thread :=
  mkThread (tid t) (status t) (name t) (priority t) (wakeup_tick t)
    (init_priority t) (wait_on_lock t) v (children t) (fdt t) (next_fd t)
    (max_fd t) (tf_call t) (magic t).

Definition set_children (v : list Z) (t : thread) : thread :=
  mkThread (tid t) (status t) (name t) (priority t) (wakeup_tick t)
    (init_priority t) (wait_on_lock t) (donations t) v (fdt t) (next_fd t)
    (max_fd t) (tf_call t) (magic t).

Definition set_fdt (v : option Z) (t : thread) : thread :=
  mkThread (tid t) (status t) (name t) (priority t) (wakeup_tick t)
    (init_priority t) (wait_on_lock t) (donations t) (children t) v (next_fd t)
    (max_fd t) (tf_call t) (magic t).

Definition set_fd_bounds (nfd mfd : Z) (t : thread) : thread :=
  mkThread (tid t) (status t) (name t) (priority t) (wakeup_tick t)
    (init_priority t) (wait_on_lock t) (donations t) (children t) (fdt t) nfd
    mfd (tf_call t) (magic t).

Definition set_tid (v : Z) (t : thread) : thread :=
  mkThread v (status t) (name t) (priority t) (wakeup_tick t)
    (init_priority t) (wait_on_lock t) (donations t) (children t) (fdt t)
    (next_fd t) (max_fd t) (tf_call t) (magic t).

Definition set_tf_call (v : option (Z * Z)) (t : thread) : thread :=
  mkThread (tid t) (status t) (name t) (priority t) (wakeup_tick t)
    (init_priority t) (wait_on_lock t) (donations t) (children t) (fdt t)
    (next_fd t) (max_fd t) v (magic t).

Definition with_threads (v : gmap Z thread) (s : kstate) : kstate :=
  mkState v (locks s) (fdt_pages s) (ready_list s) (sleep_list s)
    (destruction_req s) (next_tick_to_awake s) (idle_thread s)
    (initial_thread s) (current s) (next_tid s) (thread_ticks s)
    (cur_intr_level s) (in_intr_context s).

Definition with_fdt_pages (v : gmap Z (gmap nat Z)) (s : kstate) : kstate :=
  mkState (threads s) (locks s) v (ready_list s) (sleep_list s)
    (destruction_req s) (next_tick_to_awake s) (idle_thread s)
    (initial_thread s) (current s) (next_tid s) (thread_ticks s)
    (cur_intr_level s) (in_intr_context s).

Definition with_ready_list (v : list Z) (s : kstate) : kstate :=
  mkState (threads s) (locks s) (fdt_pages s) v (sleep_list s)
    (destruction_req s) (next_tick_to_awake s) (idle_thread s)
    (initial_thread s) (current s) (next_tid s) (thread_ticks s)
    (cur_intr_level s) (in_intr_context s).

Definition with_sleep_list (v : list Z) (s : kstate) : kstate :=
  mkState (threads s) (locks s) (fdt_pages s) (ready_list s) v
    (destruction_req s) (next_tick_to_awake s) (idle_thread s)
    (initial_thread s) (current s) (next_tid s) (thread_ticks s)
    (cur_intr_level s) (in_intr_context s).

Definition with_destruction_req (v : list Z) (s : kstate) : kstate :=
  mkState (threads s) (locks s) (fdt_pages s) (ready_list s) (sleep_list s)
    v (next_tick_to_awake s) (idle_thread s)
    (initial_thread s) (current s) (next_tid s) (thread_ticks s)
    (cur_intr_level s) (in_intr_context s).

Definition with_next_tick_to_awake (v : Z) (s : kstate) : kstate :=
  mkState (threads s) (locks s) (fdt_pages s) (ready_list s) (sleep_list s)
    (destruction_req s) v (idle_thread s)
    (initial_thread s) (current s) (next_tid s) (thread_ticks s)
    (cur_intr_level s) (in_intr_context s).

Definition with_initial_thread (v : option Z) (s : kstate) : kstate :=
  mkState (threads s) (locks s) (fdt_pages s) (ready_list s) (sleep_list s)
    (destruction_req s) (next_tick_to_awake s) (idle_thread s)
    v (current s) (next_tid s) (thread_ticks s)
    (cur_intr_level s) (in_intr_context s).

Definition with_current (v : Z) (s : kstate) : kstate :=
  mkState (threads s) (locks s) (fdt_pages s) (ready_list s) (sleep_list s)
    (destruction_req s) (next_tick_to_awake s) (idle_thread s)
    (initial_thread s) v (next_tid s) (thread_ticks s)
    (cur_intr_level s) (in_intr_context s).

Definition with_next_tid (v : Z) (s : kstate) : kstate :=
  mkState (threads s) (locks s) (fdt_pages s) (ready_list s) (sleep_list s)
    (destruction_req s) (next_tick_to_awake s) (idle_thread s)
    (initial_thread s) (current s) v (thread_ticks s)
    (cur_intr_level s) (in_intr_context s).

Definition with_thread_ticks (v : Z) (s : kstate) : kstate :=
  mkState (threads s) (locks s) (fdt_pages s) (ready_list s) (sleep_list s)
    (destruction_req s) (next_tick_to_awake s) (idle_thread s)
    (initial_thread s) (current s) (next_tid s) v
    (cur_intr_level s) (in_intr_context s).

Definition with_intr_level (v : intr_level) (s : kstate) : kstate :=
  mkState (threads s) (locks s) (fdt_pages s) (ready_list s) (sleep_list s)
    (destruction_req s) (next_tick_to_awake s) (idle_thread s)
    (initial_thread s) (current s) (next_tid s) (thread_ticks s)
    v (in_intr_context s).

(** ** Kernel computations *)

Inductive outcome (A : Type) : Type :=
| Ret (a : A) (s : kstate)   (* returned [a] *)
| Panic (s : kstate)         (* a failed [ASSERT] *)
| Fault (s : kstate).        (* access through [NULL] or a dangling pointer *)

Arguments Ret {A} a s.
Arguments Panic {A} s.
Arguments Fault {A} s.

Definition M (A : Type) : Type := kstate -> outcome A.

Definition ret {A} (a : A) : M A := fun s => Ret a s.

Definition bind {A B} (c : M A) (k : A -> M B) : M B :=
  fun s =>
    match c s with
    | Ret a s' => k a s'
    | Panic s' => Panic s'
    | Fault s' => Fault s'
    end.

Notation "'do' x <- c ;; k" := (bind c (fun x => k))
  (at level 10, x name, c at level 99, k at level 200).
Notation "c ;;; k" := (bind c (fun _ => k))
  (at level 100, k at level 200, right associativity).

(** The state in which a computation ends, however it ends. *)
Definition final_state {A} (o : outcome A) : kstate :=
  match o with Ret _ s | Panic s | Fault s => s end.

Definition gets {A} (f : kstate -> A) : M A := fun s => Ret (f s) s.
Definition modify (f : kstate -> kstate) : M unit := fun s => Ret tt (f s).

Definition ASSERT (b : bool) : M unit :=
  fun s => if b then Ret tt s else Panic s.

(** [*t] for a thread pointer [t]. *)
Definition load (t : Z) : M thread :=
  fun s => match threads s !! t with
           | Some th => Ret th s
           | None => Fault s
           end.

(** [t->member = v], as an update [f] of the thread at [t]. *)
Definition store (t : Z) (f : thread -> thread) : M unit :=
  fun s => match threads s !! t with
           | Some th => Ret tt (with_threads (<[t := f th]> (threads s)) s)
           | None => Fault s
           end.

Definition intr_get_level : M intr_level := gets cur_intr_level.
Definition intr_context : M bool := gets in_intr_context.

Definition intr_set_level (l : intr_level) : M intr_level :=
  do old <- intr_get_level;; modify (with_intr_level l);;; ret old.

Definition intr_disable : M intr_level := intr_set_level INTR_OFF.

(** [is_thread (t)]: [t != NULL && t->magic == THREAD_MAGIC].  Memory
    that holds no thread fails the magic test. *)
Definition is_thread (t : option Z) : M bool :=
  fun s =>
    Ret (match t with
         | Some a => match threads s !! a with
                     | Some th => bool_decide (magic th = THREAD_MAGIC)
                     | None => false
                     end
         | None => false
         end) s.

Definition running_thread : M Z := gets current.

Definition thread_current : M Z :=
  do t <- running_thread;;
  do ok <- is_thread (Some t);;
  ASSERT ok;;;
  do th <- load t;;
  ASSERT (bool_decide (status th = THREAD_RUNNING));;;
  ret t.

(** The priority read through a [list_elem] of the ready or donation
    list; the comparison functions read it for both arguments. *)
Definition priority_of (s : kstate) (t : Z) : Z :=
  match threads s !! t with
  | Some th => priority th
  | None => 0
  end.

Definition thread_compare_priority (s : kstate) (a b : Z) : bool :=
  bool_decide (priority_of s a > priority_of s b).

Definition thread_compare_donate_priority (s : kstate) (a b : Z) : bool :=
  bool_decide (priority_of s a > priority_of s b).

(** ** Scheduler *)

(** [list_insert_ordered (&ready_list, &t->elem, thread_compare_priority, 0)] *)
Definition ready_insert (t : Z) : M unit :=
  modify (fun s =>
    with_ready_list
      (list_insert_ordered (thread_compare_priority s) t (ready_list s)) s).

Definition thread_unblock (t : Z) : M unit :=
  do ok <- is_thread (Some t);;
  ASSERT ok;;;
  do old_level <- intr_disable;;
  do th <- load t;;
  ASSERT (bool_decide (status th = THREAD_BLOCKED));;;
  ready_insert t;;;
  store t (set_status THREAD_READY);;;
  intr_set_level old_level;;;
  ret tt.

Definition next_thread_to_run : M (option Z) :=
  do rl <- gets ready_list;;
  match rl with
  | [] => gets idle_thread
  | t :: rl' => modify (with_ready_list rl');;; ret (Some t)
  end.

(** [schedule ()] up to the hand-over to [thread_launch]: the result tells
    whether another thread was launched.  After a launch [current] is
    the launched thread, and what the caller does after [schedule]
    returns is done only when the caller is scheduled again. *)
Definition schedule : M bool :=
  do curr <- running_thread;;
  do next <- next_thread_to_run;;
  do lvl <- intr_get_level;;
  ASSERT (bool_decide (lvl = INTR_OFF));;;
  do c <- load curr;;
  ASSERT (bool_decide (status c <> THREAD_RUNNING));;;
  do ok <- is_thread next;;
  ASSERT ok;;;
  match next with
  | None => fun s => Fault s
  | Some n =>
      store n (set_status THREAD_RUNNING);;;
      modify (with_thread_ticks 0);;;
      if bool_decide (curr <> n) then
        do c' <- load curr;;
        do init <- gets initial_thread;;
        (if bool_decide (status c' = THREAD_DYING)
            && bool_decide (Some curr <> init)
         then modify (fun s =>
                with_destruction_req (destruction_req s ++ [curr]) s)
         else ret tt);;;
        modify (with_current n);;;
        ret true
      else ret false
  end.

(** [palloc_free_page (victim)] for every queued victim. *)
Definition free_destruction_req : M unit :=
  modify (fun s =>
    with_destruction_req []
      (with_threads
         (foldr (fun v m => delete v m) (threads s) (destruction_req s)) s)).

Definition do_schedule (st : thread_status) : M bool :=
  do lvl <- intr_get_level;;
  ASSERT (bool_decide (lvl = INTR_OFF));;;
  do cur <- thread_current;;
  free_destruction_req;;;
  do cur' <- thread_current;;
  store cur' (set_status st);;;
  schedule.

Definition thread_block : M bool :=
  do ic <- intr_context;;
  ASSERT (negb ic);;;
  do lvl <- intr_get_level;;
  ASSERT (bool_decide (lvl = INTR_OFF));;;
  do cur <- thread_current;;
  store cur (set_status THREAD_BLOCKED);;;
  schedule.

Definition thread_yield : M unit :=
  do curr <- thread_current;;
  do ic <- intr_context;;
  ASSERT (negb ic);;;
  do old_level <- intr_disable;;
  do idle <- gets idle_thread;;
  (if bool_decide (Some curr <> idle) then ready_insert curr else ret tt);;;
  do switched <- do_schedule THREAD_READY;;
  if switched then ret tt
  else intr_set_level old_level;;; ret tt.

(** ** Sleep service *)

Definition update_next_tick_to_awake (ticks : Z) : M unit :=
  modify (fun s =>
    with_next_tick_to_awake
      (if bool_decide (next_tick_to_awake s > ticks) then ticks
       else next_tick_to_awake s) s).

Definition get_next_tick_to_awake : M Z := gets next_tick_to_awake.

Definition thread_sleep (ticks : Z) : M unit :=
  do old_level <- intr_disable;;
  do cur <- thread_current;;
  do idle <- gets idle_thread;;
  ASSERT (bool_decide (Some cur <> idle));;;
  store cur (set_wakeup_tick ticks);;;
  update_next_tick_to_awake ticks;;;
  modify (fun s => with_sleep_list (sleep_list s ++ [cur]) s);;;
  do switched <- thread_block;;
  if switched then ret tt
  else intr_set_level old_level;;; ret tt.

(** [list_remove (&t->elem)]: an element is linked at most once. *)
Definition list_remove (t : Z) (l : list Z) : list Z :=
  filter (fun x => x <> t) l.

(** The [while] loop of [thread_awake] over the elements still to visit:
    removing the visited element and inserting it into the ready list
    leaves the elements after it in place. *)
Fixpoint awake_loop (curr_tick : Z) (l : list Z) : M unit :=
  match l with
  | [] => ret tt
  | t :: l' =>
      do th <- load t;;
      if bool_decide (curr_tick >= wakeup_tick th) then
        modify (fun s => with_sleep_list (list_remove t (sleep_list s)) s);;;
        thread_unblock t;;;
        awake_loop curr_tick l'
      else
        update_next_tick_to_awake (wakeup_tick th);;;
        awake_loop curr_tick l'
  end.

Definition thread_awake (curr_tick : Z) : M unit :=
  modify (with_next_tick_to_awake INT64_MAX);;;
  do l <- gets sleep_list;;
  awake_loop curr_tick l.

Definition test_max_priority : M unit :=
  do ic <- intr_context;;
  if ic then ret tt
  else
    do rl <- gets ready_list;;
    match rl with
    | [] => ret tt
    | front :: _ =>
        do cur <- thread_current;;
        do c <- load cur;;
        do f <- load front;;
        if bool_decide (priority c < priority f) then thread_yield
        else ret tt
    end.

(** ** Priority donation *)

(** The loop of [donate_priority], [n] iterations left, cursor [curr]. *)
Fixpoint donate_loop (n : nat) (curr : Z) : M unit :=
  match n with
  | O => ret tt
  | S n' =>
      do c <- load curr;;
      match wait_on_lock c with
      | None => ret tt
      | Some l =>
          do lk <- (fun s => match locks s !! l with
                             | Some lk => Ret lk s
                             | None => Fault s
                             end);;
          match holder lk with
          | None => fun s => Fault s
          | Some h =>
              do ht <- load h;;
              (if bool_decide (priority ht < priority c)
               then store h (set_priority (priority c))
               else ret tt);;;
              donate_loop n' h
          end
      end
  end.

Definition donate_priority : M unit :=
  do curr <- thread_current;;
  donate_loop DONATE_MAX_DEPTH curr.

(** The loop of [remove_with_lock] over the donation list [l] of the
    current thread: the threads that wait for [lock] are unlinked. *)
Fixpoint remove_with_lock_loop (lock : Z) (l : list Z) : M (list Z) :=
  match l with
  | [] => ret []
  | t :: l' =>
      do th <- load t;;
      do rest <- remove_with_lock_loop lock l';;
      if bool_decide (wait_on_lock th = Some lock) then ret rest
      else ret (t :: rest)
  end.

Definition remove_with_lock (lock : Z) : M unit :=
  do curr <- thread_current;;
  do c <- load curr;;
  do kept <- remove_with_lock_loop lock (donations c);;
  store curr (set_donations kept).

Definition refresh_priority : M unit :=
  do curr <- thread_current;;
  store curr (fun c => set_priority (init_priority c) c);;;
  do c <- load curr;;
  match donations c with
  | [] => ret tt
  | _ :: _ =>
      do sorted <- gets (fun s =>
                     list_sort (thread_compare_donate_priority s) (donations c));;
      store curr (set_donations sorted);;;
      match sorted with
      | [] => fun s => Panic s
      | front :: _ =>
          do f <- load front;;
          do c' <- load curr;;
          if bool_decide (priority f > priority c')
          then store curr (set_priority (priority f))
          else ret tt
      end
  end.

Definition thread_set_priority (new_priority : Z) : M unit :=
  do cur <- thread_current;;
  store cur (set_init_priority new_priority);;;
  refresh_priority;;;
  test_max_priority.

Definition thread_get_priority : M Z :=
  do cur <- thread_current;;
  do c <- load cur;;
  ret (priority c).

(** ** Thread creation *)

(** [init_thread (t, name, priority)] for a non-[NULL] [t] and [name]:
    the page is cleared and the members are set.  [name] is a
    [char[16]], so at most 15 characters are copied. *)
Definition init_thread (t : Z) (nm : string) (prio : Z) : M unit :=
  ASSERT (bool_decide (PRI_MIN <= prio) && bool_decide (prio <= PRI_MAX));;;
  modify (fun s =>
    with_threads
      (<[t := mkThread 0 THREAD_BLOCKED (String.substring 0 15 nm) prio 0 prio None
               [] [] None 0 0 None THREAD_MAGIC]> (threads s)) s).

(** [allocate_tid ()]; [tid_lock] is free whenever a thread gets here,
    so acquiring and releasing it leaves the state as it was. *)
Definition allocate_tid : M Z :=
  do t <- gets next_tid;;
  modify (with_next_tid (t + 1));;;
  ret t.

(** [thread_create (name, priority, function, aux)].  The page allocator
    is external: [page] is what [palloc_get_page (PAL_ZERO)] returns and
    [fdt_page] what [palloc_get_multiple (PAL_ZERO, FDT_PAGE_CNT)]
    returns, [None] for [NULL]. *)
Definition thread_create (nm : string) (prio : Z) (function : option Z)
    (aux : Z) (page fdt_page : option Z) : M Z :=
  match function with
  | None => fun s => Panic s
  | Some fn =>
      match page with
      | None => ret TID_ERROR
      | Some t =>
          init_thread t nm prio;;;
          do new_tid <- allocate_tid;;
          store t (set_tid new_tid);;;
          do parent <- thread_current;;
          store parent (fun p => set_children (children p ++ [t]) p);;;
          store t (set_fdt fdt_page);;;
          match fdt_page with
          | None => fun s => Fault s
          | Some f =>
              modify (fun s =>
                with_fdt_pages
                  (<[f := <[1%nat := 11]> (<[0%nat := 10]> ∅)]> (fdt_pages s))
                  s);;;
              store t (set_fd_bounds 2 1);;;
              store t (set_tf_call (Some (fn, aux)));;;
              thread_unblock t;;;
              test_max_priority;;;
              ret new_tid
          end
      end
  end.

(** ** The donation chain

    The holder of the lock that [t] waits for, and the chain
    [t -> lock.holder -> holder.wait_on_lock.holder -> ...] cut after [n]
    links.  Both read the state only; [t] itself is not listed. *)
Definition lock_holder (s : kstate) (t : Z) : option Z :=
  match threads s !! t with
  | Some th =>
      match wait_on_lock th with
      | Some l =>
          match locks s !! l with
          | Some lk => holder lk
          | None => None
          end
      | None => None
      end
  | None => None
  end.

Fixpoint donation_chain (n : nat) (s : kstate) (t : Z) : list Z :=
  match n with
  | O => []
  | S n' =>
      match lock_holder s t with
      | Some h => h :: donation_chain n' s h
      | None => []
      end
  end.

(** The walk from [t] meets live objects only, for [n] links: every
    thread on it is live, and a lock that one of them waits for is live
    and has a live holder. *)
Fixpoint chain_live (n : nat) (s : kstate) (t : Z) : Prop :=
  match n with
  | O => True
  | S n' =>
      match threads s !! t with
      | None => False
      | Some th =>
          match wait_on_lock th with
          | None => True
          | Some l =>
              exists lk h,
                locks s !! l = Some lk /\ holder lk = Some h /\
                is_Some (threads s !! h) /\ chain_live n' s h
          end
      end
  end.

(** The greatest of [base] and the priorities that the threads of [l]
    have in [s]. *)
Definition max_priority (s : kstate) (base : Z) (l : list Z) : Z :=
  foldr (fun t acc => Z.max (priority_of s t) acc) base l.

(** The wake-up tick recorded in the thread at [t], and the least of
    [INT64_MAX] and the wake-up ticks of the threads of [l]. *)
Definition wakeup_of (s : kstate) (t : Z) : Z :=
  match threads s !! t with
  | Some th => wakeup_tick th
  | None => 0
  end.

Definition min_wakeup (s : kstate) (l : list Z) : Z :=
  foldr (fun t acc => Z.min (wakeup_of s t) acc) INT64_MAX l.

(** The least of [base] and the wake-up ticks of the threads of [l]. *)
Definition min_from (s : kstate) (base : Z) (l : list Z) : Z :=
  foldr (fun t acc => Z.min (wakeup_of s t) acc) base l.

(** ** Concrete kernel states *)

(** Three threads on one chain: the running thread [100] (priority 10)
    waits for lock [1], held by [200] (priority 30), which waits for lock
    [2], held by the sleeping thread [300] (priority 20). *)
Definition donation_state : kstate :=
  mkState
    (<[100 := mkThread 2 THREAD_RUNNING "tip" 10 0 10 (Some 1) [] [] None 2 1
                None THREAD_MAGIC]>
     (<[200 := mkThread 3 THREAD_BLOCKED "h1" 30 0 30 (Some 2) [100] [] None 2 1
                 None THREAD_MAGIC]>
      (<[300 := mkThread 4 THREAD_BLOCKED "h2" 20 50 20 None [200] [] None 2 1
                  None THREAD_MAGIC]> ∅)))
    (<[1 := mkLock (Some 200)]> (<[2 := mkLock (Some 300)]> ∅))
    ∅ [] [300] [] 50 None None 100 5 0 INTR_OFF false.

(** The running thread [100] has base priority 20, a stale priority 35
    and the donors [200] (priority 25) and [300] (priority 33). *)
Definition refresh_state : kstate :=
  mkState
    (<[100 := mkThread 2 THREAD_RUNNING "holder" 35 0 20 None [200; 300] []
                None 2 1 None THREAD_MAGIC]>
     (<[200 := mkThread 3 THREAD_BLOCKED "d1" 25 0 25 (Some 1) [] [] None 2 1
                 None THREAD_MAGIC]>
      (<[300 := mkThread 4 THREAD_BLOCKED "d2" 33 0 33 (Some 1) [] [] None 2 1
                  None THREAD_MAGIC]> ∅)))
    (<[1 := mkLock (Some 100)]> ∅)
    ∅ [] [] [] INT64_MAX None None 100 5 0 INTR_OFF false.

(** Three sleepers with wake-up ticks 10, 20 and 15, seen from the timer
    interrupt while thread [100] runs. *)
Definition sleep_state : kstate :=
  mkState
    (<[100 := mkThread 1 THREAD_RUNNING "main" 31 0 31 None [] [] None 2 1
                None THREAD_MAGIC]>
     (<[200 := mkThread 3 THREAD_BLOCKED "a" 31 10 31 None [] [] None 2 1
                 None THREAD_MAGIC]>
      (<[300 := mkThread 4 THREAD_BLOCKED "b" 40 20 40 None [] [] None 2 1
                  None THREAD_MAGIC]>
       (<[400 := mkThread 5 THREAD_BLOCKED "c" 35 15 35 None [] [] None 2 1
                   None THREAD_MAGIC]> ∅))))
    ∅ ∅ [] [200; 300; 400] [] 10 None (Some 100) 100 6 0 INTR_OFF true.

(** ** Start-up *)

(** The file-scope variables as the loader leaves them, with the stack
    of the running code in the page at [page]: objects without an
    initialiser are zero ([next_tick_to_awake] among them) and
    [next_tid] starts at 1; interrupts are off. *)
Definition static_init (page : Z) : kstate :=
  mkState ∅ ∅ ∅ [] [] [] 0 None None page 1 0 INTR_OFF false.

(** [thread_init ()]; initialising [tid_lock] changes nothing that is
    modelled. *)
Definition thread_init : M unit :=
  do lvl <- intr_get_level;;
  ASSERT (bool_decide (lvl = INTR_OFF));;;
  modify (with_ready_list []);;;
  modify (with_destruction_req []);;;
  modify (with_sleep_list []);;;
  do t <- running_thread;;
  modify (with_initial_thread (Some t));;;
  init_thread t "main" PRI_DEFAULT;;;
  store t (set_status THREAD_RUNNING);;;
  do new_tid <- allocate_tid;;
  store t (set_tid new_tid).

(** The kernel once [thread_start] is through: [main] (at [100]) runs
    with interrupts on and the idle thread (at [200]) has blocked itself.
    No thread has slept and no sweep has run, so [next_tick_to_awake]
    still has its load-time value. *)
Definition boot_state : kstate :=
  mkState
    (<[100 := mkThread 1 THREAD_RUNNING "main" 31 0 31 None [] [200] None 0 0
                None THREAD_MAGIC]>
     (<[200 := mkThread 2 THREAD_BLOCKED "idle" 0 0 0 None [] [] (Some 900) 2 1
                 (Some (7, 0)) THREAD_MAGIC]> ∅))
    ∅ (<[900 := <[1%nat := 11]> (<[0%nat := 10]> ∅)]> ∅)
    [] [] [] 0 (Some 200) (Some 100) 100 3 0 INTR_ON false.

(** Thread [100] (priority 40) runs and is about to wait for lock [1];
    the lock's holder [300] (priority 20) is ready, queued behind the
    ready thread [200] (priority 30). *)
Definition inversion_state : kstate :=
  mkState
    (<[100 := mkThread 4 THREAD_RUNNING "c" 40 0 40 (Some 1) [] [] None 2 1
                None THREAD_MAGIC]>
     (<[200 := mkThread 3 THREAD_READY "a" 30 0 30 None [] [] None 2 1
                 None THREAD_MAGIC]>
      (<[300 := mkThread 2 THREAD_READY "b" 20 0 20 None [100] [] None 2 1
                  None THREAD_MAGIC]> ∅)))
    (<[1 := mkLock (Some 300)]> ∅)
    ∅ [200; 300] [] [] INT64_MAX None None 100 5 0 INTR_OFF false.

End Thread.

Module VmFile.

(** ** Constants and machine integers *)

(** Modelled from the spec: [PGSIZE] of [threads/vaddr.h] (absent from
    the sources), the spec's [PAGE_SIZE]; its scenario S6 puts a
    4500-byte file on two pages, as the 4 KiB page of x86-64 does. *)
Definition PGSIZE : Z := 4096.

(** [uint64_t] arithmetic wraps modulo [2^64]. *)
Definition wrap64 (x : Z) : Z := x mod 2 ^ 64.

(** Modelled from the spec: [off_t] of [filesys/off_t.h] (absent from the
    sources) is a signed 32-bit integer; converting an [uint64_t] to it
    keeps the low 32 bits. *)
Definition to_off_t (x : Z) : Z := (x + 2 ^ 31) mod 2 ^ 32 - 2 ^ 31.

(** Modelled from the spec: [pg_round_down] of [threads/vaddr.h] (absent
    from the sources): "rounds down" to the start of the page. *)
Definition pg_round_down (x : Z) : Z := x - x mod PGSIZE.

(** ** Data model *)

Inductive vm_type := VM_UNINIT | VM_ANON | VM_FILE.

(** The initializers a lazily loaded page may carry; [file.c] installs
    [lazy_load_file] only. *)
Inductive vm_initializer := LAZY_LOAD_FILE.

(** [struct mmap_info]: the auxiliary payload of a lazily loaded mapped
    page.  Files are designated by their handles. *)
Record mmap_info := mkInfo {
  mi_file : Z;
  mi_offset : Z;
  mi_read_bytes : Z
}.

(** [struct file_page]: "file handle, offset, valid-bytes-in-page". *)
Record file_page := mkFilePage {
  fp_file : Z;
  fp_ofs : Z;
  fp_size : Z
}.

(** The tagged union of [struct page]. *)
Inductive page_data :=
| Uninit (target : vm_type) (init : vm_initializer) (aux : mmap_info)
| Anon
| File (fp : file_page).

(** Modelled from the spec: [struct page] of [vm/vm.h] (absent from the
    sources): "vaddr (page-aligned), type, writable, frame (optional
    back-reference), backing (tagged)". *)
Record page := mkPage {
  va : Z;
  writable : bool;
  frame : option Z;
  data : page_data
}.

(** [struct mmap_file_info]; [mfi_end] is the start of the final page. *)
Record mmap_file_info := mkRecord {
  mfi_start : Z;
  mfi_end : Z
}.

(** The calls made on the file interface, which is external:
    "[reopen], [seek], [read(n)], [write(n)], [close]".  A write carries
    the bytes handed to [file_write]. *)
Inductive file_event :=
| EvReopen (file handle : Z)
| EvSeek (handle pos : Z)
| EvRead (handle size : Z)
| EvWrite (handle : Z) (bytes : list Byte.byte)
| EvClose (handle : Z).

(** The state [file.c] works on: the supplemental page table of the
    running process, the static list of mmap records, user memory (an
    absent address reads as zero), the dirty bits of the process's page
    table, the frame list, the calls made on the file interface so far,
    and the next handle [file_reopen] hands out.  [mmap_file_list] is
    [None] for the [struct list] as the loader leaves it, all zero, as
    long as no [list_init] has run on it, and [Some l] for an
    initialised list with the records [l]. *)
Record vm_state := mkVm {
  spt : gmap Z page;
  mmap_file_list : option (list mmap_file_info);
  memory : gmap Z Byte.byte;
  dirty : gset Z;
  frame_table : list Z;
  file_log : list file_event;
  next_handle : Z
}.

Definition with_spt (v : gmap Z page) (s : vm_state) : vm_state :=
  mkVm v (mmap_file_list s) (memory s) (dirty s) (frame_table s) (file_log s)
    (next_handle s).

Definition with_mmap_file_list (v : option (list mmap_file_info))
    (s : vm_state) : vm_state :=
  mkVm (spt s) v (memory s) (dirty s) (frame_table s) (file_log s)
    (next_handle s).

Definition with_memory (v : gmap Z Byte.byte) (s : vm_state) : vm_state :=
  mkVm (spt s) (mmap_file_list s) v (dirty s) (frame_table s) (file_log s)
    (next_handle s).

Definition with_dirty (v : gset Z) (s : vm_state) : vm_state :=
  mkVm (spt s) (mmap_file_list s) (memory s) v (frame_table s) (file_log s)
    (next_handle s).

Definition with_frame_table (v : list Z) (s : vm_state) : vm_state :=
  mkVm (spt s) (mmap_file_list s) (memory s) (dirty s) v (file_log s)
    (next_handle s).

Definition log_event (e : file_event) (s : vm_state) : vm_state :=
  mkVm (spt s) (mmap_file_list s) (memory s) (dirty s) (frame_table s)
    (file_log s ++ [e]) (next_handle s).

(** ** The file interface and the MMU, as [file.c] uses them *)

Definition file_seek (h pos : Z) (s : vm_state) : vm_state :=
  log_event (EvSeek h pos) s.

Definition file_close (h : Z) (s : vm_state) : vm_state :=
  log_event (EvClose h) s.

(** [size] bytes of user memory from [buffer] on. *)
Definition read_memory (s : vm_state) (buffer size : Z) : list Byte.byte :=
  (fun a => default Byte.x00 (memory s !! a)) <$> seqZ buffer size.

Definition file_write (h buffer size : Z) (s : vm_state) : vm_state :=
  log_event (EvWrite h (read_memory s buffer size)) s.

(** [file_reopen (file)] hands out a new handle on the same file. *)
Definition file_reopen (file : Z) (s : vm_state) : Z * vm_state :=
  (next_handle s,
   mkVm (spt s) (mmap_file_list s) (memory s) (dirty s) (frame_table s)
     (file_log s ++ [EvReopen file (next_handle s)]) (next_handle s + 1)).

(** Storing [bytes] at [addr], [addr + 1], ... *)
Fixpoint write_memory (addr : Z) (bytes : list Byte.byte)
    (m : gmap Z Byte.byte) : gmap Z Byte.byte :=
  match bytes with
  | [] => m
  | b :: bytes' => write_memory (addr + 1) bytes' (<[addr := b]> m)
  end.

(** [file_read (file, buffer, size)]: the file system delivers [got], of
    which at most [size] bytes are stored from [buffer] on; the result
    is the number of bytes stored. *)
Definition file_read (h buffer size : Z) (got : list Byte.byte)
    (s : vm_state) : Z * vm_state :=
  let bytes := take (Z.to_nat size) got in
  (Z.of_nat (length bytes),
   log_event (EvRead h size) (with_memory (write_memory buffer bytes (memory s)) s)).

Definition pml4_is_dirty (s : vm_state) (upage : Z) : bool :=
  bool_decide (upage ∈ dirty s).

Definition pml4_set_dirty (upage : Z) (d : bool) (s : vm_state) : vm_state :=
  with_dirty (if d then {[upage]} ∪ dirty s else dirty s ∖ {[upage]}) s.

(** Modelled from the spec: [vm_alloc_page_with_initializer] of [vm/vm.c]
    (absent from the sources): "inserts an [UNINIT] SPTE.  Errors: [vaddr]
    not page-aligned, already present."  On an error the table is left
    as it was and the result is [false]. *)
Definition vm_alloc_page_with_initializer (type : vm_type) (upage : Z)
    (w : bool) (init : vm_initializer) (aux : mmap_info) (s : vm_state)
  : bool * vm_state :=
  if bool_decide (upage mod PGSIZE = 0) then
    match spt s !! upage with
    | Some _ => (false, s)
    | None =>
        (true,
         with_spt (<[upage := mkPage upage w None (Uninit type init aux)]> (spt s)) s)
    end
  else (false, s).

(** Modelled from the spec: [list_push_back] of [lib/kernel/list.c]
    (absent from the sources).  It inserts before the tail of the list
    and asserts first that this position is an interior element or a
    tail, that is an element with a predecessor; the tail of a list that
    was never initialised has none, and "assertions on invariants are
    fatal": the result is [None] then. *)
Definition list_push_back {A : Type} (l : option (list A)) (x : A)
  : option (list A) :=
  match l with
  | Some l' => Some (l' ++ [x])
  | None => None
  end.

(** ** [file.c] *)

(** [vm_file_init ()]: the body holds the [list_init] of
    [mmap_file_list] in a comment and nothing else. *)
Definition vm_file_init (s : vm_state) : vm_state := s.

(** [file_backed_initializer (page, type, kva)]: the page becomes a file
    page whose handle is the one of its payload.  The other two members
    of the [file_page] are not assigned here; [ofs0] and [size0] are what
    the union holds in their place. *)
Definition file_backed_initializer (ofs0 size0 : Z) (pg : page) : page :=
  match data pg with
  | Uninit _ _ aux =>
      mkPage (va pg) (writable pg) (frame pg)
        (File (mkFilePage (mi_file aux) ofs0 size0))
  | _ => pg
  end.

(** [file_backed_destroy (page)], for a page whose operations are
    [file_ops]. *)
Definition file_backed_destroy (pg : page) (s : vm_state) : vm_state :=
  match data pg with
  | File fp =>
      let s1 :=
        if pml4_is_dirty s (va pg)
        then file_write (fp_file fp) (va pg) (fp_size fp)
               (file_seek (fp_file fp) (fp_ofs fp) s)
        else s in
      let s2 := file_close (fp_file fp) s1 in
      match frame pg with
      | Some fr =>
          with_frame_table (filter (fun x => x <> fr) (frame_table s2)) s2
      | None => s2
      end
  | _ => s
  end.

(** [lazy_load_file (page, aux)]; [got] is what the file holds from the
    offset on.  The updated page is returned with the state. *)
Definition lazy_load_file (got : list Byte.byte) (pg : page) (mi : mmap_info)
    (s : vm_state) : page * vm_state :=
  match data pg with
  | File fp =>
      let s1 := file_seek (mi_file mi) (mi_offset mi) s in
      let '(n, s2) := file_read (mi_file mi) (va pg) (mi_read_bytes mi) got s1 in
      let s3 :=
        if bool_decide (n <> PGSIZE)
        then with_memory
               (write_memory (va pg + n)
                  (replicate (Z.to_nat (PGSIZE - n)) Byte.x00) (memory s2)) s2
        else s2 in
      (mkPage (va pg) (writable pg) (frame pg)
         (File (mkFilePage (fp_file fp) (mi_offset mi) n)),
       pml4_set_dirty (va pg) false s3)
  | _ => (pg, s)
  end.

(** The [for] loop of [do_mmap] from index [i] on.  The index is an
    [uint64_t] and wraps, so the loop need not end: [fuel] bounds the
    iterations and [None] reports that it ran out.  [malloc] and
    [file_reopen] are taken to succeed; the result of
    [vm_alloc_page_with_initializer] is not looked at. *)
Fixpoint mmap_loop (fuel : nat) (addr length : Z) (w : bool) (file offset : Z)
    (i : Z) (s : vm_state) : option vm_state :=
  match fuel with
  | O => None
  | S fuel' =>
      if bool_decide (i < length) then
        let ofs := to_off_t (wrap64 (offset + i)) in
        let read_bytes :=
          if bool_decide (length - i >= PGSIZE) then PGSIZE else length - i in
        let '(h, s1) := file_reopen file s in
        let mi := mkInfo h ofs read_bytes in
        let '(_, s2) :=
          vm_alloc_page_with_initializer VM_FILE (wrap64 (addr + i)) w
            LAZY_LOAD_FILE mi s1 in
        mmap_loop fuel' addr length w file offset (wrap64 (i + PGSIZE)) s2
      else Some s
  end.

(** One round of the loop of [do_mmap], as a state transformer. *)
Definition mmap_round (addr length : Z) (w : bool) (file offset i : Z)
    (s : vm_state) : vm_state :=
  (vm_alloc_page_with_initializer VM_FILE (wrap64 (addr + i)) w LAZY_LOAD_FILE
     (mkInfo (file_reopen file s).1 (to_off_t (wrap64 (offset + i)))
        (if bool_decide (length - i >= PGSIZE) then PGSIZE else length - i))
     (file_reopen file s).2).2.

(** How a call of [do_mmap] ends: it returns a pointer, or the kernel
    panics; either way with the state it has reached. *)
Inductive mmap_outcome :=
| Mapped (result : Z) (s : vm_state)
| Panicked (s : vm_state).

Definition outcome_state (o : mmap_outcome) : vm_state :=
  match o with
  | Mapped _ s => s
  | Panicked s => s
  end.

(** [do_mmap (addr, length, writable, file, offset)]: the loop, then the
    record is pushed and [addr] returned.  [None] reports that the fuel
    of the loop ran out. *)
Definition do_mmap (fuel : nat) (addr length writable file offset : Z)
    (s : vm_state) : option mmap_outcome :=
  match mmap_loop fuel addr length (bool_decide (writable <> 0)) file offset 0 s
  with
  | None => None
  | Some s' =>
      let mfi := mkRecord addr (pg_round_down (wrap64 (addr + length - 1))) in
      match list_push_back (mmap_file_list s') mfi with
      | Some l => Some (Mapped addr (with_mmap_file_list (Some l) s'))
      | None => Some (Panicked s')
      end
  end.


(** ** Concrete states *)



(** A process whose page at [8192] is mapped already (a stack page). *)
Definition vm_one_page : vm_state :=
  mkVm (<[8192 := mkPage 8192 true None Anon]> ∅) None ∅ ∅ [] [] 50.

(** The second page of a 4500-byte file mapped at [4096]: resident at
    [8192] in frame [70], dirty, with 404 valid bytes from file offset
    4096; the user has stored [0x2a] in its first and in its 405th byte. *)
Definition second_page : page :=
  mkPage 8192 true (Some 70) (File (mkFilePage 51 4096 404)).

Definition vm_dirty_page : vm_state :=
  mkVm (<[8192 := second_page]> ∅) None
    (<[8192 := Byte.x2a]> (<[8596 := Byte.x2a]> ∅)) {[8192]} [70] [] 52.

End VmFile.

(** ** The scheduler's choice, for stating what a reschedule does *)

Module Sched.
Import Thread.

(** The thread store once [do_schedule] has freed the pages of the
    threads queued in [destruction_req]. *)
Definition reclaimed (s : kstate) : gmap Z thread :=
  foldr (fun v m => delete v m) (threads s) (destruction_req s).

(** The file-scope variables that a reschedule leaves alone. *)
Definition same_globals (s s' : kstate) : Prop :=
  locks s' = locks s /\ fdt_pages s' = fdt_pages s /\
  sleep_list s' = sleep_list s /\
  next_tick_to_awake s' = next_tick_to_awake s /\
  idle_thread s' = idle_thread s /\ initial_thread s' = initial_thread s /\
  next_tid s' = next_tid s /\ in_intr_context s' = in_intr_context s.

(** [thread_exit ()] after [process_exit ()], which belongs to
    [userprog/process.c]: interrupts go off and the thread is
    rescheduled as dying. *)
Definition thread_exit_tail : M bool :=
  do ic <- intr_context;;
  ASSERT (negb ic);;;
  do old <- intr_disable;;
  do_schedule THREAD_DYING.

(** Two threads of priority 31, [100] running and [200] ready before
    the ready thread [300] of priority 20; the dying thread [400] waits
    for its page to be freed. *)
Definition round_robin_state : kstate :=
  mkState
    (<[100 := mkThread 1 THREAD_RUNNING "main" 31 0 31 None [] [200; 300] None
                0 0 None THREAD_MAGIC]>
     (<[200 := mkThread 2 THREAD_READY "a" 31 0 31 None [] [] (Some 900) 2 1
                 (Some (7, 0)) THREAD_MAGIC]>
      (<[300 := mkThread 3 THREAD_READY "b" 20 0 20 None [] [] (Some 901) 2 1
                  (Some (7, 1)) THREAD_MAGIC]>
       (<[400 := mkThread 4 THREAD_DYING "gone" 31 0 31 None [] [] (Some 902)
                   2 1 (Some (7, 2)) THREAD_MAGIC]> ∅))))
    ∅ ∅ [200; 300] [] [400] INT64_MAX None (Some 100) 100 5 3 INTR_ON false.

(** What [next_thread_to_run] picks and the ready list it leaves: the
    front of the ready list, or the idle thread when the list is empty. *)
Definition next_pick (s : kstate) : option (Z * list Z) :=
  match ready_list s with
  | n :: rl' => Some (n, rl')
  | [] => (fun i => (i, [])) <$> idle_thread s
  end.

(** Thread [500] of priority 31 is blocked while [200] (priority 31) and
    [300] (priority 20) are ready and [100] runs. *)
Definition unblock_state : kstate :=
  with_threads
    (<[500 := mkThread 5 THREAD_BLOCKED "w" 31 0 31 None [] [] (Some 903) 2 1
                (Some (7, 3)) THREAD_MAGIC]> (threads round_robin_state))
    round_robin_state.

(** The running thread [100] holds the locks [1] and [2]; the donor
    [200] (priority 25) waits for lock [1], the donor [300] (priority 33)
    for lock [2]. *)
Definition release_state : kstate :=
  mkState
    (<[100 := mkThread 2 THREAD_RUNNING "holder" 33 0 20 None [200; 300] []
                None 2 1 None THREAD_MAGIC]>
     (<[200 := mkThread 3 THREAD_BLOCKED "d1" 25 0 25 (Some 1) [] [] None 2 1
                 None THREAD_MAGIC]>
      (<[300 := mkThread 4 THREAD_BLOCKED "d2" 33 0 33 (Some 2) [] [] None 2 1
                  None THREAD_MAGIC]> ∅)))
    (<[1 := mkLock (Some 100)]> (<[2 := mkLock (Some 100)]> ∅))
    ∅ [] [] [] INT64_MAX None None 100 5 0 INTR_OFF false.

End Sched.

(** ** The timer tick ([thread_tick]) *)

Module Tick.
Import Thread.

(** The scheduler state with what [thread_tick] touches besides: the
    three tick counters, the yield request of the interrupt layer, and
    the [pml4] member of the threads (the address of a thread's page
    table; no entry stands for [NULL]).  The counters are [long long];
    their overflow is not modelled. *)
Record tick_state := mkTick {
  ks : kstate;
  idle_ticks : Z;
  kernel_ticks : Z;
  user_ticks : Z;
  yield_on_return : bool;
  pml4 : gmap Z Z
}.

(** Modelled from the spec: [intr_yield_on_return] of
    [threads/interrupt.c] (absent from the sources): "request
    yield-on-return". *)
Definition intr_yield_on_return (ts : tick_state) : tick_state :=
  mkTick (ks ts) (idle_ticks ts) (kernel_ticks ts) (user_ticks ts) true
    (pml4 ts).

(** [thread_tick ()], built with [USERPROG]; [None] is a failed
    assertion of [thread_current].  [thread_ticks] is an [unsigned]
    and wraps at [2^32]. *)
Definition thread_tick (ts : tick_state) : option tick_state :=
  match thread_current (ks ts) with
  | Ret t _ =>
      let ts1 :=
        if bool_decide (Some t = idle_thread (ks ts))
        then mkTick (ks ts) (idle_ticks ts + 1) (kernel_ticks ts)
               (user_ticks ts) (yield_on_return ts) (pml4 ts)
        else if bool_decide (is_Some (pml4 ts !! t))
        then mkTick (ks ts) (idle_ticks ts) (kernel_ticks ts)
               (user_ticks ts + 1) (yield_on_return ts) (pml4 ts)
        else mkTick (ks ts) (idle_ticks ts) (kernel_ticks ts + 1)
               (user_ticks ts) (yield_on_return ts) (pml4 ts) in
      let n := (thread_ticks (ks ts) + 1) mod 2 ^ 32 in
      let ts2 :=
        mkTick (with_thread_ticks n (ks ts1)) (idle_ticks ts1)
          (kernel_ticks ts1) (user_ticks ts1) (yield_on_return ts1)
          (pml4 ts1) in
      if bool_decide (n >= TIME_SLICE) then Some (intr_yield_on_return ts2)
      else Some ts2
  | _ => None
  end.

(** [k] timer ticks in a row, no reschedule in between. *)
Fixpoint thread_ticks_run (k : nat) (ts : tick_state) : option tick_state :=
  match k with
  | O => Some ts
  | S k' =>
      match thread_tick ts with
      | Some ts' => thread_ticks_run k' ts'
      | None => None
      end
  end.

(** A kernel thread at [100] that has just been scheduled. *)
Definition fresh_slice : tick_state :=
  mkTick inversion_state 7 20 3 false ∅.

End Tick.

(** * What a mapping asks of the file interface *)

Module Mmap.
Import VmFile.

(** The rounds the loop of [do_mmap] still has to make at index [i]:
    one for each page from [i] up to [length]. *)
Definition pages_from (length i : Z) : Z :=
  Z.max 0 ((length - i + PGSIZE - 1) / PGSIZE).

(** [n] calls of [file_reopen] on [file] in a row, the first of which
    hands out the handle [h]. *)
Definition reopen_events (file h n : Z) : list file_event :=
  (fun j => EvReopen file (h + j)) <$> seqZ 0 n.

(** The page at [8192] of a process, as [file_backed_initializer] has
    left it for the handle 51, before its content is loaded. *)
Definition fresh_file_page : page :=
  mkPage 8192 true (Some 70) (File (mkFilePage 51 0 0)).

(** The memory of a process that held the byte [0x2a] at [8195], inside
    the page, and at [12288], right after it. *)
Definition vm_stale_memory : vm_state :=
  mkVm (<[8192 := fresh_file_page]> ∅) None
    (<[8195 := Byte.x2a]> (<[12288 := Byte.x2a]> ∅)) {[8192]} [70] [] 52.

End Mmap.

(** * Properties of the list routines *)

Section KernelListFacts.
Context {A : Type}.
Implicit Types (l : list A) (less : A -> A -> bool).

Lemma list_insert_ordered_perm less (x : A) l :
  list_insert_ordered less x l ≡ₚ x :: l.
Proof.
  induction l as [|e l IH]; cbn; [done|].
  destruct (less x e); [done|]. rewrite IH. apply Permutation_swap.
Qed.

(** Where [list_insert_ordered] puts the element: behind the longest
    prefix of elements it is not [less] than. *)
Lemma list_insert_ordered_split less (x : A) l :
  exists l1 l2,
    l = l1 ++ l2 /\
    list_insert_ordered less x l = l1 ++ x :: l2 /\
    Forall (fun e => less x e = false) l1 /\
    (forall e, head l2 = Some e -> less x e = true).
Proof.
  induction l as [|e l (l1 & l2 & -> & Heq & Hl1 & Hl2)]; cbn.
  { exists [], []. repeat split; [done..|]. by intros e. }
  destruct (less x e) eqn:Hlt.
  - exists [], (e :: l1 ++ l2). repeat split; [done..|].
    intros e' [= <-]. done.
  - exists (e :: l1), l2. rewrite Heq. repeat split; [|done].
    by constructor.
Qed.

Lemma sort_insert_perm less (x : A) l : sort_insert less x l ≡ₚ x :: l.
Proof.
  induction l as [|y l IH]; cbn; [done|].
  destruct (less y x); [|done]. rewrite IH. apply Permutation_swap.
Qed.

Lemma list_sort_perm less l : list_sort less l ≡ₚ l.
Proof.
  unfold list_sort. induction l as [|x l IH]; cbn; [done|].
  rewrite sort_insert_perm. by rewrite IH.
Qed.

(** Orders given by a key, greatest first, as both comparison functions
    of [thread.c] are. *)
Section ByKey.
Variable key : A -> Z.
Variable less : A -> A -> bool.
Hypothesis less_key : forall a b, less a b = bool_decide (key a > key b).

Lemma sorted_by_key l :
  sorted_by less l <->
  (forall i j x y, l !! i = Some x -> l !! j = Some y -> (i < j)%nat ->
                   key y <= key x).
Proof.
  induction l as [|a l IH]; cbn [sorted_by].
  { split; [|done]. intros _ i j x y Hi. done. }
  rewrite IH, Forall_forall. split.
  - intros [Ha Hl] i j x y Hi Hj Hij.
    destruct j as [|j]; [lia|]. cbn in Hj.
    destruct i as [|i]; cbn in Hi.
    + injection Hi as <-.
      specialize (Ha y (list_elem_of_lookup_2 _ _ _ Hj)).
      rewrite less_key in Ha. apply bool_decide_eq_false in Ha. lia.
    + apply (Hl i j); [done..|lia].
  - intros H. split.
    + intros y Hy. apply list_elem_of_lookup in Hy as [j Hj].
      rewrite less_key. apply bool_decide_eq_false.
      specialize (H 0%nat (S j) a y eq_refl Hj). lia.
    + intros i j x y Hi Hj Hij. apply (H (S i) (S j)); [done..|lia].
Qed.

Lemma sorted_by_cons_inv (a : A) l :
  sorted_by less (a :: l) <->
  (forall y, y ∈ l -> key y <= key a) /\ sorted_by less l.
Proof.
  cbn [sorted_by]. rewrite Forall_forall. split; intros [H1 H2]; split;
    try done; intros y Hy; specialize (H1 y Hy); rewrite less_key in *.
  - apply bool_decide_eq_false in H1. lia.
  - apply bool_decide_eq_false. lia.
Qed.

(** Inserting in order keeps a sorted list sorted. *)
Lemma list_insert_ordered_sorted (x : A) l :
  sorted_by less l -> sorted_by less (list_insert_ordered less x l).
Proof.
  induction l as [|e l IH]; intros Hs.
  { cbn. split; [constructor|done]. }
  cbn [list_insert_ordered]. rewrite less_key.
  pose proof Hs as Hs'. apply sorted_by_cons_inv in Hs' as [He Hl].
  case_bool_decide as Hlt.
  - apply sorted_by_cons_inv. split; [|done].
    intros y Hy. apply elem_of_cons in Hy as [->|Hy]; [lia|].
    specialize (He y Hy). lia.
  - apply sorted_by_cons_inv. split; [|by apply IH].
    intros y Hy. rewrite list_insert_ordered_perm in Hy.
    apply elem_of_cons in Hy as [->|Hy]; [lia|by apply He].
Qed.

(** Among elements of equal key the inserted one comes last: everything
    before it has a key at least as great, everything behind it, in a
    sorted list, a strictly smaller one. *)
Lemma list_insert_ordered_fifo (x : A) l :
  sorted_by less l ->
  exists l1 l2,
    l = l1 ++ l2 /\
    list_insert_ordered less x l = l1 ++ x :: l2 /\
    (forall e, e ∈ l1 -> key x <= key e) /\
    (forall e, e ∈ l2 -> key e < key x).
Proof.
  intros Hs.
  destruct (list_insert_ordered_split less x l)
    as (l1 & l2 & -> & Heq & Hl1 & Hl2).
  exists l1, l2. repeat split; [done|..].
  - intros e He. rewrite Forall_forall in Hl1. specialize (Hl1 e He).
    rewrite less_key in Hl1. apply bool_decide_eq_false in Hl1. lia.
  - intros e He. destruct l2 as [|e0 l2]; [by apply elem_of_nil in He|].
    specialize (Hl2 e0 eq_refl). rewrite less_key in Hl2.
    apply bool_decide_eq_true in Hl2.
    assert (Hs2 : sorted_by less (e0 :: l2)).
    { clear -Hs. induction l1 as [|a l1 IH]; [done|]. apply IH.
      by destruct Hs. }
    apply sorted_by_cons_inv in Hs2 as [Hle _].
    apply elem_of_cons in He as [->|He]; [lia|].
    specialize (Hle e He). lia.
Qed.

Lemma sort_insert_sorted (x : A) l :
  sorted_by less l -> sorted_by less (sort_insert less x l).
Proof.
  induction l as [|y l IH]; intros Hs.
  { cbn. split; [constructor|done]. }
  cbn [sort_insert]. rewrite less_key.
  pose proof Hs as Hs'. apply sorted_by_cons_inv in Hs' as [Hy Hl].
  case_bool_decide as Hlt.
  - apply sorted_by_cons_inv. split; [|by apply IH].
    intros z Hz. rewrite sort_insert_perm in Hz.
    apply elem_of_cons in Hz as [->|Hz]; [lia|by apply Hy].
  - apply sorted_by_cons_inv. split; [|done].
    intros z Hz. apply elem_of_cons in Hz as [->|Hz]; [lia|].
    specialize (Hy z Hz). lia.
Qed.

Lemma list_sort_sorted l : sorted_by less (list_sort less l).
Proof.
  unfold list_sort. induction l as [|x l IH]; cbn; [done|].
  by apply sort_insert_sorted.
Qed.

(** The front of a sorted list has the greatest key. *)
Lemma list_sort_front (x : A) l l' :
  list_sort less l = x :: l' ->
  x ∈ l /\ forall y, y ∈ l -> key y <= key x.
Proof.
  intros Heq. pose proof (list_sort_sorted l) as Hs.
  pose proof (list_sort_perm less l) as Hp. rewrite Heq in Hs, Hp.
  apply sorted_by_cons_inv in Hs as [Hle _]. split.
  - rewrite <- Hp. left.
  - intros y Hy. rewrite <- Hp in Hy.
    apply elem_of_cons in Hy as [->|Hy]; [lia|by apply Hle].
Qed.

End ByKey.
End KernelListFacts.

Section KernelListSortFacts.
Context {A : Type}.
Implicit Types (l : list A) (less : A -> A -> bool).

Lemma list_sort_ext less less' l :
  (forall a b, less a b = less' a b) -> list_sort less l = list_sort less' l.
Proof.
  intros H. unfold list_sort. induction l as [|x l IH]; cbn; [done|].
  rewrite IH. generalize (foldr (sort_insert less') [] l). intros m.
  induction m as [|y m IHm]; cbn; [done|]. by rewrite H, IHm.
Qed.

(** Sorting a sorted list changes nothing. *)
Lemma list_sort_sorted_id less l : sorted_by less l -> list_sort less l = l.
Proof.
  unfold list_sort. induction l as [|x l IH]; intros Hs; [done|].
  destruct Hs as [Hx Hs]. cbn. rewrite IH by done.
  destruct l as [|y l]; [done|]. cbn.
  apply Forall_cons_1 in Hx as [Hy _]. by rewrite Hy.
Qed.

Lemma list_insert_ordered_ext_in less less' (x : A) l :
  (forall e, e ∈ l -> less x e = less' x e) ->
  list_insert_ordered less x l = list_insert_ordered less' x l.
Proof.
  induction l as [|e l IH]; intros H; [done|]. cbn.
  rewrite (H e) by left. rewrite IH; [done|].
  intros y Hy. apply H. by right.
Qed.

End KernelListSortFacts.

(** * Properties of the scheduler *)

Module ThreadSpec.
Import Thread.

(** Unfolding the kernel computations. *)
Ltac run :=
  repeat (cbn [final_state] in *;
          unfold bind, ret, gets, modify, ASSERT, load, store, is_thread,
            running_thread, intr_get_level, intr_context, intr_set_level,
            intr_disable in * ).

(** Stepping through a computation. *)
Lemma bind_Ret {A B} (c : M A) (k : A -> M B) (s s' : kstate) (a : A) :
  c s = Ret a s' -> bind c k s = k a s'.
Proof. unfold bind. by intros ->. Qed.

Lemma load_Some (s : kstate) (t : Z) (th : thread) :
  threads s !! t = Some th -> load t s = Ret th s.
Proof. unfold load. by intros ->. Qed.

Lemma store_Some (s : kstate) (t : Z) (th : thread) (f : thread -> thread) :
  threads s !! t = Some th ->
  store t f s = Ret tt (with_threads (<[t := f th]> (threads s)) s).
Proof. unfold store. by intros ->. Qed.

Lemma priority_of_insert (s : kstate) (t x : Z) (th : thread) :
  priority_of (with_threads (<[t := th]> (threads s)) s) x
  = if decide (x = t) then priority th else priority_of s x.
Proof.
  unfold priority_of. cbn. case_decide as Hx.
  - subst x. by rewrite lookup_insert_eq.
  - by rewrite lookup_insert_ne.
Qed.

Lemma set_priority_same (th : thread) : set_priority (priority th) th = th.
Proof. by destruct th. Qed.

Lemma set_priority_twice (a b : Z) (th : thread) :
  set_priority a (set_priority b th) = set_priority a th.
Proof. done. Qed.

(** Writing a priority leaves every chain where it was. *)
Lemma lock_holder_store_priority (s : kstate) (h : Z) (ht : thread) (p t : Z) :
  threads s !! h = Some ht ->
  lock_holder (with_threads (<[h := set_priority p ht]> (threads s)) s) t
  = lock_holder s t.
Proof.
  intros Hh. unfold lock_holder. cbn.
  destruct (decide (h = t)) as [->|Hne].
  - rewrite lookup_insert_eq, Hh. done.
  - rewrite lookup_insert_ne by done. done.
Qed.

Lemma donation_chain_store_priority (n : nat) (s : kstate) (h : Z)
    (ht : thread) (p t : Z) :
  threads s !! h = Some ht ->
  donation_chain n (with_threads (<[h := set_priority p ht]> (threads s)) s) t
  = donation_chain n s t.
Proof.
  intros Hh. revert t. induction n as [|n IH]; intros t; [done|].
  cbn [donation_chain]. rewrite lock_holder_store_priority by done.
  destruct (lock_holder s t); [|done]. by rewrite IH.
Qed.

(** One run of the donation loop: every thread keeps all its members but
    the priority, which does not go down, and a thread off the chain
    keeps its priority too. *)
Lemma donate_loop_frame (n : nat) :
  forall (curr : Z) (s : kstate) (t : Z) (th : thread),
    threads s !! t = Some th ->
    exists th',
      threads (final_state (donate_loop n curr s)) !! t = Some th' /\
      th' = set_priority (priority th') th /\
      priority th <= priority th' /\
      (t ∉ donation_chain n s curr -> th' = th).
Proof.
  induction n as [|n IH]; intros curr s t th Ht.
  { exists th. cbn. by rewrite set_priority_same. }
  assert (Hsame : forall L : list Z, exists th', threads s !! t = Some th' /\
            th' = set_priority (priority th') th /\
            priority th <= priority th' /\ (t ∉ L -> th' = th)).
  { intros L. exists th. by rewrite set_priority_same. }
  cbn [donate_loop donation_chain]. unfold lock_holder. run.
  destruct (threads s !! curr) as [c|] eqn:Hc; [|apply Hsame].
  destruct (wait_on_lock c) as [l|] eqn:Hl; [|apply Hsame].
  destruct (locks s !! l) as [lk|] eqn:Hlk; [|apply Hsame].
  destruct (holder lk) as [h|] eqn:Hh; [|apply Hsame].
  clear Hsame.
  destruct (threads s !! h) as [ht|] eqn:Hht; cbn [final_state].
  2:{ exists th. rewrite set_priority_same. repeat split; (done || lia). }
  case_bool_decide as Hlt; run; rewrite ?Hht.
  - set (s1 := with_threads (<[h := set_priority (priority c) ht]> (threads s)) s).
    destruct (decide (t = h)) as [->|Hne].
    + assert (Ht1 : threads s1 !! h = Some (set_priority (priority c) ht))
        by (subst s1; cbn; by rewrite lookup_insert_eq).
      destruct (IH h s1 h _ Ht1) as (th' & Hth' & Heq & Hle & _).
      exists th'. split; [done|]. rewrite Ht in Hht. injection Hht as <-.
      split; [by rewrite Heq|]. split; [cbn in Hle; lia|].
      intros Hnot. exfalso. apply Hnot. left.
    + assert (Ht1 : threads s1 !! t = Some th)
        by (subst s1; cbn; by rewrite lookup_insert_ne).
      destruct (IH h s1 t _ Ht1) as (th' & Hth' & Heq & Hle & Hoff).
      exists th'. repeat split; [done..|].
      intros Hnot. apply Hoff. subst s1.
      rewrite donation_chain_store_priority by done.
      intros Hin. apply Hnot. by right.
  - destruct (IH h s t _ Ht) as (th' & Hth' & Heq & Hle & Hoff).
    exists th'. repeat split; [done..|].
    intros Hnot. apply Hoff. intros Hin. apply Hnot. by right.
Qed.

Lemma thread_current_inv (s : kstate) :
  (exists c, thread_current s = Ret (current s) s /\
             threads s !! current s = Some c /\
             magic c = THREAD_MAGIC /\ status c = THREAD_RUNNING) \/
  thread_current s = Panic s.
Proof.
  unfold thread_current. run.
  destruct (threads s !! current s) as [c|] eqn:Hc; [|by right].
  case_bool_decide as Hm; [|by right].
  rewrite Hc. case_bool_decide as Hs; [|by right].
  left. by exists c.
Qed.

Lemma thread_current_ok (s : kstate) (c : thread) :
  threads s !! current s = Some c ->
  magic c = THREAD_MAGIC -> status c = THREAD_RUNNING ->
  thread_current s = Ret (current s) s.
Proof.
  intros Hc Hm Hs. unfold thread_current. run. rewrite Hc.
  rewrite (bool_decide_eq_true_2 _ Hm). cbn. rewrite Hc.
  rewrite (bool_decide_eq_true_2 _ Hs). done.
Qed.

Lemma max_priority_base (s : kstate) (a b : Z) (l : list Z) :
  max_priority s (Z.max a b) l = Z.max a (max_priority s b l).
Proof.
  unfold max_priority. induction l as [|x l IH]; cbn; [done|].
  rewrite IH. lia.
Qed.

Lemma max_priority_ext (s1 s2 : kstate) (base : Z) (l : list Z) :
  (forall x, x ∈ l -> priority_of s1 x = priority_of s2 x) ->
  max_priority s1 base l = max_priority s2 base l.
Proof.
  unfold max_priority. induction l as [|x l IH]; intros H; cbn; [done|].
  rewrite H by left. rewrite IH; [done|]. intros y Hy. apply H. by right.
Qed.

(** The walk, when it returns: the [i]-th thread of an acyclic chain ends
    with the greatest priority among the cursor and the chain up to it,
    and a chain that stops early stops at a thread that waits for no
    lock. *)
Lemma donate_loop_chain (n : nat) :
  forall (curr : Z) (s s' : kstate),
    donate_loop n curr s = Ret tt s' ->
    (forall t, last (curr :: donation_chain n s curr) = Some t ->
       (length (donation_chain n s curr) < n)%nat ->
       exists th, threads s !! t = Some th /\ wait_on_lock th = None) /\
    (NoDup (curr :: donation_chain n s curr) ->
     forall (i : nat) (h : Z),
       donation_chain n s curr !! i = Some h ->
       priority_of s' h =
       max_priority s (priority_of s curr)
         (take (S i) (donation_chain n s curr))).
Proof.
  induction n as [|n IH]; intros curr s s' Hrun.
  { split; [cbn; lia | by intros _ i h]. }
  cbn [donate_loop] in Hrun. cbn [donation_chain]. unfold lock_holder.
  run.
  destruct (threads s !! curr) as [c|] eqn:Hc; [|done].
  destruct (wait_on_lock c) as [l|] eqn:Hl.
  2:{ split; [|by intros _ i h].
      intros t Ht _. cbn in Ht. injection Ht as <-. by exists c. }
  destruct (locks s !! l) as [lk|] eqn:Hlk; [|done].
  destruct (holder lk) as [h0|] eqn:Hh0; [|done].
  destruct (threads s !! h0) as [ht|] eqn:Hht; [|done].
  (* the state the walk goes on from *)
  assert (Hs1 : exists s1,
    donate_loop n h0 s1 = Ret tt s' /\
    donation_chain n s1 h0 = donation_chain n s h0 /\
    threads s1 !! h0
    = Some (set_priority (Z.max (priority ht) (priority c)) ht) /\
    (forall x, x <> h0 -> threads s1 !! x = threads s !! x)).
  { case_bool_decide as Hlt; run; rewrite ?Hht in Hrun.
    - eexists. split; [exact Hrun|].
      split; [by apply donation_chain_store_priority|].
      split; [cbn; rewrite lookup_insert_eq; f_equal; f_equal; lia|].
      intros x Hx. cbn. by rewrite lookup_insert_ne.
    - exists s. rewrite Hht, Z.max_l, set_priority_same by lia. done. }
  destruct Hs1 as (s1 & Hrun1 & Hchain & Hp0 & Hoth). clear Hrun.
  destruct (IH h0 s1 s' Hrun1) as [Hend Hprio]. rewrite Hchain in Hend, Hprio.
  split.
  - intros t Ht Hlen. cbn [length] in Hlen.
    rewrite last_cons_cons in Ht.
    destruct (Hend t Ht ltac:(lia)) as (th & Hth & Hw).
    destruct (decide (t = h0)) as [->|Hne].
    + exists ht. split; [done|].
      rewrite Hp0 in Hth. injection Hth as <-. done.
    + exists th. rewrite <- Hoth by done. done.
  - intros Hnd i h Hi.
    apply NoDup_cons in Hnd as [Hcurr Hnd].
    pose proof Hnd as Hnd'. apply NoDup_cons in Hnd' as [Hnin _].
    assert (Hpc : priority_of s curr = priority c)
      by (unfold priority_of; by rewrite Hc).
    assert (Hph : priority_of s h0 = priority ht)
      by (unfold priority_of; by rewrite Hht).
    destruct i as [|i]; cbn in Hi.
    + injection Hi as <-. cbn.
      destruct (donate_loop_frame n h0 s1 h0 _ Hp0)
        as (th' & Hth' & _ & _ & Hoff).
      rewrite Hrun1 in Hth'. cbn in Hth'.
      rewrite Hchain in Hoff. specialize (Hoff Hnin). subst th'.
      unfold priority_of at 1. rewrite Hth', Hpc, Hph, take_0. cbn. lia.
    + rewrite (Hprio Hnd i h Hi).
      rewrite (max_priority_ext s1 s).
      2:{ intros x Hx. unfold priority_of. rewrite Hoth; [done|].
          intros ->. apply Hnin. eapply subseteq_take, Hx. }
      unfold priority_of at 1. rewrite Hp0. cbn [priority set_priority].
      rewrite max_priority_base.
      change (take (S (S i)) (h0 :: donation_chain n s h0))
        with (h0 :: take (S i) (donation_chain n s h0)).
      rewrite Hpc. unfold max_priority. cbn [foldr]. by rewrite Hph.
Qed.

Lemma donation_chain_length (n : nat) (s : kstate) (t : Z) :
  (length (donation_chain n s t) <= n)%nat.
Proof.
  revert t. induction n as [|n IH]; intros t; cbn; [lia|].
  destruct (lock_holder s t); cbn; [|lia]. specialize (IH z). lia.
Qed.

Lemma max_priority_eq (s : kstate) (base : Z) (l : list Z) (m : Z) :
  base <= m ->
  (forall x, x ∈ l -> priority_of s x <= m) ->
  m = base \/ (exists x, x ∈ l /\ priority_of s x = m) ->
  max_priority s base l = m.
Proof.
  unfold max_priority. intros Hb Hle Hat.
  assert (Hub : foldr (fun t acc => Z.max (priority_of s t) acc) base l <= m).
  { clear Hat. induction l as [|x l IH]; cbn; [done|].
    apply Z.max_lub; [apply Hle; left|]. apply IH. intros y Hy. apply Hle.
    by right. }
  assert (Hlb : m <= foldr (fun t acc => Z.max (priority_of s t) acc) base l).
  { clear Hub Hle. destruct Hat as [->|(x & Hx & <-)].
    - clear Hb. induction l as [|y l IH]; cbn; lia.
    - clear Hb. induction l as [|y l IH]; [by apply elem_of_nil in Hx|].
      cbn. apply elem_of_cons in Hx as [->|Hx]; [lia|].
      specialize (IH Hx). lia. }
  lia.
Qed.

Lemma chain_live_store_priority (n : nat) (s : kstate) (h : Z)
    (ht : thread) (p t : Z) :
  threads s !! h = Some ht ->
  chain_live n s t ->
  chain_live n (with_threads (<[h := set_priority p ht]> (threads s)) s) t.
Proof.
  intros Hh. revert t. induction n as [|n IH]; intros t; [done|].
  cbn [chain_live threads with_threads locks].
  assert (Hlive : forall x, is_Some (threads s !! x) ->
            is_Some (<[h := set_priority p ht]> (threads s) !! x)).
  { intros x Hx. destruct (decide (x = h)) as [->|Hne].
    - rewrite lookup_insert_eq. by eexists.
    - by rewrite lookup_insert_ne. }
  destruct (decide (t = h)) as [->|Hne].
  - rewrite lookup_insert_eq, Hh. cbn.
    destruct (wait_on_lock ht); [|done].
    intros (lk & h' & H1 & H2 & H3 & H4). exists lk, h'.
    repeat split; [done..|by apply Hlive|by apply IH].
  - rewrite lookup_insert_ne by done.
    destruct (threads s !! t) as [th|]; [|done].
    destruct (wait_on_lock th); [|done].
    intros (lk & h' & H1 & H2 & H3 & H4). exists lk, h'.
    repeat split; [done..|by apply Hlive|by apply IH].
Qed.

(** On live objects the walk returns. *)
Lemma donate_loop_returns (n : nat) :
  forall (curr : Z) (s : kstate),
    chain_live n s curr -> exists s', donate_loop n curr s = Ret tt s'.
Proof.
  induction n as [|n IH]; intros curr s Hlive; [by exists s|].
  cbn [donate_loop chain_live] in *.
  destruct (threads s !! curr) as [c|] eqn:Hc; [|done].
  rewrite (bind_Ret _ _ _ _ _ (load_Some s curr c Hc)).
  destruct (wait_on_lock c) as [l|]; [|by exists s].
  destruct Hlive as (lk & h & Hlk & Hh & [ht Hht] & Hlive).
  unfold bind at 1. rewrite Hlk, Hh.
  rewrite (bind_Ret _ _ _ _ _ (load_Some s h ht Hht)).
  case_bool_decide.
  - rewrite (bind_Ret _ _ _ _ _ (store_Some s h ht _ Hht)).
    apply IH. by apply chain_live_store_priority.
  - unfold ret at 1. unfold bind at 1. by apply IH.
Qed.

Lemma max_priority_snoc (s : kstate) (base : Z) (l : list Z) (t : Z) :
  max_priority s base (l ++ [t])
  = Z.max (priority_of s t) (max_priority s base l).
Proof.
  rewrite <- max_priority_base. unfold max_priority.
  by rewrite foldr_app.
Qed.

(** C10.  One call of [donate_priority], however it ends, lowers no
    thread's priority: every thread keeps all its members but the
    priority, which does not go down, and a thread that is not on the
    donation chain of the running thread is left as it was.  On an
    acyclic chain of live objects the thread [t] that comes after [w] on
    the chain is handed the priority [P] that [w] has been left with,
    the greatest among the running thread and the chain up to [w]: [t]
    is modified exactly when its priority is strictly lower than [P],
    and its priority is [P] then. *)
Theorem donate_priority_monotone (s : kstate) (t : Z) (th : thread) :
  threads s !! t = Some th ->
  exists th',
    threads (final_state (donate_priority s)) !! t = Some th' /\
    th' = set_priority (priority th') th /\
    priority th <= priority th' /\
    (t ∉ donation_chain DONATE_MAX_DEPTH s (current s) -> th' = th) /\
    (forall (c : thread) (i : nat) (w : Z),
       threads s !! current s = Some c ->
       magic c = THREAD_MAGIC -> status c = THREAD_RUNNING ->
       chain_live DONATE_MAX_DEPTH s (current s) ->
       NoDup (current s :: donation_chain DONATE_MAX_DEPTH s (current s)) ->
       (current s :: donation_chain DONATE_MAX_DEPTH s (current s)) !! i
       = Some w ->
       (current s :: donation_chain DONATE_MAX_DEPTH s (current s)) !! S i
       = Some t ->
       let P := max_priority s (priority c)
                  (take i (donation_chain DONATE_MAX_DEPTH s (current s))) in
       priority_of (final_state (donate_priority s)) w = P /\
       (th' <> th <-> priority th < P) /\
       (th' <> th -> priority th' = P)).
Proof.
  intros Ht.
  assert (Hframe : exists th',
    threads (final_state (donate_priority s)) !! t = Some th' /\
    th' = set_priority (priority th') th /\
    priority th <= priority th' /\
    (t ∉ donation_chain DONATE_MAX_DEPTH s (current s) -> th' = th)).
  { unfold donate_priority. unfold bind at 1.
    destruct (thread_current_inv s) as [(c & -> & _)| ->].
    - apply donate_loop_frame. done.
    - exists th. cbn. rewrite set_priority_same. repeat split; (done || lia). }
  destruct Hframe as (th' & Hth' & Heq & Hle & Hoff).
  exists th'. split; [done|]. split; [done|]. split; [done|]. split; [done|].
  intros c i w Hc Hm Hst Hlive Hnd Hw Hi P.
  assert (Hrun : exists s', donate_priority s = Ret tt s' /\
                            donate_loop DONATE_MAX_DEPTH (current s) s = Ret tt s').
  { destruct (donate_loop_returns _ _ _ Hlive) as [s' Hrun]. exists s'.
    split; [|done]. unfold donate_priority.
    by rewrite (bind_Ret _ _ _ _ _ (thread_current_ok s c Hc Hm Hst)). }
  destruct Hrun as (s' & Hdp & Hrun). rewrite Hdp in Hth' |- *.
  cbn [final_state] in Hth' |- *.
  destruct (donate_loop_chain _ _ _ _ Hrun) as [_ Hprio].
  specialize (Hprio Hnd).
  assert (Hpc : priority_of s (current s) = priority c)
    by (unfold priority_of; by rewrite Hc).
  rewrite Hpc in Hprio.
  assert (HPw : priority_of s' w = P).
  { destruct i as [|i].
    - change (Some (current s) = Some w) in Hw.
      injection Hw as <-. subst P. rewrite take_0.
      destruct (donate_loop_frame DONATE_MAX_DEPTH (current s) s (current s) c Hc)
        as (c' & Hc' & _ & _ & Hcoff).
      rewrite Hrun in Hc'. cbn [final_state] in Hc'.
      apply NoDup_cons in Hnd as [Hnin _]. rewrite (Hcoff Hnin) in Hc'.
      unfold priority_of. by rewrite Hc'.
    - change (donation_chain DONATE_MAX_DEPTH s (current s) !! i = Some w)
        in Hw.
      by rewrite (Hprio i w Hw). }
  assert (HPt : priority th' = Z.max (priority th) P).
  { change (donation_chain DONATE_MAX_DEPTH s (current s) !! i = Some t)
      in Hi.
    pose proof (Hprio i t Hi) as Hpt.
    rewrite (take_S_r _ _ _ Hi), max_priority_snoc in Hpt.
    unfold priority_of at 1 2 in Hpt. by rewrite Hth', Ht in Hpt. }
  split; [done|]. split; [split|].
  - intros Hne.
    destruct (decide (priority th < P)) as [|Hge]; [done|].
    exfalso. apply Hne. rewrite Heq, HPt, Z.max_l by lia.
    apply set_priority_same.
  - intros Hlt Heq'. rewrite Heq' in HPt. lia.
  - intros Hne.
    destruct (decide (priority th < P)) as [|Hge]; [lia|].
    exfalso. apply Hne. rewrite Heq, HPt, Z.max_l by lia.
    apply set_priority_same.
Qed.

Lemma donate_priority_monotone_witness :
  exists th',
    threads (final_state (donate_priority donation_state)) !! 300 = Some th' /\
    priority th' = 30.
Proof.
  destruct (donate_priority_monotone donation_state 300
              (mkThread 4 THREAD_BLOCKED "h2" 20 50 20 None [200] [] None 2 1
                 None THREAD_MAGIC) eq_refl)
    as (th' & Hth' & _ & _ & _ & Hprop).
  exists th'. split; [exact Hth'|].
  destruct (Hprop
              (mkThread 2 THREAD_RUNNING "tip" 10 0 10 (Some 1) [] [] None 2 1
                 None THREAD_MAGIC) 1%nat 200 eq_refl eq_refl eq_refl)
    as (_ & Hiff & Hset).
  - cbn. eexists _, _. split; [reflexivity|]. split; [reflexivity|].
    split; [by eexists|]. cbn.
    eexists _, _. split; [reflexivity|]. split; [reflexivity|].
    split; [by eexists|]. cbn. exact I.
  - apply (bool_decide_unpack _). vm_compute. exact I.
  - reflexivity.
  - reflexivity.
  - rewrite Hset; [reflexivity|]. apply Hiff. vm_compute. reflexivity.
Defined.

(** C5 (amended).  Run by a thread whose donation chain meets live
    objects only, [donate_priority] returns, having walked the chain
    [current -> lock.holder -> holder.wait_on_lock.holder -> ...] for at
    most [DONATE_MAX_DEPTH = 8] links, stopping earlier only at a thread
    that waits for no lock.  On an acyclic chain the [i]-th thread ends
    with the greatest priority among the running thread and the chain up
    to it (each step hands on the priority of the thread before it, as
    already lifted); that is the running thread's priority, or the
    thread's own when higher, whenever no thread before it on the chain
    exceeds both. *)
Theorem donate_priority_walk (s : kstate) (c : thread) :
  threads s !! current s = Some c ->
  magic c = THREAD_MAGIC ->
  status c = THREAD_RUNNING ->
  chain_live DONATE_MAX_DEPTH s (current s) ->
  exists s',
    donate_priority s = Ret tt s' /\
    (length (donation_chain DONATE_MAX_DEPTH s (current s))
     <= DONATE_MAX_DEPTH)%nat /\
    ((length (donation_chain DONATE_MAX_DEPTH s (current s))
      < DONATE_MAX_DEPTH)%nat ->
     forall t,
       last (current s :: donation_chain DONATE_MAX_DEPTH s (current s))
       = Some t ->
       exists th, threads s !! t = Some th /\ wait_on_lock th = None) /\
    (NoDup (current s :: donation_chain DONATE_MAX_DEPTH s (current s)) ->
     forall (i : nat) (h : Z),
       donation_chain DONATE_MAX_DEPTH s (current s) !! i = Some h ->
       priority_of s' h =
       max_priority s (priority_of s (current s))
         (take (S i) (donation_chain DONATE_MAX_DEPTH s (current s))) /\
       ((forall x,
           x ∈ take i (donation_chain DONATE_MAX_DEPTH s (current s)) ->
           priority_of s x
           <= Z.max (priority_of s h) (priority_of s (current s))) ->
        priority_of s' h
        = Z.max (priority_of s h) (priority_of s (current s)))).
Proof.
  intros Hc Hm Hst Hlive. unfold donate_priority.
  rewrite (bind_Ret _ _ _ _ _ (thread_current_ok s c Hc Hm Hst)).
  destruct (donate_loop_returns _ _ _ Hlive) as [s' Hrun].
  exists s'. split; [done|]. split; [apply donation_chain_length|].
  destruct (donate_loop_chain _ _ _ _ Hrun) as [Hend Hprio].
  split; [intros Hlen t Ht; by apply Hend|].
  intros Hnd i h Hi. specialize (Hprio Hnd i h Hi).
  split; [done|]. intros Hle. rewrite Hprio.
  rewrite (take_S_r _ _ _ Hi). apply max_priority_eq.
  - lia.
  - intros x Hx. apply elem_of_app in Hx as [Hx|Hx]; [by apply Hle|].
    apply list_elem_of_singleton in Hx as ->. lia.
  - destruct (Z.max_spec (priority_of s h) (priority_of s (current s)))
      as [[_ ->]|[_ ->]]; [by left|].
    right. exists h. split; [|done]. apply elem_of_app. right. left.
Qed.

Lemma donate_priority_walk_witness :
  exists s',
    donate_priority donation_state = Ret tt s' /\
    priority_of s' 300 = max_priority donation_state 10 [200; 300].
Proof.
  destruct (donate_priority_walk donation_state
              (mkThread 2 THREAD_RUNNING "tip" 10 0 10 (Some 1) [] [] None 2 1
                 None THREAD_MAGIC) eq_refl eq_refl eq_refl)
    as (s' & Hrun & _ & _ & Hprio).
  { cbn. eexists _, _. split; [reflexivity|]. split; [reflexivity|].
    split; [by eexists|]. cbn.
    eexists _, _. split; [reflexivity|]. split; [reflexivity|].
    split; [by eexists|]. cbn. exact I. }
  exists s'. split; [exact Hrun|].
  refine (proj1 (Hprio _ 1%nat 300 _)).
  - apply (bool_decide_unpack _). vm_compute. exact I.
  - reflexivity.
Defined.

(** C5 as stated fails: on the chain [100 -> 200 -> 300] with priorities
    10, 30 and 20 the walk lifts thread [300] to 30, which is the
    priority of the thread before it and not that of the acquiring
    thread. *)
Lemma donate_priority_not_tip_priority :
  exists s',
    donate_priority donation_state = Ret tt s' /\
    current donation_state = 100 /\
    donation_chain DONATE_MAX_DEPTH donation_state 100 = [200; 300] /\
    priority_of donation_state 100 = 10 /\
    priority_of donation_state 300 = 20 /\
    priority_of s' 300 = 30 /\
    priority_of s' 300
    <> Z.max (priority_of donation_state 300) (priority_of donation_state 100).
Proof.
  eexists. split; [vm_compute; reflexivity|].
  repeat split; try reflexivity. vm_compute. discriminate.
Qed.

(** C6.  [refresh_priority], run by a thread whose donors are live
    threads, returns; afterwards the thread has the donors it had (in
    some order), its base priority is what it was, and its priority is
    the greatest of its base priority and its donors' priorities, hence
    at least its base priority. *)
Theorem refresh_priority_max (s : kstate) (c : thread) :
  threads s !! current s = Some c ->
  magic c = THREAD_MAGIC ->
  status c = THREAD_RUNNING ->
  (forall d, d ∈ donations c -> is_Some (threads s !! d)) ->
  exists s' c',
    refresh_priority s = Ret tt s' /\
    threads s' !! current s = Some c' /\
    init_priority c' = init_priority c /\
    donations c' ≡ₚ donations c /\
    priority c' = max_priority s' (init_priority c') (donations c') /\
    init_priority c' <= priority c'.
Proof.
  intros Hc Hm Hst Hdon.
  unfold refresh_priority.
  rewrite (bind_Ret _ _ _ _ _ (thread_current_ok s c Hc Hm Hst)).
  rewrite (bind_Ret _ _ _ _ _ (store_Some s _ c _ Hc)).
  set (c1 := set_priority (init_priority c) c).
  set (s1 := with_threads (<[current s := c1]> (threads s)) s).
  assert (Hc1 : threads s1 !! current s = Some c1)
    by (subst s1; cbn; by rewrite lookup_insert_eq).
  rewrite (bind_Ret _ _ _ _ _ (load_Some s1 _ c1 Hc1)).
  change (donations c1) with (donations c).
  destruct (donations c) as [|d ds] eqn:Hds.
  { exists s1, c1. rewrite Hc1. subst c1. cbn. rewrite Hds.
    repeat split; (done || lia). }
  assert (Hne : donations c <> []) by (by rewrite Hds).
  rewrite <- Hds in *. clear d ds Hds.
  unfold gets at 1. unfold bind at 1.
  set (cmp := thread_compare_donate_priority s1).
  assert (Hcmp : forall a b,
            cmp a b = bool_decide (priority_of s1 a > priority_of s1 b)) by done.
  pose proof (list_sort_perm cmp (donations c)) as Hperm.
  destruct (list_sort cmp (donations c)) as [|front rest] eqn:Hsort.
  { exfalso. apply Hne. symmetry. by apply Permutation_nil_l. }
  destruct (list_sort_front _ _ Hcmp _ _ _ Hsort) as [Hfin Hfmax].
  rewrite (bind_Ret _ _ _ _ _ (store_Some s1 _ c1 _ Hc1)).
  set (c2 := set_donations (front :: rest) c1).
  subst s1. cbn [threads with_threads]. rewrite insert_insert_eq.
  set (s1 := with_threads (<[current s := c1]> (threads s)) s) in *.
  set (s2 := with_threads (<[current s := c2]> (threads s))
               (with_threads (<[current s := c1]> (threads s)) s)).
  assert (Hc2 : threads s2 !! current s = Some c2)
    by (subst s2; cbn; by rewrite lookup_insert_eq).
  assert (Hp1 : forall x, priority_of s1 x =
            if decide (x = current s) then init_priority c
            else priority_of s x) by (intros x; apply priority_of_insert).
  assert (Hp2 : forall x, priority_of s2 x = priority_of s1 x).
  { intros x. unfold priority_of. subst s1 s2. cbn.
    destruct (decide (x = current s)) as [->|Hx].
    - by rewrite !lookup_insert_eq.
    - by rewrite !lookup_insert_ne. }
  assert (Hf : exists f, threads s2 !! front = Some f /\
                         priority f = priority_of s1 front).
  { destruct (decide (front = current s)) as [->|Hx].
    - exists c2. split; [done|]. by rewrite Hp1, decide_True.
    - destruct (Hdon front Hfin) as [f Hf]. exists f.
      subst s2. cbn. rewrite lookup_insert_ne by done. split; [done|].
      rewrite Hp1, decide_False by done. unfold priority_of. by rewrite Hf. }
  destruct Hf as (f & Hf & Hpf).
  rewrite (bind_Ret _ _ _ _ _ (load_Some s2 _ f Hf)).
  rewrite (bind_Ret _ _ _ _ _ (load_Some s2 _ c2 Hc2)).
  change (priority c2) with (init_priority c).
  case_bool_decide as Hgt.
  - rewrite (store_Some s2 _ c2 _ Hc2).
    eexists _, _. split; [done|]. cbn [threads with_threads].
    rewrite lookup_insert_eq. repeat split; [done| |cbn; lia].
    cbn [priority set_priority init_priority donations set_donations c2 c1].
    symmetry. apply max_priority_eq; [lia| |].
    + intros x Hx. rewrite Hperm in Hx. specialize (Hfmax x Hx).
      rewrite priority_of_insert, Hp2. case_decide; [cbn; lia|lia].
    + right. exists front. split; [left|].
      rewrite priority_of_insert, Hp2. case_decide as Hx; [|done].
      subst front. rewrite Hp1, decide_True in Hpf by done. cbn. lia.
  - exists s2, c2. rewrite Hc2. unfold ret.
    repeat split; [done| |cbn; lia].
    cbn [priority set_priority init_priority donations set_donations c2 c1].
    symmetry. apply max_priority_eq; [lia| |by left].
    intros x Hx. rewrite Hperm in Hx. specialize (Hfmax x Hx).
    rewrite Hp2. lia.
Qed.

Lemma refresh_priority_max_witness :
  exists s' c',
    refresh_priority refresh_state = Ret tt s' /\
    threads s' !! 100 = Some c' /\
    priority c' = 33.
Proof.
  assert (Hd : forall d, d ∈ [200; 300] -> is_Some (threads refresh_state !! d)).
  { intros d Hd. apply elem_of_cons in Hd as [->|Hd]; [by eexists|].
    apply elem_of_cons in Hd as [->|Hd]; [by eexists|].
    by apply elem_of_nil in Hd. }
  destruct (refresh_priority_max refresh_state
              (mkThread 2 THREAD_RUNNING "holder" 35 0 20 None [200; 300] []
                 None 2 1 None THREAD_MAGIC) eq_refl eq_refl eq_refl Hd)
    as (s' & c' & Hrun & Hc' & _).
  exists s', c'. split; [exact Hrun|]. split; [exact Hc'|].
  vm_compute in Hrun. injection Hrun as <-.
  vm_compute in Hc'. injection Hc' as <-. reflexivity.
Defined.

(** [thread_unblock] on a blocked thread: the thread is inserted into
    the ready list in priority order and becomes ready; nothing else
    changes, and no other thread is scheduled. *)
Lemma thread_unblock_spec (s : kstate) (t : Z) (th : thread) :
  threads s !! t = Some th ->
  magic th = THREAD_MAGIC ->
  status th = THREAD_BLOCKED ->
  thread_unblock t s
  = Ret tt
      (with_threads (<[t := set_status THREAD_READY th]> (threads s))
         (with_ready_list
            (list_insert_ordered (thread_compare_priority s) t (ready_list s))
            s)).
Proof.
  intros Ht Hm Hst. unfold thread_unblock, ready_insert. run.
  rewrite Ht, (bool_decide_eq_true_2 _ Hm). cbn. rewrite Ht.
  rewrite (bool_decide_eq_true_2 _ Hst). cbn. rewrite Ht.
  destruct s. reflexivity.
Qed.

Lemma wakeup_of_insert_status (s s0 : kstate) (t x : Z) (th : thread)
    (v : thread_status) :
  threads s !! t = Some th ->
  threads s0 = <[t := set_status v th]> (threads s) ->
  wakeup_of s0 x = wakeup_of s x.
Proof.
  intros Ht Hs0. unfold wakeup_of. rewrite Hs0.
  destruct (decide (x = t)) as [->|Hx].
  - by rewrite lookup_insert_eq, Ht.
  - by rewrite lookup_insert_ne.
Qed.

Lemma filter_ext_in {A} (P Q : A -> Prop) `{!forall x, Decision (P x)}
    `{!forall x, Decision (Q x)} (l : list A) :
  (forall x, x ∈ l -> P x <-> Q x) -> filter P l = filter Q l.
Proof.
  induction l as [|x l IH]; intros Hl; [done|].
  rewrite !filter_cons. rewrite IH by (intros y Hy; apply Hl; by right).
  apply decide_ext, Hl. left.
Qed.

Lemma filter_all {A} (P : A -> Prop) `{!forall x, Decision (P x)} (l : list A) :
  (forall x, x ∈ l -> P x) -> filter P l = l.
Proof.
  induction l as [|x l IH]; intros Hl; [done|].
  rewrite filter_cons_True by (apply Hl; left).
  rewrite IH; [done|]. intros y Hy. apply Hl. by right.
Qed.

Lemma min_from_ext (s1 s2 : kstate) (base : Z) (l : list Z) :
  (forall x, wakeup_of s1 x = wakeup_of s2 x) ->
  min_from s1 base l = min_from s2 base l.
Proof.
  intros H. unfold min_from. induction l as [|x l IH]; cbn; [done|].
  by rewrite H, IH.
Qed.

Lemma min_from_base (s : kstate) (a b : Z) (l : list Z) :
  min_from s (Z.min a b) l = Z.min b (min_from s a l).
Proof.
  unfold min_from. induction l as [|x l IH]; cbn; [lia|]. rewrite IH. lia.
Qed.

(** The sweep loop over the sleepers [l] still to visit. *)
Lemma awake_loop_spec (now : Z) (l : list Z) :
  forall s : kstate,
    NoDup l ->
    (forall t, t ∈ l ->
       exists th, threads s !! t = Some th /\ magic th = THREAD_MAGIC /\
                  status th = THREAD_BLOCKED) ->
    exists s',
      awake_loop now l s = Ret tt s' /\
      sleep_list s'
      = filter (fun x => ~ (x ∈ l /\ wakeup_of s x <= now)) (sleep_list s) /\
      next_tick_to_awake s'
      = min_from s (next_tick_to_awake s)
          (filter (fun x => now < wakeup_of s x) l) /\
      (forall x,
         threads s' !! x
         = if decide (x ∈ l /\ wakeup_of s x <= now)
           then set_status THREAD_READY <$> threads s !! x
           else threads s !! x) /\
      ready_list s'
      ≡ₚ filter (fun x => wakeup_of s x <= now) l ++ ready_list s.
Proof.
  induction l as [|t l IH]; intros s Hnd Hall.
  { exists s. cbn. split; [done|]. split; [|split; [done|split; [|done]]].
    - symmetry. apply filter_all. intros x _ [Hx _].
      by apply elem_of_nil in Hx.
    - intros x. case_decide as H; [|done]. destruct H as [H _].
      by apply elem_of_nil in H. }
  apply NoDup_cons in Hnd as [Htl Hnd].
  destruct (Hall t ltac:(left)) as (th & Ht & Hm & Hst).
  assert (Hwt : wakeup_of s t = wakeup_tick th)
    by (unfold wakeup_of; by rewrite Ht).
  cbn [awake_loop]. rewrite (bind_Ret _ _ _ _ _ (load_Some s t th Ht)).
  case_bool_decide as Hwake.
  - (* [t] is due: unlink it and make it ready *)
    unfold modify at 1. unfold bind at 1.
    set (s1 := with_sleep_list (list_remove t (sleep_list s)) s).
    rewrite (bind_Ret _ _ _ _ _ (thread_unblock_spec s1 t th Ht Hm Hst)).
    set (s2 := with_threads _ _).
    assert (Hthr2 : threads s2 = <[t := set_status THREAD_READY th]> (threads s))
      by done.
    assert (Hsl2 : sleep_list s2 = list_remove t (sleep_list s)) by done.
    assert (Hnx2 : next_tick_to_awake s2 = next_tick_to_awake s) by done.
    assert (Hrl2 : ready_list s2 ≡ₚ t :: ready_list s)
      by (subst s2; cbn; apply list_insert_ordered_perm).
    clearbody s2. clear s1.
    assert (Hw2 : forall x, wakeup_of s2 x = wakeup_of s x)
      by (intros x; by apply (wakeup_of_insert_status s s2 t x th THREAD_READY)).
    destruct (IH s2 Hnd) as (s' & Hrun & Hsl & Hnx & Hth & Hrl).
    { intros t' Ht'. destruct (Hall t' ltac:(by right)) as (th' & Hl' & H').
      exists th'. split; [|done]. rewrite Hthr2.
      rewrite lookup_insert_ne; [done|]. by intros ->. }
    exists s'. split; [done|]. repeat split.
    + rewrite Hsl, Hsl2. unfold list_remove.
      rewrite list_filter_filter. apply list_filter_iff. intros x.
      rewrite Hw2, elem_of_cons. split.
      * intros [H1 H2] [[->|H3] H4]; [done|]. by apply H1.
      * intros H. split; [intros [H1 H2]; apply H; by split; [right|]|].
        intros ->. apply H. split; [by left|lia].
    + rewrite Hnx, Hnx2. rewrite filter_cons_False by lia.
      rewrite (min_from_ext s2 s) by done.
      f_equal. apply list_filter_iff. intros x. by rewrite Hw2.
    + intros x. rewrite Hth, Hw2, Hthr2.
      destruct (decide (x = t)) as [->|Hx].
      * rewrite lookup_insert_eq, Ht. rewrite decide_False by (by intros [? _]).
        rewrite decide_True; [done|]. split; [by left|lia].
      * rewrite lookup_insert_ne by done. apply decide_ext.
        rewrite elem_of_cons. split; [intros [? ?]; by split; [right|]|].
        intros [[->|?] ?]; done.
    + rewrite Hrl, Hrl2. rewrite filter_cons_True by lia. cbn.
      rewrite <- Permutation_middle. constructor.
      apply Permutation_app; [|done].
      erewrite list_filter_iff; [done|]. intros x. by rewrite Hw2.
  - (* [t] stays asleep *)
    unfold update_next_tick_to_awake. unfold modify at 1. unfold bind at 1.
    set (s1 := with_next_tick_to_awake _ s).
    assert (Hw1 : forall x, wakeup_of s1 x = wakeup_of s x) by done.
    destruct (IH s1 Hnd) as (s' & Hrun & Hsl & Hnx & Hth & Hrl).
    { intros t' Ht'. by apply Hall; right. }
    exists s'. split; [done|]. repeat split.
    + rewrite Hsl. subst s1. cbn. apply list_filter_iff. intros x.
      rewrite elem_of_cons. split.
      * intros H [[->|H3] H4]; [lia|]. by apply H.
      * intros H [H1 H2]. apply H. by split; [right|].
    + rewrite Hnx. rewrite filter_cons_True by lia.
      subst s1. cbn [next_tick_to_awake with_next_tick_to_awake].
      replace (if bool_decide (next_tick_to_awake s > wakeup_tick th)
               then wakeup_tick th else next_tick_to_awake s)
        with (Z.min (next_tick_to_awake s) (wakeup_tick th))
        by (case_bool_decide; lia).
      rewrite min_from_base. unfold min_from at 2. cbn [foldr].
      by rewrite Hwt.
    + intros x. rewrite Hth. subst s1. cbn. apply decide_ext.
      rewrite elem_of_cons. split; [intros [? ?]; by split; [right|]|].
      intros [[->|H1] H2]; [|done]. unfold wakeup_of in H2.
      rewrite Ht in H2. lia.
    + rewrite Hrl. rewrite filter_cons_False by lia. done.
Qed.

(** C7.  The wake sweep at tick [now], over a sleep list of distinct
    blocked threads, returns.  It leaves in the sleep list exactly the
    threads whose wake-up tick is after [now], untouched; it makes ready
    and queues in the ready list exactly the others; and the next
    wake-up tick becomes the least of [INT64_MAX] and the wake-up ticks
    of the threads still asleep. *)
Theorem thread_awake_sweep (s : kstate) (now : Z) :
  NoDup (sleep_list s) ->
  (forall t, t ∈ sleep_list s ->
     exists th, threads s !! t = Some th /\ magic th = THREAD_MAGIC /\
                status th = THREAD_BLOCKED) ->
  exists s',
    thread_awake now s = Ret tt s' /\
    sleep_list s' = filter (fun t => now < wakeup_of s t) (sleep_list s) /\
    next_tick_to_awake s' = min_wakeup s' (sleep_list s') /\
    (forall t, t ∈ sleep_list s -> wakeup_of s t <= now ->
       threads s' !! t = set_status THREAD_READY <$> threads s !! t /\
       t ∈ ready_list s' /\ t ∉ sleep_list s') /\
    (forall t, ~ (t ∈ sleep_list s /\ wakeup_of s t <= now) ->
       threads s' !! t = threads s !! t) /\
    ready_list s'
    ≡ₚ filter (fun t => wakeup_of s t <= now) (sleep_list s) ++ ready_list s.
Proof.
  intros Hnd Hall. unfold thread_awake. unfold modify at 1. unfold bind at 1.
  unfold gets, bind at 1.
  set (s0 := with_next_tick_to_awake INT64_MAX s).
  destruct (awake_loop_spec now (sleep_list s0) s0 Hnd Hall)
    as (s' & Hrun & Hsl & Hnx & Hth & Hrl).
  change (sleep_list s0) with (sleep_list s) in *.
  change (ready_list s0) with (ready_list s) in *.
  change (next_tick_to_awake s0) with INT64_MAX in Hnx.
  assert (Hw0 : forall x, wakeup_of s0 x = wakeup_of s x) by done.
  assert (Hsl' : sleep_list s'
                 = filter (fun t => now < wakeup_of s t) (sleep_list s)).
  { rewrite Hsl. apply filter_ext_in. intros x Hx. rewrite Hw0. split.
    - intros H. destruct (decide (now < wakeup_of s x)); [done|].
      exfalso. apply H. split; [done|lia].
    - intros H [_ H']. lia. }
  assert (Hw' : forall x, wakeup_of s' x = wakeup_of s x).
  { intros x. unfold wakeup_of. rewrite Hth. case_decide; [|done].
    change (threads s0) with (threads s). by destruct (threads s !! x). }
  exists s'. split; [done|]. split; [done|]. split.
  { rewrite Hnx, Hsl'. unfold min_wakeup.
    change (foldr (fun t acc => Z.min (wakeup_of s' t) acc) INT64_MAX
              (filter (fun t => now < wakeup_of s t) (sleep_list s)))
      with (min_from s' INT64_MAX
              (filter (fun t => now < wakeup_of s t) (sleep_list s))).
    rewrite (min_from_ext s' s0) by (intros x; by rewrite Hw', Hw0).
    f_equal. }
  split; [|split].
  - intros t Ht Hdue. rewrite Hth, decide_True by done. split; [done|]. split.
    + rewrite Hrl. apply elem_of_app. left. apply list_elem_of_filter.
      by rewrite Hw0.
    + rewrite Hsl'. rewrite list_elem_of_filter. intros [H _]. lia.
  - intros t Hnot. rewrite Hth, decide_False; done.
  - rewrite Hrl. done.
Qed.

Lemma thread_awake_sweep_witness :
  exists s',
    thread_awake 15 sleep_state = Ret tt s' /\
    sleep_list s' = [300] /\
    next_tick_to_awake s' = 20 /\
    ready_list s' = [400; 200].
Proof.
  assert (Hall : forall t, t ∈ sleep_list sleep_state ->
            exists th, threads sleep_state !! t = Some th /\
                       magic th = THREAD_MAGIC /\ status th = THREAD_BLOCKED).
  { intros t Ht. cbn in Ht.
    apply elem_of_cons in Ht as [->|Ht]; [by eexists|].
    apply elem_of_cons in Ht as [->|Ht]; [by eexists|].
    apply elem_of_cons in Ht as [->|Ht]; [by eexists|].
    by apply elem_of_nil in Ht. }
  assert (Hnd : NoDup (sleep_list sleep_state))
    by (apply (bool_decide_unpack _); vm_compute; exact I).
  destruct (thread_awake_sweep sleep_state 15 Hnd Hall) as (s' & Hrun & _).
  exists s'. split; [exact Hrun|].
  vm_compute in Hrun. injection Hrun as <-. repeat split; reflexivity.
Defined.

(** ** Failures of the stated invariants *)

(** C4.  [next_tick_to_awake] is not the earliest pending wake-up before
    the first sweep: it is never initialised, so it is 0 and not
    [INT64_MAX] when [thread_init] is through and the sleep list is
    empty, and it is still 0 after the first [thread_sleep (10)], when
    the only sleeper wakes at tick 10. *)
Theorem next_tick_stale_before_first_sweep :
  (exists s0,
     thread_init (static_init 100) = Ret tt s0 /\
     sleep_list s0 = [] /\
     next_tick_to_awake s0 = 0 /\
     next_tick_to_awake s0 <> min_wakeup s0 (sleep_list s0)) /\
  (exists s1,
     thread_sleep 10 boot_state = Ret tt s1 /\
     sleep_list s1 = [100] /\
     wakeup_of s1 100 = 10 /\
     min_wakeup s1 (sleep_list s1) = 10 /\
     next_tick_to_awake s1 = 0).
Proof.
  split; eexists; (split; [vm_compute; reflexivity|]).
  - repeat split; try reflexivity. vm_compute. discriminate.
  - repeat split; reflexivity.
Qed.

(** The first allocation of [thread_create] is checked: when it fails
    the call returns [TID_ERROR] and the state is what it was. *)
Lemma thread_create_no_page (nm : string) (prio fn aux : Z)
    (fdt_page : option Z) (s : kstate) :
  thread_create nm prio (Some fn) aux None fdt_page s = Ret TID_ERROR s.
Proof. reflexivity. Qed.

(** When both allocations succeed the new thread is queued and the call
    returns its tid; a thread that outranks its creator runs at once. *)
Example thread_create_returns_tid :
  exists s',
    thread_create "worker" 31 (Some 5) 0 (Some 300) (Some 400) boot_state
    = Ret 3 s' /\
    ready_list s' = [300] /\ current s' = 100 /\
    status <$> threads s' !! 300 = Some THREAD_READY /\
    fdt_pages s' !! 400 = Some (<[1%nat := 11]> (<[0%nat := 10]> ∅)).
Proof.
  eexists. split; [vm_compute; reflexivity|]. repeat split; reflexivity.
Qed.

Example thread_create_preempts :
  exists s',
    thread_create "worker" 40 (Some 5) 0 (Some 300) (Some 400) boot_state
    = Ret 3 s' /\
    ready_list s' = [100] /\ current s' = 300 /\
    status <$> threads s' !! 300 = Some THREAD_RUNNING /\
    status <$> threads s' !! 100 = Some THREAD_READY.
Proof.
  eexists. split; [vm_compute; reflexivity|]. repeat split; reflexivity.
Qed.

(** C2.  The second allocation of [thread_create] is not checked: when
    the page for the thread is granted (at [300]) and the pages for the
    descriptor table are refused, the call does not return; it stores
    through the [NULL] table, and by then the thread is initialised, has
    taken a tid and is registered as a child of its creator. *)
Theorem thread_create_fdt_failure_not_handled :
  exists s',
    thread_create "worker" 31 (Some 5) 0 (Some 300) None boot_state = Fault s' /\
    children <$> threads s' !! 100 = Some [200; 300] /\
    children <$> threads boot_state !! 100 = Some [200] /\
    threads boot_state !! 300 = None /\
    (tid <$> threads s' !! 300 = Some 3 /\
     status <$> threads s' !! 300 = Some THREAD_BLOCKED /\
     fdt <$> threads s' !! 300 = Some None) /\
    next_tid boot_state = 3 /\ next_tid s' = 4 /\
    ready_list s' = [].
Proof.
  eexists. split; [vm_compute; reflexivity|]. repeat split; reflexivity.
Qed.

(** X1.  [thread_unblock] keeps a sorted ready list sorted, the
    unblocked thread standing behind the threads of at least its
    priority and before those of less. *)
Lemma thread_unblock_sorted (s : kstate) (t : Z) (th : thread) :
  threads s !! t = Some th ->
  magic th = THREAD_MAGIC ->
  status th = THREAD_BLOCKED ->
  sorted_by (thread_compare_priority s) (ready_list s) ->
  exists s' l1 l2,
    thread_unblock t s = Ret tt s' /\
    current s' = current s /\
    threads s' = <[t := set_status THREAD_READY th]> (threads s) /\
    ready_list s = l1 ++ l2 /\
    ready_list s' = l1 ++ t :: l2 /\
    (forall e, e ∈ l1 -> priority_of s' t <= priority_of s' e) /\
    (forall e, e ∈ l2 -> priority_of s' e < priority_of s' t) /\
    sorted_by (thread_compare_priority s') (ready_list s').
Proof.
  intros Ht Hm Hst Hsorted.
  assert (Hkey : forall a b, thread_compare_priority s a b
                             = bool_decide (priority_of s a > priority_of s b))
    by done.
  destruct (list_insert_ordered_fifo _ _ Hkey t _ Hsorted)
    as (l1 & l2 & Hl & Hins & H1 & H2).
  pose proof (list_insert_ordered_sorted _ _ Hkey t _ Hsorted) as Hs'.
  eexists _, l1, l2. split; [by apply thread_unblock_spec|].
  cbn [current threads ready_list with_threads with_ready_list].
  set (s' := with_threads _ _).
  assert (Hp : forall x, priority_of s' x = priority_of s x).
  { intros x. unfold priority_of. subst s'. cbn.
    destruct (decide (x = t)) as [->|Hx].
    - by rewrite lookup_insert_eq, Ht.
    - by rewrite lookup_insert_ne. }
  repeat split; try done.
  - intros e He. rewrite !Hp. by apply H1.
  - intros e He. rewrite !Hp. by apply H2.
  - assert (Hkey' : forall a b, thread_compare_priority s' a b
                      = bool_decide (priority_of s a > priority_of s b)).
    { intros a b. unfold thread_compare_priority. by rewrite !Hp. }
    apply (sorted_by_key _ _ Hkey'). by apply (sorted_by_key _ _ Hkey).
Qed.

(** C8.  The ready list does not stay sorted: [donate_priority] lifts
    the priority of a lock holder that is queued in the ready list and
    leaves it where it is.  With [200] (priority 30) queued before the
    holder [300] (priority 20) and a donor of priority 40, the list
    [200; 300] is sorted before the call and carries the priorities 30,
    40 after it. *)
Theorem donate_priority_unsorts_ready_list :
  sorted_by (thread_compare_priority inversion_state)
    (ready_list inversion_state) /\
  exists s',
    donate_priority inversion_state = Ret tt s' /\
    ready_list s' = [200; 300] /\
    priority_of s' 200 = 30 /\
    priority_of s' 300 = 40 /\
    ~ sorted_by (thread_compare_priority s') (ready_list s').
Proof.
  split.
  { cbn. repeat split; repeat constructor. }
  eexists. split; [vm_compute; reflexivity|].
  repeat split; try reflexivity.
  cbn. intros [H _]. apply Forall_cons_1 in H as [H _].
  vm_compute in H. discriminate.
Qed.

End ThreadSpec.

(** * Properties of file-backed pages *)

Module VmFileSpec.
Import VmFile.

Lemma wrap64_small (x : Z) : 0 <= x < 2 ^ 64 -> wrap64 x = x.
Proof. intros H. unfold wrap64. by apply Z.mod_small. Qed.

Lemma vm_alloc_keeps (type : vm_type) (upage : Z) (w : bool)
    (init : vm_initializer) (aux : mmap_info) (s : vm_state) (a : Z) (pg : page) :
  spt s !! a = Some pg ->
  spt (vm_alloc_page_with_initializer type upage w init aux s).2 !! a = Some pg.
Proof.
  intros Ha. unfold vm_alloc_page_with_initializer.
  case_bool_decide; [|done].
  destruct (spt s !! upage) eqn:Hu; [done|]. cbn.
  rewrite lookup_insert_ne; [done|]. intros ->. congruence.
Qed.

Lemma vm_alloc_others (type : vm_type) (upage : Z) (w : bool)
    (init : vm_initializer) (aux : mmap_info) (s : vm_state) (a : Z) :
  a <> upage ->
  spt (vm_alloc_page_with_initializer type upage w init aux s).2 !! a
  = spt s !! a.
Proof.
  intros Ha. unfold vm_alloc_page_with_initializer.
  case_bool_decide; [|done].
  destruct (spt s !! upage) eqn:Hu; [done|]. cbn.
  by rewrite lookup_insert_ne.
Qed.

Lemma vm_alloc_fresh (type : vm_type) (upage : Z) (w : bool)
    (init : vm_initializer) (aux : mmap_info) (s : vm_state) :
  upage mod PGSIZE = 0 ->
  spt s !! upage = None ->
  spt (vm_alloc_page_with_initializer type upage w init aux s).2 !! upage
  = Some (mkPage upage w None (Uninit type init aux)).
Proof.
  intros Hal Hu. unfold vm_alloc_page_with_initializer.
  rewrite bool_decide_eq_true_2 by done. rewrite Hu. cbn.
  by rewrite lookup_insert_eq.
Qed.

Lemma vm_alloc_mmap_file_list (type : vm_type) (upage : Z) (w : bool)
    (init : vm_initializer) (aux : mmap_info) (s : vm_state) :
  mmap_file_list (vm_alloc_page_with_initializer type upage w init aux s).2
  = mmap_file_list s.
Proof.
  unfold vm_alloc_page_with_initializer.
  case_bool_decide; [|done]. by destruct (spt s !! upage).
Qed.

Lemma mmap_loop_unfold (fuel : nat) (addr length : Z) (w : bool)
    (file offset i : Z) (s : vm_state) :
  mmap_loop (S fuel) addr length w file offset i s
  = if bool_decide (i < length)
    then mmap_loop fuel addr length w file offset (wrap64 (i + PGSIZE))
           (mmap_round addr length w file offset i s)
    else Some s.
Proof.
  cbn [mmap_loop]. case_bool_decide; [|done]. unfold mmap_round.
  destruct (file_reopen file s) as [h s1]. cbn [fst snd].
  by destruct (vm_alloc_page_with_initializer _ _ _ _ _ s1).
Qed.

(** The loop ends when the index cannot wrap: one round for each page
    that is left. *)
Lemma mmap_loop_terminates (fuel : nat) (addr length : Z) (w : bool)
    (file offset : Z) :
  length + PGSIZE <= 2 ^ 64 ->
  forall (i : Z) (s : vm_state),
    0 <= i ->
    (Z.to_nat ((length - i + PGSIZE - 1) / PGSIZE) < fuel)%nat ->
    is_Some (mmap_loop fuel addr length w file offset i s).
Proof.
  intros Hlen. induction fuel as [|fuel IH]; intros i s Hi Hfuel; [lia|].
  rewrite mmap_loop_unfold. case_bool_decide as Hlt; [|by eexists].
  assert (HP : 0 < PGSIZE) by done.
  rewrite wrap64_small by lia. apply IH; [lia|].
  replace (length - (i + PGSIZE) + PGSIZE - 1)
    with (length - i + PGSIZE - 1 + (-1) * PGSIZE) by lia.
  rewrite Z.div_add by lia.
  assert (1 <= (length - i + PGSIZE - 1) / PGSIZE)
    by (apply Z.div_le_lower_bound; lia).
  lia.
Qed.

(** The loop overwrites no entry of the table and leaves the list of
    records alone. *)
Lemma mmap_loop_keeps (fuel : nat) (addr length : Z) (w : bool)
    (file offset : Z) :
  forall (i : Z) (s s' : vm_state),
    mmap_loop fuel addr length w file offset i s = Some s' ->
    mmap_file_list s' = mmap_file_list s /\
    forall a pg, spt s !! a = Some pg -> spt s' !! a = Some pg.
Proof.
  induction fuel as [|fuel IH]; intros i s s' Hrun; [done|].
  rewrite mmap_loop_unfold in Hrun.
  case_bool_decide as Hlt; [|by injection Hrun as <-].
  destruct (IH _ _ _ Hrun) as [Hl Hk]. split.
  - rewrite Hl. unfold mmap_round. by rewrite vm_alloc_mmap_file_list.
  - intros a pg Ha. apply Hk. unfold mmap_round. by apply vm_alloc_keeps.
Qed.

(** The loop installs an entry for every page of the range that had
    none: the page [m] rounds after index [i]. *)
Lemma mmap_loop_installs (fuel : nat) (addr length : Z) (w : bool)
    (file offset : Z) :
  0 <= addr -> addr mod PGSIZE = 0 -> addr + length <= 2 ^ 64 ->
  forall (m : nat) (i : Z) (s s' : vm_state),
    mmap_loop fuel addr length w file offset i s = Some s' ->
    0 <= i -> i mod PGSIZE = 0 ->
    i + Z.of_nat m * PGSIZE < length ->
    spt s !! (addr + (i + Z.of_nat m * PGSIZE)) = None ->
    exists h,
      spt s' !! (addr + (i + Z.of_nat m * PGSIZE))
      = Some (mkPage (addr + (i + Z.of_nat m * PGSIZE)) w None
                (Uninit VM_FILE LAZY_LOAD_FILE
                   (mkInfo h
                      (to_off_t (wrap64 (offset + (i + Z.of_nat m * PGSIZE))))
                      (Z.min PGSIZE (length - (i + Z.of_nat m * PGSIZE)))))).
Proof.
  intros Haddr Hal Hend.
  assert (HP : 0 < PGSIZE) by done.
  induction fuel as [|fuel IH]; intros m i s s' Hrun Hi Him Hlt Hnone; [done|].
  rewrite mmap_loop_unfold in Hrun.
  rewrite bool_decide_eq_true_2 in Hrun by lia.
  destruct m as [|m].
  - replace (i + Z.of_nat 0 * PGSIZE) with i in * by lia.
    destruct (mmap_loop_keeps _ _ _ _ _ _ _ _ _ Hrun) as [_ Hk].
    eexists. apply Hk. unfold mmap_round.
    rewrite wrap64_small by lia.
    rewrite vm_alloc_fresh.
    + do 4 f_equal. case_bool_decide; lia.
    + rewrite Z.add_mod, Hal, Him by lia. done.
    + done.
  - replace (i + Z.of_nat (S m) * PGSIZE)
      with (i + PGSIZE + Z.of_nat m * PGSIZE) in * by lia.
    rewrite wrap64_small in Hrun by lia.
    apply (IH m (i + PGSIZE) _ s' Hrun); [lia| |lia|].
    + rewrite Z.add_mod, Him, Z.mod_same by lia. done.
    + unfold mmap_round. rewrite vm_alloc_others; [done|].
      rewrite wrap64_small; lia.
Qed.

(** C1 (amended).  [do_mmap] has no overlap check of its own and no
    path on which it rejects a request.  Given fuel for one round per
    page of the range and one more to leave the loop, and a range that
    ends before the index can wrap, the call ends; if it returns, it
    returns [addr]; and in the state it ends with, an entry that the
    table had is still there, unchanged (the insertion at a mapped page
    fails), and every page of the range that had no entry has received
    a lazy file page with its share of the file. *)
Theorem do_mmap_installs_unmapped_pages (fuel : nat)
    (addr length writable file offset : Z) (s : vm_state) :
  0 <= addr -> addr mod PGSIZE = 0 -> 0 <= length ->
  addr + length + PGSIZE <= 2 ^ 64 ->
  (Z.to_nat ((length + PGSIZE - 1) / PGSIZE) < fuel)%nat ->
  exists o,
    do_mmap fuel addr length writable file offset s = Some o /\
    (forall r s', o = Mapped r s' -> r = addr) /\
    (forall a pg,
       spt s !! a = Some pg -> spt (outcome_state o) !! a = Some pg) /\
    (forall k : Z,
       0 <= k -> k * PGSIZE < length ->
       spt s !! (addr + k * PGSIZE) = None ->
       exists h,
         spt (outcome_state o) !! (addr + k * PGSIZE)
         = Some (mkPage (addr + k * PGSIZE) (bool_decide (writable <> 0)) None
                   (Uninit VM_FILE LAZY_LOAD_FILE
                      (mkInfo h (to_off_t (wrap64 (offset + k * PGSIZE)))
                         (Z.min PGSIZE (length - k * PGSIZE)))))).
Proof.
  intros Haddr Hal Hlen Hend Hfuel. unfold do_mmap.
  assert (HP : 0 < PGSIZE) by done.
  assert (Hend' : addr + length <= 2 ^ 64) by lia.
  destruct (mmap_loop_terminates fuel addr length (bool_decide (writable <> 0))
              file offset ltac:(lia) 0 s ltac:(lia) ltac:(by rewrite Z.sub_0_r))
    as [s1 Hrun].
  rewrite Hrun.
  destruct (mmap_loop_keeps _ _ _ _ _ _ _ _ _ Hrun) as [_ Hk].
  assert (Hnew : forall k : Z,
    0 <= k -> k * PGSIZE < length ->
    spt s !! (addr + k * PGSIZE) = None ->
    exists h,
      spt s1 !! (addr + k * PGSIZE)
      = Some (mkPage (addr + k * PGSIZE) (bool_decide (writable <> 0)) None
                (Uninit VM_FILE LAZY_LOAD_FILE
                   (mkInfo h (to_off_t (wrap64 (offset + k * PGSIZE)))
                      (Z.min PGSIZE (length - k * PGSIZE)))))).
  { intros k Hk0 Hklt Hnone.
    destruct (mmap_loop_installs fuel addr length (bool_decide (writable <> 0))
                file offset Haddr Hal Hend' (Z.to_nat k) 0 s s1 Hrun
                ltac:(lia) ltac:(done))
      as [h Hh].
    - rewrite Z2Nat.id by lia. lia.
    - rewrite Z2Nat.id by lia. by rewrite Z.add_0_l.
    - exists h. rewrite Z2Nat.id, Z.add_0_l in Hh by lia. done. }
  destruct (mmap_file_list s1) as [l|]; cbn [list_push_back].
  - eexists. split; [done|]. split; [by intros r s' [= <- _]|].
    cbn [outcome_state spt with_mmap_file_list]. done.
  - eexists. split; [done|]. split; [by intros r s'|].
    cbn [outcome_state]. done.
Qed.

Lemma do_mmap_installs_unmapped_pages_witness :
  exists o,
    do_mmap 3 4096 8192 1 7 0 vm_one_page = Some o /\
    spt (outcome_state o) !! 8192 = Some (mkPage 8192 true None Anon) /\
    is_Some (spt (outcome_state o) !! 4096).
Proof.
  destruct (do_mmap_installs_unmapped_pages 3 4096 8192 1 7 0 vm_one_page)
    as (o & Hrun & _ & Hkeep & Hnew);
    [lia|done|lia|done|vm_compute; lia|].
  exists o. split; [exact Hrun|]. split.
  - apply Hkeep. reflexivity.
  - destruct (Hnew 0) as [h Hh]; [lia|lia|reflexivity|]. by eexists.
Defined.

(** C1 as stated fails: a request for the two pages at [4096] and
    [8192], the second of which is mapped already, is not turned down
    with the table untouched.  The loop of [do_mmap] installs the first
    page and leaves the second as it was; the call then ends in the
    panic of [list_push_back], the list never having been
    initialised. *)
Lemma do_mmap_overlap_not_rejected :
  exists s',
    is_Some (spt vm_one_page !! 8192) /\
    spt vm_one_page !! 4096 = None /\
    do_mmap 3 4096 8192 1 7 0 (vm_file_init vm_one_page)
    = Some (Panicked s') /\
    spt s' !! 4096
    = Some (mkPage 4096 true None
              (Uninit VM_FILE LAZY_LOAD_FILE (mkInfo 50 0 4096))) /\
    spt s' !! 8192 = Some (mkPage 8192 true None Anon).
Proof.
  eexists. split; [by eexists|]. split; [reflexivity|].
  split; [vm_compute; reflexivity|]. split; reflexivity.
Qed.




Lemma read_memory_length (s : vm_state) (buffer size : Z) :
  0 <= size -> Z.of_nat (length (read_memory s buffer size)) = size.
Proof.
  intros H. unfold read_memory. rewrite length_fmap, length_seqZ. lia.
Qed.

Lemma read_memory_lookup (s : vm_state) (buffer size : Z) (i : nat)
    (b : Byte.byte) :
  read_memory s buffer size !! i = Some b ->
  Z.of_nat i < size /\
  b = default Byte.x00 (memory s !! (buffer + Z.of_nat i)).
Proof.
  unfold read_memory. rewrite list_lookup_fmap. intros H.
  destruct (seqZ buffer size !! i) as [a|] eqn:Ha; [|done].
  apply lookup_seqZ in Ha as [-> Hi]. cbn in H. injection H as <-. done.
Qed.

(** What [lazy_load_file] records in a file page: the offset of its
    payload and the number of bytes that were read, which is at most
    the payload's [read_bytes]. *)
Lemma lazy_load_file_records (got : list Byte.byte) (pg : page)
    (fp : file_page) (mi : mmap_info) (s : vm_state) :
  data pg = File fp ->
  0 <= mi_read_bytes mi ->
  exists n,
    data (lazy_load_file got pg mi s).1
    = File (mkFilePage (fp_file fp) (mi_offset mi) n) /\
    n = Z.min (Z.of_nat (length got)) (mi_read_bytes mi) /\
    va (lazy_load_file got pg mi s).1 = va pg /\
    va pg ∉ dirty (lazy_load_file got pg mi s).2.
Proof.
  intros Hd Hrb. unfold lazy_load_file, file_read. rewrite Hd. cbn.
  eexists. split; [done|]. split; [rewrite length_take; lia|].
  split; [done|].
  case_bool_decide; cbn; rewrite elem_of_difference;
    intros [_ Hn]; apply Hn; by apply elem_of_singleton.
Qed.

(** C9.  Destroying a file page calls the file interface as follows.
    If the page is dirty: a seek to the recorded offset, one write of
    the [fp_size] bytes of user memory from the page's address on, and
    the close of the page's handle, in this order; the bytes written are
    those at the first [fp_size] addresses of the page and no others.
    If the page is clean: the close of the handle alone, nothing being
    written. *)
Theorem file_backed_destroy_writes_valid_bytes (pg : page) (fp : file_page)
    (s : vm_state) :
  data pg = File fp ->
  (va pg ∈ dirty s ->
   file_log (file_backed_destroy pg s)
   = file_log s
     ++ [EvSeek (fp_file fp) (fp_ofs fp);
         EvWrite (fp_file fp) (read_memory s (va pg) (fp_size fp));
         EvClose (fp_file fp)] /\
   (0 <= fp_size fp ->
    Z.of_nat (length (read_memory s (va pg) (fp_size fp))) = fp_size fp) /\
   (forall (i : nat) (b : Byte.byte),
      read_memory s (va pg) (fp_size fp) !! i = Some b ->
      Z.of_nat i < fp_size fp /\
      b = default Byte.x00 (memory s !! (va pg + Z.of_nat i)))) /\
  (va pg ∉ dirty s ->
   file_log (file_backed_destroy pg s) = file_log s ++ [EvClose (fp_file fp)]).
Proof.
  intros Hd. unfold file_backed_destroy, pml4_is_dirty. rewrite Hd. split.
  - intros Hdirty. rewrite bool_decide_eq_true_2 by done. split.
    + destruct (frame pg); cbn; by rewrite <- !app_assoc.
    + split; [apply read_memory_length|apply read_memory_lookup].
  - intros Hclean. rewrite bool_decide_eq_false_2 by done.
    by destruct (frame pg).
Qed.

Lemma file_backed_destroy_writes_valid_bytes_witness :
  file_log (file_backed_destroy second_page vm_dirty_page)
  = [EvSeek 51 4096;
     EvWrite 51 (Byte.x2a :: replicate 403 Byte.x00);
     EvClose 51] /\
  file_log
    (file_backed_destroy second_page (pml4_set_dirty 8192 false vm_dirty_page))
  = [EvClose 51].
Proof.
  destruct (file_backed_destroy_writes_valid_bytes second_page
              (mkFilePage 51 4096 404) vm_dirty_page eq_refl)
    as [Hdirty _].
  destruct (file_backed_destroy_writes_valid_bytes second_page
              (mkFilePage 51 4096 404)
              (pml4_set_dirty 8192 false vm_dirty_page) eq_refl)
    as [_ Hclean].
  split.
  - destruct Hdirty as [-> _]; [by apply (bool_decide_unpack _)|].
    vm_compute. reflexivity.
  - rewrite Hclean; [reflexivity|].
    apply (bool_decide_unpack _). vm_compute. exact I.
Defined.

End VmFileSpec.

(** * Rescheduling *)

Module SchedSpec.
Import Thread ThreadSpec Sched.

Lemma reclaimed_lookup (s : kstate) (t : Z) :
  reclaimed s !! t
  = if decide (t ∈ destruction_req s) then None else threads s !! t.
Proof.
  unfold reclaimed. induction (destruction_req s) as [|v l IH]; cbn.
  { rewrite decide_False; [done|]. apply not_elem_of_nil. }
  destruct (decide (t = v)) as [->|Hne].
  - rewrite lookup_delete_eq, decide_True; [done|left].
  - rewrite lookup_delete_ne by done. rewrite IH.
    apply decide_ext. rewrite elem_of_cons.
    split; [by right|by intros [?|?]].
Qed.

Lemma bind_gets {A B} (f : kstate -> A) (k : A -> M B) (s : kstate) :
  bind (gets f) k s = k (f s) s.
Proof. done. Qed.

Lemma bind_modify {B} (f : kstate -> kstate) (k : unit -> M B) (s : kstate) :
  bind (modify f) k s = k tt (f s).
Proof. done. Qed.

Lemma bind_ret {A B} (a : A) (k : A -> M B) (s : kstate) :
  bind (ret a) k s = k a s.
Proof. done. Qed.

Lemma bind_ASSERT {B} (b : bool) (k : unit -> M B) (s : kstate) :
  b = true -> bind (ASSERT b) k s = k tt s.
Proof. by intros ->. Qed.

Lemma bind_ASSERT_false {B} (b : bool) (k : unit -> M B) (s : kstate) :
  b = false -> bind (ASSERT b) k s = Panic s.
Proof. by intros ->. Qed.

Lemma bind_assoc {A B C} (c : M A) (f : A -> M B) (k : B -> M C) (s : kstate) :
  bind (bind c f) k s = bind c (fun x => bind (f x) k) s.
Proof. unfold bind. by destruct (c s). Qed.

Lemma bind_load {B} (t : Z) (th : thread) (k : thread -> M B) (s : kstate) :
  threads s !! t = Some th -> bind (load t) k s = k th s.
Proof. intros H. by rewrite (bind_Ret _ _ _ _ _ (load_Some s t th H)). Qed.

Lemma bind_store {B} (t : Z) (th : thread) (f : thread -> thread)
    (k : unit -> M B) (s : kstate) :
  threads s !! t = Some th ->
  bind (store t f) k s
  = k tt (with_threads (<[t := f th]> (threads s)) s).
Proof. intros H. by rewrite (bind_Ret _ _ _ _ _ (store_Some s t th f H)). Qed.

Lemma bind_thread_current {B} (c : thread) (k : Z -> M B) (s : kstate) :
  threads s !! current s = Some c ->
  magic c = THREAD_MAGIC -> status c = THREAD_RUNNING ->
  bind thread_current k s = k (current s) s.
Proof.
  intros Hc Hm Hs. by rewrite (bind_Ret _ _ _ _ _ (thread_current_ok s c Hc Hm Hs)).
Qed.

Lemma bind_is_thread {B} (t : Z) (th : thread) (k : bool -> M B) (s : kstate) :
  threads s !! t = Some th -> magic th = THREAD_MAGIC ->
  bind (is_thread (Some t)) k s = k true s.
Proof.
  intros Ht Hm. unfold bind, is_thread. rewrite Ht.
  by rewrite (bool_decide_eq_true_2 _ Hm).
Qed.

(** [do_schedule (st)] with a thread in the ready list: the front of the
    list runs next. *)
Lemma do_schedule_spec (st : thread_status) (s : kstate) (c nt : thread)
    (n : Z) (rl' : list Z) :
  cur_intr_level s = INTR_OFF ->
  threads s !! current s = Some c ->
  magic c = THREAD_MAGIC -> status c = THREAD_RUNNING ->
  current s ∉ destruction_req s ->
  st <> THREAD_RUNNING ->
  ready_list s = n :: rl' ->
  n ∉ destruction_req s ->
  threads s !! n = Some nt -> magic nt = THREAD_MAGIC ->
  exists s',
    do_schedule st s = Ret (bool_decide (current s <> n)) s' /\
    current s' = n /\ ready_list s' = rl' /\ thread_ticks s' = 0 /\
    cur_intr_level s' = INTR_OFF /\
    threads s'
    = <[n := set_status THREAD_RUNNING nt]>
        (<[current s := set_status st c]> (reclaimed s)) /\
    destruction_req s'
    = (if bool_decide (current s <> n) && bool_decide (st = THREAD_DYING)
          && bool_decide (Some (current s) <> initial_thread s)
       then [current s] else []) /\
    same_globals s s'.
Proof.
  intros Hoff Hc Hm Hst Hcd Hnr Hrl Hnd Hn Hnm.
  unfold do_schedule, intr_get_level. rewrite bind_gets.
  rewrite bind_ASSERT by (by rewrite Hoff).
  rewrite (bind_thread_current c) by done.
  unfold free_destruction_req. rewrite bind_modify. fold (reclaimed s).
  set (s1 := with_destruction_req [] (with_threads (reclaimed s) s)).
  assert (Hc1 : threads s1 !! current s1 = Some c).
  { subst s1. cbn. by rewrite reclaimed_lookup, decide_False. }
  rewrite (bind_thread_current c) by done.
  rewrite (bind_store _ c) by done.
  set (s2 := with_threads _ s1).
  unfold schedule, running_thread, next_thread_to_run, intr_get_level.
  rewrite bind_gets, bind_assoc, bind_gets.
  change (ready_list s2) with (ready_list s). rewrite Hrl.
  rewrite bind_assoc, bind_modify, bind_ret.
  set (s3 := with_ready_list rl' s2).
  rewrite bind_gets.
  rewrite bind_ASSERT by (apply bool_decide_eq_true_2; exact Hoff).
  assert (Hc3 : threads s3 !! current s2 = Some (set_status st c))
    by (subst s3 s2 s1; cbn; by rewrite lookup_insert_eq).
  rewrite (bind_load _ _ _ _ Hc3).
  rewrite bind_ASSERT by (by apply bool_decide_eq_true_2).
  assert (Hn3 : exists nt3, threads s3 !! n = Some nt3 /\
            magic nt3 = THREAD_MAGIC /\
            set_status THREAD_RUNNING nt3 = set_status THREAD_RUNNING nt).
  { subst s3 s2 s1. cbn. destruct (decide (n = current s)) as [->|Hne].
    - rewrite lookup_insert_eq. rewrite Hc in Hn. injection Hn as <-.
      by eexists.
    - rewrite lookup_insert_ne by done.
      rewrite reclaimed_lookup, decide_False by done. by eexists. }
  destruct Hn3 as (nt3 & Hn3 & Hnm3 & Hnt3).
  rewrite (bind_is_thread n nt3) by done.
  rewrite bind_ASSERT by done.
  rewrite (bind_store _ nt3) by done. rewrite Hnt3.
  rewrite bind_modify.
  set (s4 := with_thread_ticks 0 _).
  assert (Hthr4 : threads s4
            = <[n := set_status THREAD_RUNNING nt]>
                (<[current s := set_status st c]> (reclaimed s))) by done.
  change (current s2) with (current s).
  case_bool_decide as Hsw.
  - assert (Hc4 : threads s4 !! current s = Some (set_status st c)).
    { rewrite Hthr4. rewrite lookup_insert_ne by done.
      by rewrite lookup_insert_eq. }
    rewrite (bind_load _ _ _ _ Hc4). rewrite bind_gets.
    change (initial_thread s4) with (initial_thread s).
    cbn [status set_status].
    destruct (bool_decide (st = THREAD_DYING)
              && bool_decide (Some (current s) <> initial_thread s)) eqn:Hdy.
    + rewrite bind_modify, bind_modify. eexists. split; [reflexivity|].
      unfold same_globals. subst s4 s3 s2 s1. cbn. rewrite Hdy.
      by repeat split.
    + rewrite bind_ret, bind_modify. eexists. split; [reflexivity|].
      unfold same_globals. subst s4 s3 s2 s1. cbn. rewrite Hdy.
      by repeat split.
  - eexists. split; [reflexivity|].
    unfold same_globals. subst s4 s3 s2 s1. cbn. by repeat split.
Qed.

(** [thread_yield] by a thread other than the idle thread: the front of
    the ready list, the yielding thread queued, runs next. *)
Lemma thread_yield_spec (s : kstate) (c nt : thread) (n : Z) (rl' : list Z) :
  threads s !! current s = Some c ->
  magic c = THREAD_MAGIC -> status c = THREAD_RUNNING ->
  in_intr_context s = false ->
  Some (current s) <> idle_thread s ->
  current s ∉ destruction_req s ->
  list_insert_ordered (thread_compare_priority s) (current s) (ready_list s)
  = n :: rl' ->
  n ∉ destruction_req s ->
  threads s !! n = Some nt -> magic nt = THREAD_MAGIC ->
  exists s',
    thread_yield s = Ret tt s' /\
    current s' = n /\ ready_list s' = rl' /\ thread_ticks s' = 0 /\
    threads s'
    = <[n := set_status THREAD_RUNNING nt]>
        (<[current s := set_status THREAD_READY c]> (reclaimed s)) /\
    destruction_req s' = [] /\
    (n = current s -> cur_intr_level s' = cur_intr_level s) /\
    same_globals s s'.
Proof.
  intros Hc Hm Hst Hic Hidle Hcd Hq Hnd Hn Hnm.
  unfold thread_yield. rewrite (bind_thread_current c) by done.
  unfold intr_context. rewrite bind_gets, Hic.
  rewrite bind_ASSERT by done.
  unfold intr_disable, intr_set_level, intr_get_level.
  rewrite bind_assoc, bind_gets, bind_assoc, bind_modify, bind_ret.
  rewrite bind_gets.
  change (idle_thread (with_intr_level INTR_OFF s)) with (idle_thread s).
  rewrite (bool_decide_eq_true_2 _ Hidle).
  unfold ready_insert. rewrite bind_modify.
  set (s1 := with_ready_list _ _).
  destruct (do_schedule_spec THREAD_READY s1 c nt n rl')
    as (s' & Hrun & Hcur & Hrl & Htk & Hlvl & Hthr & Hdr & Hsame);
    try done.
  rewrite (bind_Ret _ _ _ _ _ Hrun).
  change (current s1) with (current s) in *.
  change (reclaimed s1) with (reclaimed s) in Hthr.
  assert (Hdr' : destruction_req s' = []).
  { rewrite Hdr. by rewrite andb_false_r. }
  case_bool_decide as Hsw.
  - exists s'. do 6 (split; [done|]). split; [|exact Hsame].
    intros Heq. by rewrite Heq in Hsw.
  - rewrite bind_assoc, bind_gets, bind_assoc, bind_modify, !bind_ret.
    eexists. split; [reflexivity|]. cbn.
    do 5 (split; [done|]). split; [done|].
    destruct Hsame as (?&?&?&?&?&?&?&?). by repeat split.
Qed.

Lemma set_status_same (th : thread) : set_status (status th) th = th.
Proof. by destruct th. Qed.

(** X2.  A yield by a thread that outranks every ready thread gives the
    processor back to it: it stays the running thread, the ready list
    is what it was and the interrupt level is restored; the call has
    only started a new time slice and freed the pages of the threads
    queued for destruction. *)
Theorem thread_yield_keeps_highest (s : kstate) (c : thread) :
  threads s !! current s = Some c ->
  magic c = THREAD_MAGIC -> status c = THREAD_RUNNING ->
  in_intr_context s = false ->
  Some (current s) <> idle_thread s ->
  current s ∉ destruction_req s ->
  (forall t, t ∈ ready_list s -> priority_of s t < priority c) ->
  exists s',
    thread_yield s = Ret tt s' /\
    current s' = current s /\ ready_list s' = ready_list s /\
    threads s' = reclaimed s /\
    cur_intr_level s' = cur_intr_level s /\
    thread_ticks s' = 0 /\ destruction_req s' = [] /\
    same_globals s s'.
Proof.
  intros Hc Hm Hst Hic Hidle Hcd Hlow.
  assert (Hq : list_insert_ordered (thread_compare_priority s) (current s)
                 (ready_list s) = current s :: ready_list s).
  { destruct (ready_list s) as [|e l]; [done|]. cbn.
    unfold thread_compare_priority at 1.
    rewrite bool_decide_eq_true_2; [done|].
    specialize (Hlow e ltac:(left)). unfold priority_of at 1.
    rewrite Hc. lia. }
  destruct (thread_yield_spec s c c (current s) (ready_list s))
    as (s' & Hrun & Hcur & Hrl & Htk & Hthr & Hdr & Hlvl & Hsame); try done.
  exists s'. repeat split; try done; [|by apply Hlvl|apply Hsame..].
  rewrite Hthr, insert_insert_eq, <- Hst, set_status_same.
  apply insert_id. by rewrite reclaimed_lookup, decide_False.
Qed.

Lemma thread_yield_keeps_highest_witness :
  exists s',
    thread_yield inversion_state = Ret tt s' /\
    current s' = 100 /\ ready_list s' = [200; 300].
Proof.
  destruct (thread_yield_keeps_highest inversion_state
              (mkThread 4 THREAD_RUNNING "c" 40 0 40 (Some 1) [] [] None 2 1
                 None THREAD_MAGIC) eq_refl eq_refl eq_refl eq_refl)
    as (s' & Hrun & Hcur & Hrl & _).
  - discriminate.
  - apply not_elem_of_nil.
  - intros t Ht. cbn in Ht.
    apply elem_of_cons in Ht as [->|Ht]; [vm_compute; reflexivity|].
    apply elem_of_cons in Ht as [->|Ht]; [vm_compute; reflexivity|].
    by apply elem_of_nil in Ht.
  - exists s'. by repeat split.
Defined.

(** X3.  A yield with a ready thread of at least the yielder's priority
    at the front of a sorted ready list hands the processor to that
    thread; the yielder becomes ready and is queued behind every ready
    thread of at least its priority and before those of less, so that
    threads of equal priority take turns. *)
Theorem thread_yield_round_robin (s : kstate) (c nt : thread) (n : Z)
    (rl : list Z) :
  threads s !! current s = Some c ->
  magic c = THREAD_MAGIC -> status c = THREAD_RUNNING ->
  in_intr_context s = false ->
  Some (current s) <> idle_thread s ->
  current s ∉ destruction_req s ->
  ready_list s = n :: rl ->
  sorted_by (thread_compare_priority s) (ready_list s) ->
  n <> current s ->
  n ∉ destruction_req s ->
  threads s !! n = Some nt -> magic nt = THREAD_MAGIC ->
  priority c <= priority nt ->
  exists s' l1 l2,
    thread_yield s = Ret tt s' /\
    current s' = n /\
    threads s' !! n = Some (set_status THREAD_RUNNING nt) /\
    threads s' !! current s = Some (set_status THREAD_READY c) /\
    rl = l1 ++ l2 /\
    ready_list s' = l1 ++ current s :: l2 /\
    (forall e, e ∈ l1 -> priority c <= priority_of s e) /\
    (forall e, e ∈ l2 -> priority_of s e < priority c).
Proof.
  intros Hc Hm Hst Hic Hidle Hcd Hrl Hsorted Hne Hnd Hn Hnm Hle.
  assert (Hkey : forall a b, thread_compare_priority s a b
                             = bool_decide (priority_of s a > priority_of s b))
    by done.
  assert (Hpc : priority_of s (current s) = priority c)
    by (unfold priority_of; by rewrite Hc).
  assert (Hpn : priority_of s n = priority nt)
    by (unfold priority_of; by rewrite Hn).
  rewrite Hrl in Hsorted. pose proof Hsorted as [_ Hsorted'].
  destruct (list_insert_ordered_fifo _ _ Hkey (current s) _ Hsorted')
    as (l1 & l2 & Hl & Hins & H1 & H2).
  assert (Hq : list_insert_ordered (thread_compare_priority s) (current s)
                 (ready_list s) = n :: l1 ++ current s :: l2).
  { rewrite Hrl. cbn. rewrite Hkey, bool_decide_eq_false_2 by lia.
    by rewrite Hins. }
  destruct (thread_yield_spec s c nt n _ Hc Hm Hst Hic Hidle Hcd Hq Hnd Hn Hnm)
    as (s' & Hrun & Hcur & Hrl' & Htk & Hthr & Hdr & Hlvl & Hsame).
  exists s', l1, l2. repeat split; try done.
  - rewrite Hthr. by rewrite lookup_insert_eq.
  - rewrite Hthr. rewrite lookup_insert_ne by done.
    by rewrite lookup_insert_eq.
  - intros e He. rewrite <- Hpc. by apply H1.
  - intros e He. rewrite <- Hpc. by apply H2.
Qed.

Lemma thread_yield_round_robin_witness :
  exists s',
    thread_yield round_robin_state = Ret tt s' /\
    current s' = 200 /\ ready_list s' = [100; 300] /\
    threads s' !! 400 = None.
Proof.
  destruct (thread_yield_round_robin round_robin_state
              (mkThread 1 THREAD_RUNNING "main" 31 0 31 None [] [200; 300] None
                 0 0 None THREAD_MAGIC)
              (mkThread 2 THREAD_READY "a" 31 0 31 None [] [] (Some 900) 2 1
                 (Some (7, 0)) THREAD_MAGIC) 200 [300]
              eq_refl eq_refl eq_refl eq_refl)
    as (s' & l1 & l2 & Hrun & _); try done.
  - apply (bool_decide_unpack _). vm_compute. exact I.
  - cbn. repeat split; repeat constructor.
  - apply (bool_decide_unpack _). vm_compute. exact I.
  - exists s'. split; [exact Hrun|].
    vm_compute in Hrun. injection Hrun as <-. by repeat split.
Defined.

(** Taking a returning computation apart. *)
Lemma bind_Ret_inv {A B} (c : M A) (k : A -> M B) (s s' : kstate) (b : B) :
  bind c k s = Ret b s' ->
  exists a s1, c s = Ret a s1 /\ k a s1 = Ret b s'.
Proof. unfold bind. destruct (c s) as [a s1| |]; [|done..]. by exists a, s1. Qed.

Lemma gets_Ret_inv {A} (f : kstate -> A) (s s' : kstate) (a : A) :
  gets f s = Ret a s' -> a = f s /\ s' = s.
Proof. by intros [= <- <-]. Qed.

Lemma modify_Ret_inv (f : kstate -> kstate) (s s' : kstate) (u : unit) :
  modify f s = Ret u s' -> s' = f s.
Proof. by intros [= <-]. Qed.

Lemma ASSERT_Ret_inv (b : bool) (s s' : kstate) (u : unit) :
  ASSERT b s = Ret u s' -> b = true /\ s' = s.
Proof. unfold ASSERT. destruct b; [|done]. by intros [= <-]. Qed.

Lemma load_Ret_inv (t : Z) (s s' : kstate) (th : thread) :
  load t s = Ret th s' -> threads s !! t = Some th /\ s' = s.
Proof.
  unfold load. destruct (threads s !! t); [|done]. by intros [= <- <-].
Qed.

Lemma store_Ret_inv (t : Z) (f : thread -> thread) (s s' : kstate) (u : unit) :
  store t f s = Ret u s' ->
  exists th, threads s !! t = Some th /\
             s' = with_threads (<[t := f th]> (threads s)) s.
Proof.
  unfold store. destruct (threads s !! t) as [th|]; [|done].
  intros [= <-]. by exists th.
Qed.

Lemma is_thread_Ret_inv (t : option Z) (s s' : kstate) (b : bool) :
  is_thread t s = Ret b s' -> s' = s.
Proof. by intros [= _ <-]. Qed.

Lemma thread_current_Ret_inv (s s' : kstate) (t : Z) :
  thread_current s = Ret t s' ->
  s' = s /\ t = current s /\ is_Some (threads s !! current s).
Proof.
  destruct (thread_current_inv s) as [(c & -> & Hc & _)| ->]; [|done].
  intros [= <- <-]. by repeat split.
Qed.

(** Memory that holds no thread before [schedule] holds none after. *)
Lemma schedule_absent (s s' : kstate) (b : bool) (v : Z) :
  schedule s = Ret b s' -> threads s !! v = None -> threads s' !! v = None.
Proof.
  unfold schedule, running_thread, next_thread_to_run, intr_get_level.
  intros H Hv.
  apply bind_Ret_inv in H as (curr & s1 & H1 & H).
  apply gets_Ret_inv in H1 as [-> ->].
  apply bind_Ret_inv in H as (next & s1 & H1 & H).
  assert (Hs1 : threads s1 = threads s).
  { apply bind_Ret_inv in H1 as (rl & s0 & H0 & H1).
    apply gets_Ret_inv in H0 as [-> ->].
    destruct (ready_list s) as [|t rl'].
    - by apply gets_Ret_inv in H1 as [_ ->].
    - apply bind_Ret_inv in H1 as (u & s0 & H0 & H1).
      apply modify_Ret_inv in H0 as ->. by injection H1 as _ <-. }
  rewrite <- Hs1 in Hv. clear Hs1 H1.
  apply bind_Ret_inv in H as (lvl & s2 & H1 & H).
  apply gets_Ret_inv in H1 as [-> ->].
  apply bind_Ret_inv in H as (u & s2 & H1 & H).
  apply ASSERT_Ret_inv in H1 as [_ ->].
  apply bind_Ret_inv in H as (c & s2 & H1 & H).
  apply load_Ret_inv in H1 as [Hc ->].
  apply bind_Ret_inv in H as (u' & s2 & H1 & H).
  apply ASSERT_Ret_inv in H1 as [_ ->].
  apply bind_Ret_inv in H as (ok & s2 & H1 & H).
  apply is_thread_Ret_inv in H1 as ->.
  apply bind_Ret_inv in H as (u'' & s2 & H1 & H).
  apply ASSERT_Ret_inv in H1 as [_ ->].
  destruct next as [n|]; [|done].
  apply bind_Ret_inv in H as (u3 & s2 & H1 & H).
  apply store_Ret_inv in H1 as (nt & Hn & ->).
  apply bind_Ret_inv in H as (u4 & s3 & H1 & H).
  apply modify_Ret_inv in H1 as ->.
  assert (Hv' : <[n := set_status THREAD_RUNNING nt]> (threads s1) !! v = None).
  { rewrite lookup_insert_ne; [done|]. intros ->. congruence. }
  case_bool_decide.
  - apply bind_Ret_inv in H as (c' & s3 & H1 & H).
    apply load_Ret_inv in H1 as [_ ->].
    apply bind_Ret_inv in H as (init & s3 & H1 & H).
    apply gets_Ret_inv in H1 as [-> ->].
    apply bind_Ret_inv in H as (u5 & s3 & H1 & H).
    apply bind_Ret_inv in H as (u6 & s4 & H2 & H).
    apply modify_Ret_inv in H2 as ->. injection H as _ <-.
    match type of H1 with context [if ?d then _ else _] => destruct d end.
    + by apply modify_Ret_inv in H1 as ->.
    + unfold ret in H1. by inversion H1; subst.
  - by injection H as _ <-.
Qed.

(** Whenever [do_schedule] returns, the pages of the threads that were
    queued for destruction are gone. *)
Lemma do_schedule_frees (st : thread_status) (s s' : kstate) (b : bool) (v : Z) :
  do_schedule st s = Ret b s' ->
  v ∈ destruction_req s -> threads s' !! v = None.
Proof.
  unfold do_schedule, intr_get_level, free_destruction_req.
  intros H Hv.
  apply bind_Ret_inv in H as (lvl & s1 & H1 & H).
  apply gets_Ret_inv in H1 as [-> ->].
  apply bind_Ret_inv in H as (u & s1 & H1 & H).
  apply ASSERT_Ret_inv in H1 as [_ ->].
  apply bind_Ret_inv in H as (cur & s1 & H1 & H).
  apply thread_current_Ret_inv in H1 as (-> & _ & _).
  apply bind_Ret_inv in H as (u1 & s1 & H1 & H).
  apply modify_Ret_inv in H1 as ->. fold (reclaimed s) in H.
  apply bind_Ret_inv in H as (cur' & s1 & H1 & H).
  apply thread_current_Ret_inv in H1 as (-> & -> & _).
  apply bind_Ret_inv in H as (u2 & s1 & H1 & H).
  apply store_Ret_inv in H1 as (c & Hc & ->).
  apply (schedule_absent _ _ _ _ H). cbn in *.
  rewrite lookup_insert_ne.
  - by rewrite reclaimed_lookup, decide_True.
  - intros <-. by rewrite reclaimed_lookup, decide_True in Hc.
Qed.

(** X4.  A thread other than the initial thread that exits while another
    thread is ready is marked dying and queued for destruction, and the
    ready thread runs; the exited thread's page is freed by the next
    reschedule, whichever it is.  The initial thread is never queued. *)
Theorem thread_exit_reclaimed (s : kstate) (c nt : thread) (n : Z)
    (rl' : list Z) :
  threads s !! current s = Some c ->
  magic c = THREAD_MAGIC -> status c = THREAD_RUNNING ->
  in_intr_context s = false ->
  current s ∉ destruction_req s ->
  ready_list s = n :: rl' ->
  n <> current s -> n ∉ destruction_req s ->
  threads s !! n = Some nt -> magic nt = THREAD_MAGIC ->
  exists s1,
    thread_exit_tail s = Ret true s1 /\
    current s1 = n /\
    threads s1 !! current s = Some (set_status THREAD_DYING c) /\
    destruction_req s1
    = (if decide (Some (current s) = initial_thread s) then []
       else [current s]) /\
    (Some (current s) <> initial_thread s ->
     forall (st : thread_status) (b : bool) (s2 : kstate),
       do_schedule st s1 = Ret b s2 -> threads s2 !! current s = None).
Proof.
  intros Hc Hm Hst Hic Hcd Hrl Hne Hnd Hn Hnm.
  unfold thread_exit_tail, intr_context. rewrite bind_gets, Hic.
  rewrite bind_ASSERT by done.
  unfold intr_disable, intr_set_level, intr_get_level.
  rewrite bind_assoc, bind_gets, bind_assoc, bind_modify, bind_ret.
  set (s0 := with_intr_level INTR_OFF s).
  destruct (do_schedule_spec THREAD_DYING s0 c nt n rl')
    as (s1 & Hrun & Hcur & Hrl1 & Htk & Hlvl & Hthr & Hdr & Hsame);
    try done.
  change (current s0) with (current s) in *.
  change (initial_thread s0) with (initial_thread s) in *.
  rewrite (bool_decide_eq_true_2 (current s <> n)) in Hrun, Hdr by done.
  exists s1. split; [done|]. split; [done|].
  assert (Hdr1 : destruction_req s1
                 = (if decide (Some (current s) = initial_thread s) then []
                    else [current s])).
  { rewrite Hdr. cbn [andb].
    rewrite (bool_decide_eq_true_2 (THREAD_DYING = THREAD_DYING)) by done.
    cbn [andb].
    destruct (decide (Some (current s) = initial_thread s)) as [He|He].
    - rewrite bool_decide_eq_false_2; [done|]. by intros Hx.
    - by rewrite bool_decide_eq_true_2. }
  split; [|split; [done|]].
  - rewrite Hthr. rewrite lookup_insert_ne by done.
    by rewrite lookup_insert_eq.
  - intros Hinit st b s2 Hrun2. apply (do_schedule_frees _ _ _ _ _ Hrun2).
    rewrite Hdr1, decide_False by done. left.
Qed.

Lemma thread_exit_reclaimed_witness :
  exists s1,
    thread_exit_tail inversion_state = Ret true s1 /\
    current s1 = 200 /\ destruction_req s1 = [100].
Proof.
  destruct (thread_exit_reclaimed inversion_state
              (mkThread 4 THREAD_RUNNING "c" 40 0 40 (Some 1) [] [] None 2 1
                 None THREAD_MAGIC)
              (mkThread 3 THREAD_READY "a" 30 0 30 None [] [] None 2 1
                 None THREAD_MAGIC) 200 [300]
              eq_refl eq_refl eq_refl eq_refl)
    as (s1 & Hrun & Hcur & _ & Hdr & _); try done.
  - apply not_elem_of_nil.
  - apply not_elem_of_nil.
  - exists s1. by repeat split.
Defined.

Lemma thread_unblock_sorted_witness :
  exists s',
    thread_unblock 500 unblock_state = Ret tt s' /\
    ready_list s' = [200; 500; 300] /\ current s' = 100.
Proof.
  destruct (thread_unblock_sorted unblock_state 500
              (mkThread 5 THREAD_BLOCKED "w" 31 0 31 None [] [] (Some 903) 2 1
                 (Some (7, 3)) THREAD_MAGIC) eq_refl eq_refl eq_refl)
    as (s' & l1 & l2 & Hrun & _).
  - cbn. repeat split; repeat constructor.
  - exists s'. split; [exact Hrun|].
    vm_compute in Hrun. injection Hrun as <-. by split.
Defined.

(** X5.  Unblocking what is not a blocked thread is fatal.  Memory that
    holds no thread (no or a wrong [magic]) stops [thread_unblock] at
    once; a thread that is not blocked stops it with interrupts
    disabled; either way no thread and no list has been changed. *)
Theorem thread_unblock_not_blocked (s : kstate) (t : Z) :
  (forall th, threads s !! t = Some th ->
              magic th <> THREAD_MAGIC \/ status th <> THREAD_BLOCKED) ->
  exists s',
    thread_unblock t s = Panic s' /\
    threads s' = threads s /\ ready_list s' = ready_list s /\
    sleep_list s' = sleep_list s /\ current s' = current s /\
    (forall th, threads s !! t = Some th -> magic th = THREAD_MAGIC ->
                cur_intr_level s' = INTR_OFF).
Proof.
  intros Hbad. unfold thread_unblock.
  destruct (threads s !! t) as [th|] eqn:Ht.
  2:{ exists s. unfold bind at 1, is_thread. rewrite Ht. cbn.
      by repeat split. }
  destruct (decide (magic th = THREAD_MAGIC)) as [Hm|Hm].
  - rewrite (bind_is_thread t th) by done. rewrite bind_ASSERT by done.
    unfold intr_disable, intr_set_level, intr_get_level.
    rewrite bind_assoc, bind_gets, bind_assoc, bind_modify, bind_ret.
    rewrite (bind_load t th) by done.
    destruct (Hbad th eq_refl) as [?|Hst]; [done|].
    rewrite bind_ASSERT_false by (by apply bool_decide_eq_false_2).
    eexists. split; [reflexivity|]. by repeat split.
  - exists s. unfold bind at 1, is_thread. rewrite Ht.
    rewrite bind_ASSERT_false by (by apply bool_decide_eq_false_2).
    repeat split. intros th' [= <-] Hm'. done.
Qed.

Lemma thread_unblock_not_blocked_witness :
  exists s', thread_unblock 200 unblock_state = Panic s' /\
             ready_list s' = [200; 300].
Proof.
  destruct (thread_unblock_not_blocked unblock_state 200)
    as (s' & Hrun & _ & Hrl & _).
  - intros th Hth. right. vm_compute in Hth. by injection Hth as <-.
  - exists s'. by split.
Defined.

(** [schedule] by a thread that has given up the processor, when
    another thread is picked. *)
Lemma schedule_spec (s : kstate) (c nt : thread) (n : Z) (rl' : list Z) :
  cur_intr_level s = INTR_OFF ->
  threads s !! current s = Some c -> status c <> THREAD_RUNNING ->
  next_pick s = Some (n, rl') ->
  n <> current s ->
  threads s !! n = Some nt -> magic nt = THREAD_MAGIC ->
  exists s',
    schedule s = Ret true s' /\
    current s' = n /\ ready_list s' = rl' /\ thread_ticks s' = 0 /\
    cur_intr_level s' = INTR_OFF /\
    threads s' = <[n := set_status THREAD_RUNNING nt]> (threads s) /\
    destruction_req s'
    = (if bool_decide (status c = THREAD_DYING)
          && bool_decide (Some (current s) <> initial_thread s)
       then destruction_req s ++ [current s] else destruction_req s) /\
    same_globals s s'.
Proof.
  intros Hoff Hc Hst Hpick Hne Hn Hnm.
  unfold schedule, running_thread, next_thread_to_run, intr_get_level.
  rewrite bind_gets, bind_assoc, bind_gets.
  assert (Hnext : exists s1,
    (forall B (k : option Z -> M B),
       bind (match ready_list s with
             | [] => gets idle_thread
             | t :: rl0 => modify (with_ready_list rl0);;; ret (Some t)
             end) k s = k (Some n) s1) /\
    s1 = with_ready_list rl' s).
  { unfold next_pick in Hpick. destruct (ready_list s) as [|t rl0] eqn:Hrl.
    - destruct (idle_thread s) as [i|] eqn:Hi; [|done].
      injection Hpick as <- <-. exists s. split.
      + intros B k. by rewrite bind_gets, Hi.
      + destruct s. cbn in *. by subst.
    - injection Hpick as <- <-. eexists. split; [|done].
      intros B k. by rewrite bind_assoc, bind_modify, bind_ret. }
  destruct Hnext as (s1 & Hnext & ->). rewrite Hnext.
  set (s1 := with_ready_list rl' s).
  rewrite bind_gets.
  rewrite bind_ASSERT by (apply bool_decide_eq_true_2; exact Hoff).
  rewrite (bind_load (current s) c) by done.
  rewrite bind_ASSERT by (by apply bool_decide_eq_true_2).
  rewrite (bind_is_thread n nt) by done.
  rewrite bind_ASSERT by done.
  rewrite (bind_store n nt) by done.
  rewrite bind_modify. rewrite (bool_decide_eq_true_2 _ (not_eq_sym Hne)).
  set (s2 := with_thread_ticks 0 _).
  assert (Hc2 : threads s2 !! current s = Some c)
    by (subst s2 s1; cbn; by rewrite lookup_insert_ne).
  rewrite (bind_load (current s) c) by done. rewrite bind_gets.
  change (initial_thread s2) with (initial_thread s).
  destruct (bool_decide (status c = THREAD_DYING)
            && bool_decide (Some (current s) <> initial_thread s)) eqn:Hdy.
  - rewrite !bind_modify. eexists. split; [reflexivity|].
    unfold same_globals. subst s2 s1. cbn. by repeat split.
  - rewrite bind_ret, bind_modify. eexists. split; [reflexivity|].
    unfold same_globals. subst s2 s1. cbn. by repeat split.
Qed.

(** [thread_sleep (ticks)] by a thread other than the idle thread, when
    another thread is picked to run. *)
Lemma thread_sleep_spec (s : kstate) (c nt : thread) (n : Z) (rl' : list Z)
    (ticks : Z) :
  threads s !! current s = Some c ->
  magic c = THREAD_MAGIC -> status c = THREAD_RUNNING ->
  in_intr_context s = false ->
  Some (current s) <> idle_thread s ->
  next_pick s = Some (n, rl') ->
  n <> current s ->
  threads s !! n = Some nt -> magic nt = THREAD_MAGIC ->
  exists s',
    thread_sleep ticks s = Ret tt s' /\
    current s' = n /\ ready_list s' = rl' /\
    sleep_list s' = sleep_list s ++ [current s] /\
    next_tick_to_awake s' = Z.min (next_tick_to_awake s) ticks /\
    threads s'
    = <[n := set_status THREAD_RUNNING nt]>
        (<[current s := set_status THREAD_BLOCKED (set_wakeup_tick ticks c)]>
           (threads s)) /\
    destruction_req s' = destruction_req s.
Proof.
  intros Hc Hm Hst Hic Hidle Hpick Hne Hn Hnm.
  unfold thread_sleep, intr_disable, intr_set_level, intr_get_level.
  rewrite bind_assoc, bind_gets, bind_assoc, bind_modify, bind_ret.
  set (s0 := with_intr_level INTR_OFF s).
  rewrite (bind_thread_current c) by done.
  rewrite bind_gets. change (idle_thread s0) with (idle_thread s).
  change (current s0) with (current s).
  rewrite bind_ASSERT by (by apply bool_decide_eq_true_2).
  rewrite (bind_store (current s) c) by done.
  unfold update_next_tick_to_awake. rewrite !bind_modify.
  set (s3 := with_sleep_list _ _).
  unfold thread_block, intr_context, intr_get_level.
  rewrite bind_assoc, bind_gets.
  change (in_intr_context s3) with (in_intr_context s). rewrite Hic.
  rewrite bind_assoc, bind_ASSERT by done.
  rewrite bind_assoc, bind_gets.
  rewrite bind_assoc, bind_ASSERT by done.
  assert (Hc3 : threads s3 !! current s3 = Some (set_wakeup_tick ticks c))
    by (subst s3 s0; cbn; by rewrite lookup_insert_eq).
  rewrite bind_assoc.
  rewrite (bind_thread_current (set_wakeup_tick ticks c)) by done.
  rewrite bind_assoc. rewrite (bind_store _ _ _ _ _ Hc3).
  set (s4 := with_threads _ s3).
  destruct (schedule_spec s4 (set_status THREAD_BLOCKED (set_wakeup_tick ticks c))
              nt n rl')
    as (s' & Hrun & Hcur & Hrl & Htk & Hlvl & Hthr & Hdr & Hsame); try done.
  { subst s4 s3 s0. cbn. by rewrite lookup_insert_eq. }
  { subst s4 s3 s0. cbn. by rewrite !lookup_insert_ne. }
  rewrite (bind_Ret _ _ _ _ _ Hrun). exists s'.
  destruct Hsame as (_ & _ & Hsl & Hnx & _).
  split; [done|]. split; [done|]. split; [done|]. split; [by rewrite Hsl|].
  split; [|split].
  - rewrite Hnx. subst s4 s3 s0. cbn.
    destruct (bool_decide_reflect (next_tick_to_awake s > ticks)); lia.
  - rewrite Hthr. subst s4 s3 s0. cbn. by rewrite insert_insert_eq.
  - rewrite Hdr. by subst s4 s3 s0.
Qed.

(** X6.  A thread that goes to sleep until tick [ticks] is blocked at
    the tail of the sleep list while the next thread runs.  The sweep at
    a tick before [ticks] leaves it asleep and out of the ready list;
    the sweep at [ticks] or later takes it off the sleep list and makes
    it ready. *)
Theorem thread_sleep_wakes_on_time (s : kstate) (c nt : thread) (n : Z)
    (rl' : list Z) (ticks now : Z) :
  threads s !! current s = Some c ->
  magic c = THREAD_MAGIC -> status c = THREAD_RUNNING ->
  in_intr_context s = false ->
  Some (current s) <> idle_thread s ->
  next_pick s = Some (n, rl') ->
  n <> current s ->
  threads s !! n = Some nt -> magic nt = THREAD_MAGIC ->
  NoDup (sleep_list s) ->
  current s ∉ sleep_list s -> n ∉ sleep_list s -> current s ∉ rl' ->
  (forall t, t ∈ sleep_list s ->
     exists th, threads s !! t = Some th /\ magic th = THREAD_MAGIC /\
                status th = THREAD_BLOCKED) ->
  exists s1 s2,
    thread_sleep ticks s = Ret tt s1 /\
    current s1 = n /\
    sleep_list s1 = sleep_list s ++ [current s] /\
    thread_awake now s1 = Ret tt s2 /\
    (now < ticks ->
     current s ∈ sleep_list s2 /\ (current s ∉ ready_list s2) /\
     threads s2 !! current s
     = Some (set_status THREAD_BLOCKED (set_wakeup_tick ticks c))) /\
    (ticks <= now ->
     (current s ∉ sleep_list s2) /\ current s ∈ ready_list s2 /\
     threads s2 !! current s
     = Some (set_status THREAD_READY (set_wakeup_tick ticks c))).
Proof.
  intros Hc Hm Hst Hic Hidle Hpick Hne Hn Hnm Hnd Hcs Hns Hcr Hall.
  destruct (thread_sleep_spec s c nt n rl' ticks)
    as (s1 & Hrun & Hcur & Hrl & Hsl & Hnx & Hthr & Hdr); try done.
  exists s1.
  unfold thread_awake. rewrite bind_modify, bind_gets.
  set (s0 := with_next_tick_to_awake INT64_MAX s1).
  assert (Hcl : threads s0 !! current s
                = Some (set_status THREAD_BLOCKED (set_wakeup_tick ticks c))).
  { subst s0. cbn. rewrite Hthr. rewrite lookup_insert_ne by done.
    by rewrite lookup_insert_eq. }
  destruct (awake_loop_spec now (sleep_list s0) s0)
    as (s2 & Hrun2 & Hsl2 & _ & Hth2 & Hrl2).
  { change (sleep_list s0) with (sleep_list s1). rewrite Hsl.
    apply NoDup_app. split; [done|]. split; [|apply NoDup_singleton].
    intros x Hx Hx'. apply list_elem_of_singleton in Hx' as ->. done. }
  { intros t Ht. change (sleep_list s0) with (sleep_list s1) in Ht.
    rewrite Hsl in Ht. apply elem_of_app in Ht as [Ht|Ht].
    - destruct (Hall t Ht) as (th & Hth & H').
      exists th. split; [|done]. subst s0. cbn. rewrite Hthr.
      rewrite !lookup_insert_ne; [done|intros Heq; by rewrite <- Heq in Ht..].
    - apply list_elem_of_singleton in Ht as ->. by eexists. }
  exists s2. do 4 (split; [done|]).
  assert (Hw : wakeup_of s0 (current s) = ticks)
    by (unfold wakeup_of; by rewrite Hcl).
  assert (Hin : current s ∈ sleep_list s0).
  { change (sleep_list s0) with (sleep_list s1). rewrite Hsl.
    apply elem_of_app. right. left. }
  change (ready_list s0) with (ready_list s1) in Hrl2. rewrite Hrl in Hrl2.
  split.
  - intros Hlt. split; [|split].
    + rewrite Hsl2. apply list_elem_of_filter. split; [|done].
      intros [_ H]. lia.
    + rewrite Hrl2. intros Hx. apply elem_of_app in Hx as [Hx|Hx]; [|done].
      apply list_elem_of_filter in Hx as [Hx _]. lia.
    + rewrite Hth2, decide_False; [done|]. intros [_ H]. lia.
  - intros Hle. split; [|split].
    + rewrite Hsl2. rewrite list_elem_of_filter. intros [H _]. apply H.
      split; [done|lia].
    + rewrite Hrl2. apply elem_of_app. left. apply list_elem_of_filter.
      split; [lia|done].
    + rewrite Hth2, decide_True by (split; [done|lia]). by rewrite Hcl.
Qed.

Lemma thread_sleep_wakes_on_time_witness :
  exists s1 s2,
    thread_sleep 10 boot_state = Ret tt s1 /\
    thread_awake 10 s1 = Ret tt s2 /\
    ready_list s2 = [100] /\ sleep_list s2 = [].
Proof.
  destruct (thread_sleep_wakes_on_time boot_state
              (mkThread 1 THREAD_RUNNING "main" 31 0 31 None [] [200] None 0 0
                 None THREAD_MAGIC)
              (mkThread 2 THREAD_BLOCKED "idle" 0 0 0 None [] [] (Some 900) 2 1
                 (Some (7, 0)) THREAD_MAGIC) 200 [] 10 10
              eq_refl eq_refl eq_refl eq_refl)
    as (s1 & s2 & Hrun1 & _ & _ & Hrun2 & _); try done.
  - apply NoDup_nil_2.
  - apply not_elem_of_nil.
  - apply not_elem_of_nil.
  - apply not_elem_of_nil.
  - intros t Ht. by apply elem_of_nil in Ht.
  - exists s1, s2. split; [exact Hrun1|]. split; [exact Hrun2|].
    vm_compute in Hrun1. injection Hrun1 as <-.
    vm_compute in Hrun2. injection Hrun2 as <-. by split.
Defined.

End SchedSpec.

(** * Donation, further *)

Module DonationSpec.
Import Thread ThreadSpec Sched SchedSpec.

Lemma max_priority_app_ge (s : kstate) (base : Z) (l l' : list Z) :
  max_priority s base l <= max_priority s base (l ++ l').
Proof.
  unfold max_priority. rewrite foldr_app.
  assert (Hb : base <= foldr (fun t acc => Z.max (priority_of s t) acc) base l').
  { induction l' as [|x l' IH]; cbn; lia. }
  revert Hb. generalize (foldr (fun t acc => Z.max (priority_of s t) acc) base l').
  intros b Hb. induction l as [|x l IH]; cbn; lia.
Qed.

Lemma max_priority_ge_base (s : kstate) (base : Z) (l : list Z) :
  base <= max_priority s base l.
Proof. apply (max_priority_app_ge s base [] l). Qed.

(** X7.  After [donate_priority] on an acyclic chain of live objects no
    thread on the chain is outranked by the thread that waits for it:
    priorities do not decrease along
    [current -> holder -> holder's holder -> ...]. *)
Theorem donate_priority_orders_chain (s : kstate) (c : thread) :
  threads s !! current s = Some c ->
  magic c = THREAD_MAGIC -> status c = THREAD_RUNNING ->
  chain_live DONATE_MAX_DEPTH s (current s) ->
  NoDup (current s :: donation_chain DONATE_MAX_DEPTH s (current s)) ->
  exists s',
    donate_priority s = Ret tt s' /\
    forall (i : nat) (a b : Z),
      (current s :: donation_chain DONATE_MAX_DEPTH s (current s)) !! i
      = Some a ->
      (current s :: donation_chain DONATE_MAX_DEPTH s (current s)) !! S i
      = Some b ->
      priority_of s' a <= priority_of s' b.
Proof.
  intros Hc Hm Hst Hlive Hnd. unfold donate_priority.
  rewrite (bind_thread_current c) by done.
  destruct (donate_loop_returns _ _ _ Hlive) as [s' Hrun].
  exists s'. split; [done|].
  destruct (donate_loop_chain _ _ _ _ Hrun) as [_ Hprio].
  specialize (Hprio Hnd).
  assert (Hcur : priority_of s' (current s) = priority_of s (current s)).
  { destruct (donate_loop_frame DONATE_MAX_DEPTH (current s) s (current s) c Hc)
      as (c' & Hc' & _ & _ & Hoff).
    rewrite Hrun in Hc'. cbn [final_state] in Hc'.
    apply NoDup_cons in Hnd as [Hnin _]. specialize (Hoff Hnin). subst c'.
    unfold priority_of. by rewrite Hc, Hc'. }
  clear Hrun Hlive Hnd.
  generalize dependent (donation_chain DONATE_MAX_DEPTH s (current s)).
  intros chain Hprio i a b Ha Hb.
  rewrite lookup_cons in Hb. destruct i as [|i]; rewrite lookup_cons in Ha.
  - injection Ha as <-. rewrite Hcur, (Hprio 0%nat b Hb).
    apply max_priority_ge_base.
  - rewrite (Hprio i a Ha), (Hprio (S i) b Hb).
    rewrite (take_S_r _ _ _ Hb). apply max_priority_app_ge.
Qed.

Lemma donate_priority_orders_chain_witness :
  exists s',
    donate_priority donation_state = Ret tt s' /\
    priority_of s' 200 <= priority_of s' 300.
Proof.
  destruct (donate_priority_orders_chain donation_state
              (mkThread 2 THREAD_RUNNING "tip" 10 0 10 (Some 1) [] [] None 2 1
                 None THREAD_MAGIC) eq_refl eq_refl eq_refl)
    as (s' & Hrun & Hord).
  { cbn. eexists _, _. split; [reflexivity|]. split; [reflexivity|].
    split; [by eexists|]. cbn.
    eexists _, _. split; [reflexivity|]. split; [reflexivity|].
    split; [by eexists|]. cbn. exact I. }
  { apply (bool_decide_unpack _). vm_compute. exact I. }
  exists s'. split; [exact Hrun|]. by apply (Hord 1%nat).
Defined.

(** The loop of [remove_with_lock] keeps, in order, the donors that do
    not wait for the lock. *)
Lemma remove_with_lock_loop_spec (lock : Z) (s : kstate) (l : list Z) :
  (forall d, d ∈ l -> is_Some (threads s !! d)) ->
  remove_with_lock_loop lock l s
  = Ret (filter (fun d => threads s !! d ≫= wait_on_lock <> Some lock) l) s.
Proof.
  induction l as [|d l IH]; intros Hlive; [done|].
  cbn [remove_with_lock_loop].
  destruct (Hlive d ltac:(left)) as [th Hth].
  rewrite (bind_load d th) by done.
  rewrite (bind_Ret _ _ _ _ _ (IH ltac:(intros x Hx; apply Hlive; by right))).
  case_bool_decide as Hw.
  - rewrite filter_cons_False; [done|]. rewrite Hth. cbn. by intros H.
  - rewrite filter_cons_True; [done|]. by rewrite Hth.
Qed.

(** X8.  [remove_with_lock (lock)] takes out of the running thread's
    donation list exactly the donors that wait for [lock]; the others
    stay, in their order, and nothing else in the kernel changes (no
    priority in particular). *)
Theorem remove_with_lock_filter (s : kstate) (c : thread) (lock : Z) :
  threads s !! current s = Some c ->
  magic c = THREAD_MAGIC -> status c = THREAD_RUNNING ->
  (forall d, d ∈ donations c -> is_Some (threads s !! d)) ->
  remove_with_lock lock s
  = Ret tt
      (with_threads
         (<[current s :=
              set_donations
                (filter (fun d => threads s !! d ≫= wait_on_lock <> Some lock)
                   (donations c)) c]> (threads s)) s).
Proof.
  intros Hc Hm Hst Hlive. unfold remove_with_lock.
  rewrite (bind_thread_current c) by done.
  rewrite (bind_load _ c) by done.
  rewrite (bind_Ret _ _ _ _ _ (remove_with_lock_loop_spec lock s _ Hlive)).
  by rewrite (store_Some s _ c).
Qed.

Lemma remove_with_lock_filter_witness :
  exists s',
    remove_with_lock 1 release_state = Ret tt s' /\
    donations <$> threads s' !! 100 = Some [300].
Proof.
  eexists. split.
  - apply (remove_with_lock_filter release_state
             (mkThread 2 THREAD_RUNNING "holder" 33 0 20 None [200; 300] []
                None 2 1 None THREAD_MAGIC)); try done.
    intros d Hd. apply elem_of_cons in Hd as [->|Hd]; [by eexists|].
    apply elem_of_cons in Hd as [->|Hd]; [by eexists|].
    by apply elem_of_nil in Hd.
  - vm_compute. reflexivity.
Defined.

(** What [refresh_priority] computes, for a thread whose donors are
    live. *)
Lemma refresh_priority_eval (s : kstate) (c : thread) :
  threads s !! current s = Some c ->
  magic c = THREAD_MAGIC -> status c = THREAD_RUNNING ->
  (forall d, d ∈ donations c -> is_Some (threads s !! d)) ->
  refresh_priority s
  = Ret tt
      (let c1 := set_priority (init_priority c) c in
       let s1 := with_threads (<[current s := c1]> (threads s)) s in
       let sorted :=
         list_sort (thread_compare_donate_priority s1) (donations c) in
       match sorted with
       | [] => s1
       | front :: _ =>
           with_threads
             (<[current s :=
                  (if decide (priority_of s1 front > init_priority c)
                   then set_priority (priority_of s1 front)
                   else fun x => x) (set_donations sorted c1)]> (threads s)) s
       end).
Proof.
  intros Hc Hm Hst Hdon. cbv zeta.
  unfold refresh_priority.
  rewrite (bind_thread_current c) by done.
  rewrite (bind_store _ c) by done.
  set (c1 := set_priority (init_priority c) c).
  set (s1 := with_threads (<[current s := c1]> (threads s)) s).
  assert (Hc1 : threads s1 !! current s = Some c1)
    by (subst s1; cbn; by rewrite lookup_insert_eq).
  rewrite (bind_load _ c1) by done.
  change (donations c1) with (donations c).
  pose proof (list_sort_perm (thread_compare_donate_priority s1) (donations c))
    as Hperm.
  destruct (donations c) as [|d ds] eqn:Hds; [done|].
  rewrite <- Hds in *. rewrite bind_gets.
  destruct (list_sort (thread_compare_donate_priority s1) (donations c))
    as [|front rest] eqn:Hsort.
  { exfalso. apply Permutation_nil_l in Hperm. congruence. }
  rewrite (bind_store _ c1) by done.
  set (c2 := set_donations (front :: rest) c1).
  set (s2 := with_threads _ s1).
  assert (Hs2 : s2 = with_threads (<[current s := c2]> (threads s)) s).
  { subst s2 s1. cbn. by rewrite insert_insert_eq. }
  rewrite Hs2. clear s2 Hs2.
  set (s2 := with_threads (<[current s := c2]> (threads s)) s).
  assert (Hc2 : threads s2 !! current s = Some c2)
    by (subst s2; cbn; by rewrite lookup_insert_eq).
  assert (Hfin : front ∈ donations c) by (rewrite <- Hperm; left).
  assert (Hf : exists f, threads s2 !! front = Some f /\
                         priority f = priority_of s1 front).
  { unfold priority_of. subst s2 s1. cbn.
    destruct (decide (front = current s)) as [->|Hx].
    - rewrite !lookup_insert_eq. by exists c2.
    - rewrite !lookup_insert_ne by done.
      destruct (Hdon front Hfin) as [f Hf]. rewrite Hf. by exists f. }
  destruct Hf as (f & Hf & Hpf).
  rewrite (bind_load _ f) by done. rewrite (bind_load _ c2) by done.
  change (priority c2) with (init_priority c). rewrite Hpf.
  case_bool_decide as Hgt.
  - rewrite (store_Some s2 _ c2) by done. rewrite decide_True by done.
    subst s2. cbn. by rewrite insert_insert_eq.
  - rewrite decide_False by done. done.
Qed.

(** X9.  [refresh_priority] is idempotent: run again on the state it
    has produced, it returns that very state. *)
Theorem refresh_priority_idempotent (s : kstate) (c : thread) :
  threads s !! current s = Some c ->
  magic c = THREAD_MAGIC -> status c = THREAD_RUNNING ->
  (forall d, d ∈ donations c -> is_Some (threads s !! d)) ->
  exists s',
    refresh_priority s = Ret tt s' /\ refresh_priority s' = Ret tt s'.
Proof.
  intros Hc Hm Hst Hdon.
  rewrite (refresh_priority_eval s c) by done. cbv zeta.
  set (c1 := set_priority (init_priority c) c).
  set (s1 := with_threads (<[current s := c1]> (threads s)) s).
  set (cmp := thread_compare_donate_priority s1).
  pose proof (list_sort_perm cmp (donations c)) as Hperm.
  assert (Hcmp : forall a b,
            cmp a b = bool_decide (priority_of s1 a > priority_of s1 b)) by done.
  pose proof (list_sort_sorted _ _ Hcmp (donations c)) as Hsorted.
  assert (Hp1 : forall x, priority_of s1 x =
            if decide (x = current s) then init_priority c
            else priority_of s x) by (intros x; apply priority_of_insert).
  (* a second run from a state that differs from [s] in the running
     thread's priority and in the order of its donors *)
  assert (Hagain : forall c' : thread,
    donations c' = list_sort cmp (donations c) ->
    set_priority (init_priority c) c' = set_donations (donations c') c1 ->
    init_priority c' = init_priority c ->
    magic c' = THREAD_MAGIC -> status c' = THREAD_RUNNING ->
    refresh_priority (with_threads (<[current s := c']> (threads s)) s)
    = Ret tt
        (match list_sort cmp (donations c) with
         | [] => with_threads (<[current s := set_donations [] c1]> (threads s)) s
         | front :: _ =>
             with_threads
               (<[current s :=
                    (if decide (priority_of s1 front > init_priority c)
                     then set_priority (priority_of s1 front)
                     else fun x => x)
                      (set_donations (list_sort cmp (donations c)) c1)]>
                  (threads s)) s
         end)).
  { intros c' Hd' Hc1' Hi' Hm' Hst'.
    set (s' := with_threads (<[current s := c']> (threads s)) s).
    assert (Hc' : threads s' !! current s' = Some c')
      by (subst s'; cbn; by rewrite lookup_insert_eq).
    rewrite (refresh_priority_eval s' c' Hc' Hm' Hst').
    2:{ intros d Hd. rewrite Hd', Hperm in Hd. subst s'. cbn.
        destruct (decide (d = current s)) as [->|Hx].
        - rewrite lookup_insert_eq. by eexists.
        - rewrite lookup_insert_ne by done. by apply Hdon. }
    cbv zeta. change (current s') with (current s).
    change (threads s') with (<[current s := c']> (threads s)).
    rewrite !insert_insert_eq. rewrite Hi', Hc1'.
    set (s1' := with_threads _ s').
    assert (Hp1' : forall x, priority_of s1' x = priority_of s1 x).
    { intros x. unfold priority_of. subst s1' s' s1. cbn.
      destruct (decide (x = current s)) as [->|Hx].
      - by rewrite !lookup_insert_eq.
      - by rewrite !lookup_insert_ne. }
    rewrite (list_sort_ext (thread_compare_donate_priority s1') cmp)
      by (intros a b; unfold thread_compare_donate_priority;
          by rewrite !Hp1', Hcmp).
    rewrite Hd'. rewrite (list_sort_sorted_id cmp) by done.
    destruct (list_sort cmp (donations c)) as [|front rest] eqn:Hsort'.
    - subst s1' s'. rewrite Hd'. by rewrite ?Hsort'.
    - rewrite Hp1'. subst s1' s'. by rewrite insert_insert_eq. }
  destruct (list_sort cmp (donations c)) as [|front rest] eqn:Hsort.
  - eexists. split; [done|].
    assert (Hd0 : donations c = []) by (symmetry; by apply Permutation_nil_l).
    assert (Hc10 : set_donations [] c1 = c1).
    { subst c1. destruct c. cbn in *. by subst. }
    subst s1. rewrite (Hagain c1).
    + by rewrite Hc10.
    + done.
    + change (donations c1) with (donations c). rewrite Hd0, Hc10.
      subst c1. apply set_priority_twice.
    + done.
    + done.
    + done.
  - eexists. split; [done|].
    case_decide as Hgt; by rewrite Hagain.
Qed.

Lemma refresh_priority_idempotent_witness :
  exists s',
    refresh_priority refresh_state = Ret tt s' /\
    refresh_priority s' = Ret tt s' /\
    priority_of s' 100 = 33.
Proof.
  destruct (refresh_priority_idempotent refresh_state
              (mkThread 2 THREAD_RUNNING "holder" 35 0 20 None [200; 300] []
                 None 2 1 None THREAD_MAGIC) eq_refl eq_refl eq_refl)
    as (s' & Hrun & Hrun').
  { intros d Hd. apply elem_of_cons in Hd as [->|Hd]; [by eexists|].
    apply elem_of_cons in Hd as [->|Hd]; [by eexists|].
    by apply elem_of_nil in Hd. }
  exists s'. split; [exact Hrun|]. split; [exact Hrun'|].
  vm_compute in Hrun. injection Hrun as <-. reflexivity.
Defined.

End DonationSpec.

(** * Priority changes and thread creation *)

Module CreateSpec.
Import Thread ThreadSpec Sched SchedSpec DonationSpec.

(** [test_max_priority] when no ready thread outranks the running
    thread (or in an interrupt handler): nothing happens. *)
Lemma test_max_priority_keeps (s : kstate) (c : thread) :
  threads s !! current s = Some c ->
  magic c = THREAD_MAGIC -> status c = THREAD_RUNNING ->
  (forall e, head (ready_list s) = Some e ->
     exists th, threads s !! e = Some th /\ priority th <= priority c) ->
  test_max_priority s = Ret tt s.
Proof.
  intros Hc Hm Hst Hfront. unfold test_max_priority, intr_context.
  rewrite bind_gets. destruct (in_intr_context s); [done|].
  rewrite bind_gets. destruct (ready_list s) as [|e rl]; [done|].
  destruct (Hfront e eq_refl) as (th & He & Hle).
  rewrite (bind_thread_current c) by done.
  rewrite (bind_load _ c) by done. rewrite (bind_load _ th) by done.
  by rewrite bool_decide_eq_false_2 by lia.
Qed.

(** [test_max_priority] when the front of the ready list outranks the
    running thread: the running thread yields. *)
Lemma test_max_priority_yields (s : kstate) (c nt : thread) (n : Z)
    (rl : list Z) :
  threads s !! current s = Some c ->
  magic c = THREAD_MAGIC -> status c = THREAD_RUNNING ->
  in_intr_context s = false ->
  ready_list s = n :: rl ->
  threads s !! n = Some nt -> priority c < priority nt ->
  test_max_priority s = thread_yield s.
Proof.
  intros Hc Hm Hst Hic Hrl Hn Hlt. unfold test_max_priority, intr_context.
  rewrite bind_gets, Hic, bind_gets, Hrl.
  rewrite (bind_thread_current c) by done.
  rewrite (bind_load _ c) by done. rewrite (bind_load _ nt) by done.
  by rewrite bool_decide_eq_true_2 by lia.
Qed.

(** X10.  [thread_set_priority (p)] by a thread without donors that stays
    at least as high as the front of the ready list: base and effective
    priority become [p], the thread keeps running, and nothing else
    changes. *)
Theorem thread_set_priority_keeps_running (s : kstate) (c : thread) (p : Z) :
  threads s !! current s = Some c ->
  magic c = THREAD_MAGIC -> status c = THREAD_RUNNING ->
  donations c = [] ->
  (forall e, head (ready_list s) = Some e -> e <> current s /\
     exists th, threads s !! e = Some th /\ priority th <= p) ->
  thread_set_priority p s
  = Ret tt
      (with_threads
         (<[current s := set_priority p (set_init_priority p c)]> (threads s))
         s).
Proof.
  intros Hc Hm Hst Hd Hfront. unfold thread_set_priority.
  rewrite (bind_thread_current c) by done.
  rewrite (bind_store _ c) by done.
  set (s1 := with_threads _ s).
  assert (Hc1 : threads s1 !! current s1 = Some (set_init_priority p c))
    by (subst s1; cbn; by rewrite lookup_insert_eq).
  rewrite (bind_Ret _ _ _ _ _
             (refresh_priority_eval s1 (set_init_priority p c) Hc1 Hm Hst
                ltac:(intros d Hx; cbn in Hx; rewrite Hd in Hx;
                      by apply elem_of_nil in Hx))).
  cbv zeta. cbn [donations set_init_priority]. rewrite Hd. cbn [list_sort foldr].
  subst s1. cbn [threads with_threads current]. rewrite insert_insert_eq.
  cbn [init_priority set_init_priority].
  set (c2 := set_priority p _). set (s2 := with_threads _ _).
  assert (Hs2 : s2 = with_threads (<[current s := c2]> (threads s)) s) by done.
  rewrite Hs2. clear s2 Hs2.
  apply (test_max_priority_keeps _ c2); [by cbn; rewrite lookup_insert_eq|done..|].
  intros e He. cbn in He. destruct (Hfront e He) as (Hne & th & Hth & Hle).
  exists th. split; [|done]. cbn. by rewrite lookup_insert_ne.
Qed.

Lemma thread_set_priority_keeps_running_witness :
  exists s',
    thread_set_priority 31 round_robin_state = Ret tt s' /\
    current s' = 100 /\ ready_list s' = [200; 300].
Proof.
  eexists. split.
  - apply (thread_set_priority_keeps_running round_robin_state
             (mkThread 1 THREAD_RUNNING "main" 31 0 31 None [] [200; 300] None
                0 0 None THREAD_MAGIC)); try done.
    intros e [= <-]. split; [done|]. eexists. split; [reflexivity|]. cbn. lia.
  - by split.
Defined.

(** X11.  [thread_set_priority (p)] by a thread without donors, with [p]
    below the priority of the front of the ready list: the thread gives
    up the processor at once.  The front thread runs, and the caller is
    ready, with base and effective priority [p], and queued. *)
Theorem thread_set_priority_yields (s : kstate) (c nt : thread) (n : Z)
    (rl : list Z) (p : Z) :
  threads s !! current s = Some c ->
  magic c = THREAD_MAGIC -> status c = THREAD_RUNNING ->
  donations c = [] ->
  in_intr_context s = false ->
  Some (current s) <> idle_thread s ->
  current s ∉ destruction_req s ->
  ready_list s = n :: rl ->
  n <> current s -> n ∉ destruction_req s ->
  threads s !! n = Some nt -> magic nt = THREAD_MAGIC ->
  p < priority nt ->
  exists s',
    thread_set_priority p s = Ret tt s' /\
    current s' = n /\
    threads s' !! n = Some (set_status THREAD_RUNNING nt) /\
    threads s' !! current s
    = Some (set_status THREAD_READY (set_priority p (set_init_priority p c))) /\
    current s ∈ ready_list s' /\
    ready_list s' ≡ₚ current s :: rl.
Proof.
  intros Hc Hm Hst Hd Hic Hidle Hcd Hrl Hne Hnd Hn Hnm Hlt.
  unfold thread_set_priority.
  rewrite (bind_thread_current c) by done.
  rewrite (bind_store _ c) by done.
  set (s1 := with_threads _ s).
  assert (Hc1 : threads s1 !! current s1 = Some (set_init_priority p c))
    by (subst s1; cbn; by rewrite lookup_insert_eq).
  rewrite (bind_Ret _ _ _ _ _
             (refresh_priority_eval s1 (set_init_priority p c) Hc1 Hm Hst
                ltac:(intros d Hx; cbn in Hx; rewrite Hd in Hx;
                      by apply elem_of_nil in Hx))).
  cbv zeta. cbn [donations set_init_priority]. rewrite Hd. cbn [list_sort foldr].
  subst s1. cbn [threads with_threads current]. rewrite insert_insert_eq.
  cbn [init_priority set_init_priority].
  set (c2 := set_priority p _). set (s2 := with_threads _ _).
  assert (Hs2 : s2 = with_threads (<[current s := c2]> (threads s)) s) by done.
  rewrite Hs2. clear s2 Hs2.
  set (s2 := with_threads (<[current s := c2]> (threads s)) s).
  assert (Hc2 : threads s2 !! current s2 = Some c2)
    by (subst s2; cbn; by rewrite lookup_insert_eq).
  assert (Hn2 : threads s2 !! n = Some nt)
    by (subst s2; cbn; by rewrite lookup_insert_ne).
  rewrite (test_max_priority_yields s2 c2 nt n rl) by done.
  assert (Hq : list_insert_ordered (thread_compare_priority s2) (current s2)
                 (ready_list s2)
               = n :: list_insert_ordered (thread_compare_priority s2)
                        (current s) rl).
  { change (ready_list s2) with (ready_list s). rewrite Hrl. cbn.
    unfold thread_compare_priority at 1, priority_of.
    change (current s2) with (current s) in *. rewrite Hc2, Hn2.
    by rewrite bool_decide_eq_false_2 by (cbn; lia). }
  destruct (thread_yield_spec s2 c2 nt n _ Hc2 Hm Hst Hic Hidle Hcd Hq Hnd Hn2 Hnm)
    as (s' & Hrun & Hcur & Hrl' & _ & Hthr & _).
  exists s'. split; [done|]. split; [done|].
  change (current s2) with (current s) in Hthr.
  split; [|split; [|split]].
  - by rewrite Hthr, lookup_insert_eq.
  - rewrite Hthr. rewrite lookup_insert_ne by done.
    by rewrite lookup_insert_eq.
  - rewrite Hrl', list_insert_ordered_perm. left.
  - rewrite Hrl'. apply list_insert_ordered_perm.
Qed.

Lemma thread_set_priority_yields_witness :
  exists s',
    thread_set_priority 10 round_robin_state = Ret tt s' /\
    current s' = 200 /\ ready_list s' = [300; 100].
Proof.
  destruct (thread_set_priority_yields round_robin_state
              (mkThread 1 THREAD_RUNNING "main" 31 0 31 None [] [200; 300] None
                 0 0 None THREAD_MAGIC)
              (mkThread 2 THREAD_READY "a" 31 0 31 None [] [] (Some 900) 2 1
                 (Some (7, 0)) THREAD_MAGIC) 200 [300] 10
              eq_refl eq_refl eq_refl eq_refl eq_refl)
    as (s' & Hrun & _); try done.
  - apply (bool_decide_unpack _). vm_compute. exact I.
  - apply (bool_decide_unpack _). vm_compute. exact I.
  - exists s'. split; [exact Hrun|].
    vm_compute in Hrun. injection Hrun as <-. by split.
Defined.

(** X12.  [thread_create] is fatal, before anything is changed, when the
    thread function is [NULL] or, a page being granted, when the
    priority is outside [PRI_MIN .. PRI_MAX]. *)
Theorem thread_create_bad_argument (nm : string) (prio aux : Z)
    (function page fdt_page : option Z) (s : kstate) :
  function = None \/
  (is_Some page /\ (prio < PRI_MIN \/ PRI_MAX < prio)) ->
  thread_create nm prio function aux page fdt_page s = Panic s.
Proof.
  intros [->|[[t ->] Hp]]; [done|].
  destruct function as [fn|]; [|done].
  unfold thread_create, init_thread.
  rewrite bind_assoc, bind_ASSERT_false; [done|].
  apply andb_false_iff.
  destruct Hp; [left|right]; apply bool_decide_eq_false_2; lia.
Qed.

Lemma thread_create_bad_argument_witness :
  thread_create "worker" 64 (Some 5) 0 (Some 300) (Some 400) boot_state
  = Panic boot_state.
Proof.
  apply thread_create_bad_argument. right. split; [by eexists|].
  right. unfold PRI_MAX. lia.
Defined.

(** X13.  [thread_create] with both allocations granted, for a new thread
    that outranks neither its creator nor, the creator, the front of
    the ready list: the call returns the next tid and advances the tid
    counter; the new thread is ready with [prio] as base and effective
    priority, an empty donation list, descriptors 0 and 1 reserved;
    it is the last child of its creator and is queued in priority
    order; the creator keeps running. *)
Theorem thread_create_queues_child (s : kstate) (c : thread) (nm : string)
    (prio fn aux t f : Z) :
  PRI_MIN <= prio <= PRI_MAX ->
  threads s !! current s = Some c ->
  magic c = THREAD_MAGIC -> status c = THREAD_RUNNING ->
  threads s !! t = None -> t ∉ ready_list s ->
  prio <= priority c ->
  (forall e, head (ready_list s) = Some e ->
     exists th, threads s !! e = Some th /\ priority th <= priority c) ->
  exists s',
    thread_create nm prio (Some fn) aux (Some t) (Some f) s
    = Ret (next_tid s) s' /\
    next_tid s' = next_tid s + 1 /\
    current s' = current s /\
    cur_intr_level s' = cur_intr_level s /\
    threads s'
    = <[t := mkThread (next_tid s) THREAD_READY (String.substring 0 15 nm)
               prio 0 prio None [] [] (Some f) 2 1 (Some (fn, aux))
               THREAD_MAGIC]>
        (<[current s := set_children (children c ++ [t]) c]> (threads s)) /\
    fdt_pages s' = <[f := <[1%nat := 11]> (<[0%nat := 10]> ∅)]> (fdt_pages s) /\
    ready_list s'
    = list_insert_ordered (fun _ e => bool_decide (prio > priority_of s e)) t
        (ready_list s) /\
    sleep_list s' = sleep_list s /\ destruction_req s' = destruction_req s.
Proof.
  intros Hprio Hc Hm Hst Ht Htr Hle Hfront.
  assert (Hne : t <> current s) by (intros ->; congruence).
  unfold thread_create, init_thread.
  rewrite bind_assoc, bind_ASSERT
    by (apply andb_true_iff; split; apply bool_decide_eq_true_2; lia).
  rewrite bind_modify. unfold allocate_tid.
  rewrite bind_assoc, bind_gets, bind_assoc, bind_modify, bind_ret.
  set (T0 := mkThread 0 _ _ _ _ _ _ _ _ _ _ _ _ _).
  set (s1 := with_next_tid _ _).
  assert (Ht1 : threads s1 !! t = Some T0)
    by (subst s1; cbn; by rewrite lookup_insert_eq).
  rewrite (bind_store t T0) by done.
  set (s2 := with_threads _ s1).
  assert (Hc2 : threads s2 !! current s2 = Some c).
  { subst s2 s1. cbn. by rewrite !lookup_insert_ne. }
  rewrite (bind_thread_current c) by done.
  rewrite (bind_store _ c) by done.
  set (s3 := with_threads _ s2).
  assert (Ht3 : threads s3 !! t = Some (set_tid (next_tid s) T0)).
  { subst s3 s2 s1. cbn. rewrite lookup_insert_ne by done.
    by rewrite lookup_insert_eq. }
  rewrite (bind_store t _ _ _ _ Ht3).
  rewrite bind_modify.
  set (s4 := with_fdt_pages _ _).
  assert (Ht4 : threads s4 !! t
                = Some (set_fdt (Some f) (set_tid (next_tid s) T0)))
    by (subst s4; cbn; by rewrite lookup_insert_eq).
  rewrite (bind_store t _ _ _ _ Ht4).
  set (s5 := with_threads _ s4).
  assert (Ht5 : threads s5 !! t
                = Some (set_fd_bounds 2 1
                          (set_fdt (Some f) (set_tid (next_tid s) T0))))
    by (subst s5; cbn; by rewrite lookup_insert_eq).
  rewrite (bind_store t _ _ _ _ Ht5).
  set (s6 := with_threads _ s5).
  set (T6 := set_tf_call (Some (fn, aux)) _) in *.
  assert (Ht6 : threads s6 !! t = Some T6)
    by (subst s6; cbn; by rewrite lookup_insert_eq).
  rewrite (bind_Ret _ _ _ _ _
             (thread_unblock_spec s6 t T6 Ht6 eq_refl eq_refl)).
  set (s7 := with_threads (<[t := set_status THREAD_READY T6]> _) _).
  assert (Hthr7 : threads s7
            = <[t := set_status THREAD_READY T6]>
                (<[current s := set_children (children c ++ [t]) c]>
                   (threads s))).
  { subst s7 s6 s5 s4 s3 s2 s1. cbn. apply map_eq. intros k.
    destruct (decide (k = t)) as [->|Hk].
    - by rewrite !lookup_insert_eq.
    - destruct (decide (k = current s)) as [->|Hkc];
        repeat (rewrite lookup_insert_eq || rewrite lookup_insert_ne by done);
        done. }
  assert (Hrl7 : ready_list s7
            = list_insert_ordered
                (fun _ e => bool_decide (prio > priority_of s e)) t
                (ready_list s)).
  { subst s7. cbn [ready_list with_threads with_ready_list].
    change (ready_list s6) with (ready_list s).
    apply list_insert_ordered_ext_in. intros e He.
    unfold thread_compare_priority, priority_of. rewrite Ht6.
    assert (Het : e <> t) by (by intros ->).
    subst s6 s5 s4 s3 s2 s1. cbn. rewrite !(lookup_insert_ne _ t e) by done.
    destruct (decide (e = current s)) as [->|Hec].
    - rewrite lookup_insert_eq, Hc. done.
    - by rewrite !lookup_insert_ne by done. }
  assert (Hkeep : test_max_priority s7 = Ret tt s7).
  { apply (test_max_priority_keeps s7 (set_children (children c ++ [t]) c));
      [|done..|].
    - rewrite Hthr7. subst s7 s6 s5 s4 s3 s2 s1. cbn.
      rewrite lookup_insert_ne by done. by rewrite lookup_insert_eq.
    - intros e He. rewrite Hrl7 in He. rewrite Hthr7. cbn [priority set_children].
      destruct (ready_list s) as [|e0 rl] eqn:Hrl.
      + cbn in He. injection He as <-. rewrite lookup_insert_eq.
        eexists. split; [done|]. cbn. lia.
      + destruct (Hfront e0 eq_refl) as (th0 & Hth0 & Hle0).
        cbn in He. unfold priority_of in He. rewrite Hth0 in He.
        case_bool_decide.
        * injection He as <-. rewrite lookup_insert_eq.
          eexists. split; [done|]. cbn. lia.
        * injection He as <-.
          assert (Het : e0 <> t) by (intros ->; apply Htr; left).
          rewrite lookup_insert_ne by done.
          destruct (decide (e0 = current s)) as [->|Hec].
          -- rewrite lookup_insert_eq. eexists. split; [done|]. cbn.
             rewrite Hc in Hth0. injection Hth0 as <-. lia.
          -- rewrite lookup_insert_ne by done. by exists th0. }
  rewrite (bind_Ret _ _ _ _ _ Hkeep). unfold ret.
  exists s7. split; [done|]. rewrite Hthr7, Hrl7.
  subst s7 s6 s5 s4 s3 s2 s1. cbn. by repeat split.
Qed.

Lemma thread_create_queues_child_witness :
  exists s',
    thread_create "worker" 31 (Some 5) 0 (Some 300) (Some 400) boot_state
    = Ret 3 s' /\
    next_tid s' = 4 /\ ready_list s' = [300].
Proof.
  destruct (thread_create_queues_child boot_state
              (mkThread 1 THREAD_RUNNING "main" 31 0 31 None [] [200] None 0 0
                 None THREAD_MAGIC) "worker" 31 5 0 300 400)
    as (s' & Hrun & Htid & _ & _ & _ & _ & Hrl & _); try done.
  - apply not_elem_of_nil.
  - exists s'. by repeat split.
Defined.

(** X14.  [thread_init], run with interrupts off, makes a thread of the
    running code: the thread [main] at the page of the running stack,
    running, with priority [PRI_DEFAULT] and the next tid; it is the
    initial thread, the three scheduler lists are empty, and from then
    on [thread_current] succeeds.  Run with interrupts on it is fatal. *)
Theorem thread_init_makes_main (s : kstate) :
  (cur_intr_level s = INTR_ON -> thread_init s = Panic s) /\
  (cur_intr_level s = INTR_OFF ->
   exists s',
     thread_init s = Ret tt s' /\
     threads s'
     = <[current s := mkThread (next_tid s) THREAD_RUNNING "main" PRI_DEFAULT
                        0 PRI_DEFAULT None [] [] None 0 0 None THREAD_MAGIC]>
         (threads s) /\
     initial_thread s' = Some (current s) /\ current s' = current s /\
     next_tid s' = next_tid s + 1 /\
     ready_list s' = [] /\ sleep_list s' = [] /\ destruction_req s' = [] /\
     thread_current s' = Ret (current s) s').
Proof.
  split; intros Hlvl; unfold thread_init, intr_get_level;
    rewrite bind_gets, Hlvl; [done|].
  rewrite bind_ASSERT by done.
  rewrite !bind_modify. unfold running_thread. rewrite bind_gets, bind_modify.
  unfold init_thread. rewrite bind_assoc, bind_ASSERT by done.
  rewrite bind_modify.
  set (T0 := mkThread 0 _ _ _ _ _ _ _ _ _ _ _ _ _).
  cbn [current threads with_sleep_list with_destruction_req with_ready_list
         with_initial_thread].
  set (s1 := with_threads (<[current s := T0]> _) _).
  assert (H1 : threads s1 !! current s = Some T0)
    by (subst s1; cbn; by rewrite lookup_insert_eq).
  rewrite (bind_store (current s) T0) by done.
  unfold allocate_tid.
  rewrite bind_assoc, bind_gets, bind_assoc, bind_modify, bind_ret.
  set (s2 := with_next_tid _ _).
  assert (H2 : threads s2 !! current s = Some (set_status THREAD_RUNNING T0))
    by (subst s2; cbn; by rewrite lookup_insert_eq).
  rewrite (store_Some s2 _ _ _ H2).
  set (sF := with_threads _ s2).
  assert (HF : threads sF
               = <[current s := set_tid (next_tid s)
                                  (set_status THREAD_RUNNING T0)]> (threads s))
    by (subst sF s2 s1; cbn; by rewrite !insert_insert_eq).
  exists sF. split; [done|]. split; [by rewrite HF|].
  do 6 (split; [done|]).
  apply (thread_current_ok sF
           (set_tid (next_tid s) (set_status THREAD_RUNNING T0)));
    [|done..].
  rewrite HF. apply lookup_insert_eq.
Qed.

Lemma thread_init_makes_main_witness :
  exists s',
    thread_init (static_init 100) = Ret tt s' /\
    tid <$> threads s' !! 100 = Some 1 /\
    thread_current (static_init 100) = Panic (static_init 100) /\
    thread_current s' = Ret 100 s'.
Proof.
  destruct (proj2 (thread_init_makes_main (static_init 100)) eq_refl)
    as (s' & Hrun & Hthr & _ & _ & _ & _ & _ & _ & Hcur).
  exists s'. split; [exact Hrun|]. split; [by rewrite Hthr|].
  split; [reflexivity|exact Hcur].
Defined.

End CreateSpec.

(** * The timer tick *)

Module TickSpec.
Import Thread ThreadSpec Tick.

(** X15.  Time slices: [k] ticks in a row, counted from a slice that has
    run [n0] ticks, leave [thread_ticks] at [n0 + k] and change nothing
    else in the scheduler; each tick is booked on exactly one of the
    three counters; and a yield is requested as soon as, and from then
    on whenever, the count reaches [TIME_SLICE = 4]. *)
Theorem thread_tick_time_slice (k : nat) (ts : tick_state) (c : thread) :
  threads (ks ts) !! current (ks ts) = Some c ->
  magic c = THREAD_MAGIC -> status c = THREAD_RUNNING ->
  0 <= thread_ticks (ks ts) ->
  thread_ticks (ks ts) + Z.of_nat k < 2 ^ 32 ->
  exists ts',
    thread_ticks_run k ts = Some ts' /\
    ks ts'
    = (if k is O then ks ts
       else with_thread_ticks (thread_ticks (ks ts) + Z.of_nat k) (ks ts)) /\
    idle_ticks ts' + kernel_ticks ts' + user_ticks ts'
    = idle_ticks ts + kernel_ticks ts + user_ticks ts + Z.of_nat k /\
    idle_ticks ts <= idle_ticks ts' /\ kernel_ticks ts <= kernel_ticks ts' /\
    user_ticks ts <= user_ticks ts' /\
    yield_on_return ts'
    = yield_on_return ts
      || bool_decide (0 < Z.of_nat k /\
                      TIME_SLICE <= thread_ticks (ks ts) + Z.of_nat k).
Proof.
  revert ts. induction k as [|k IH]; intros ts Hc Hm Hst H0 Hlt.
  { exists ts. cbn. repeat split; try lia.
    rewrite bool_decide_eq_false_2 by lia. by rewrite orb_false_r. }
  cbn [thread_ticks_run]. unfold thread_tick.
  rewrite (thread_current_ok _ c Hc Hm Hst). cbv zeta.
  rewrite Z.mod_small by lia.
  set (n := thread_ticks (ks ts) + 1).
  match goal with
  | |- context [match (if ?b then Some ?x else Some ?y) with _ => _ end] =>
      assert (Hstep : exists ts1,
        (if b then Some x else Some y) = Some ts1 /\
        ks ts1 = with_thread_ticks n (ks ts) /\
        idle_ticks ts1 + kernel_ticks ts1 + user_ticks ts1
        = idle_ticks ts + kernel_ticks ts + user_ticks ts + 1 /\
        idle_ticks ts <= idle_ticks ts1 /\
        kernel_ticks ts <= kernel_ticks ts1 /\
        user_ticks ts <= user_ticks ts1 /\
        yield_on_return ts1
        = yield_on_return ts || bool_decide (TIME_SLICE <= n))
  end.
  { unfold TIME_SLICE.
    destruct (bool_decide_reflect (n >= 4)) as [Hn|Hn];
      eexists; (split; [reflexivity|]);
      [rewrite (bool_decide_eq_true_2 (4 <= n)) by lia
      |rewrite (bool_decide_eq_false_2 (4 <= n)) by lia];
      rewrite ?orb_true_r, ?orb_false_r;
      repeat case_bool_decide; cbn; repeat split; try lia. }
  destruct Hstep as (ts1 & -> & Hks & Hsum & Hi & Hk & Hu & Hy).
  destruct (IH ts1) as (ts' & Hrun & Hks' & Hsum' & Hi' & Hk' & Hu' & Hy').
  - by rewrite Hks.
  - done.
  - done.
  - rewrite Hks. cbn. lia.
  - rewrite Hks. cbn. lia.
  - exists ts'. split; [done|]. rewrite Hks in Hks', Hy'. cbn in Hks', Hy'.
    split; [|repeat split; try lia].
    + rewrite Hks'. subst n.
      destruct k; unfold with_thread_ticks; cbn; f_equal; lia.
    + rewrite Hy', Hy. rewrite <- orb_assoc. f_equal.
      subst n. unfold TIME_SLICE. repeat case_bool_decide; try done; lia.
Qed.

Lemma thread_tick_time_slice_witness :
  exists ts3 ts4,
    thread_ticks_run 3 fresh_slice = Some ts3 /\ yield_on_return ts3 = false /\
    thread_ticks_run 4 fresh_slice = Some ts4 /\ yield_on_return ts4 = true /\
    kernel_ticks ts4 = 24.
Proof.
  destruct (thread_tick_time_slice 3 fresh_slice
              (mkThread 4 THREAD_RUNNING "c" 40 0 40 (Some 1) [] [] None 2 1
                 None THREAD_MAGIC) eq_refl eq_refl eq_refl)
    as (ts3 & Hrun3 & _ & _ & _ & _ & _ & Hy3); [done|done|].
  destruct (thread_tick_time_slice 4 fresh_slice
              (mkThread 4 THREAD_RUNNING "c" 40 0 40 (Some 1) [] [] None 2 1
                 None THREAD_MAGIC) eq_refl eq_refl eq_refl)
    as (ts4 & Hrun4 & _ & _ & _ & _ & _ & Hy4); [done|done|].
  exists ts3, ts4. repeat split; try done.
  vm_compute in Hrun4. by injection Hrun4 as <-.
Defined.

End TickSpec.

(** * [file.c]: the file interface, the range and the loaded page *)

Module MmapSpec.
Import VmFile VmFileSpec Mmap.

Lemma pages_from_done (length i : Z) :
  length <= i -> pages_from length i = 0.
Proof.
  intros H. unfold pages_from.
  assert (HP : 0 < PGSIZE) by done.
  assert ((length - i + PGSIZE - 1) / PGSIZE <= 0); [|lia].
  assert ((length - i + PGSIZE - 1) / PGSIZE < 1); [|lia].
  apply Z.div_lt_upper_bound; lia.
Qed.

Lemma pages_from_step (length i : Z) :
  i < length -> pages_from length i = 1 + pages_from length (i + PGSIZE).
Proof.
  intros H. unfold pages_from.
  assert (HP : 0 < PGSIZE) by done.
  replace (length - i + PGSIZE - 1)
    with (length - (i + PGSIZE) + PGSIZE - 1 + 1 * PGSIZE) by lia.
  rewrite Z.div_add by lia.
  assert (0 <= (length - (i + PGSIZE) + PGSIZE - 1) / PGSIZE)
    by (apply Z.div_pos; lia).
  lia.
Qed.

Lemma pages_from_nonneg (length i : Z) : 0 <= pages_from length i.
Proof. unfold pages_from. lia. Qed.

Lemma reopen_events_step (file h n : Z) :
  0 <= n ->
  reopen_events file h (1 + n)
  = EvReopen file h :: reopen_events file (h + 1) n.
Proof.
  intros Hn. unfold reopen_events.
  rewrite seqZ_cons by lia. cbn [fmap list_fmap]. rewrite Z.add_0_r.
  f_equal. replace (Z.pred (1 + n)) with n by lia.
  change (Z.succ 0) with (1 + 0). rewrite <- fmap_add_seqZ.
  rewrite <- list_fmap_compose. apply list_fmap_ext.
  intros _ j _. cbn. f_equal. lia.
Qed.

(** One round of the loop reopens the file once and touches neither
    memory, the dirty bits nor the frames. *)
Lemma mmap_round_frame (addr length : Z) (w : bool) (file offset i : Z)
    (s : vm_state) :
  file_log (mmap_round addr length w file offset i s)
  = file_log s ++ [EvReopen file (next_handle s)] /\
  next_handle (mmap_round addr length w file offset i s) = next_handle s + 1 /\
  memory (mmap_round addr length w file offset i s) = memory s /\
  dirty (mmap_round addr length w file offset i s) = dirty s /\
  frame_table (mmap_round addr length w file offset i s) = frame_table s.
Proof.
  unfold mmap_round, vm_alloc_page_with_initializer.
  case_bool_decide; [|done].
  by destruct (spt (file_reopen file s).2 !! wrap64 (addr + i)).
Qed.

Lemma mmap_loop_file_log (fuel : nat) (addr length : Z) (w : bool)
    (file offset : Z) :
  length + PGSIZE <= 2 ^ 64 ->
  forall (i : Z) (s s' : vm_state),
    mmap_loop fuel addr length w file offset i s = Some s' ->
    0 <= i ->
    file_log s'
    = file_log s ++ reopen_events file (next_handle s) (pages_from length i) /\
    next_handle s' = next_handle s + pages_from length i /\
    memory s' = memory s /\ dirty s' = dirty s /\
    frame_table s' = frame_table s.
Proof.
  intros Hlen.
  assert (HP : 0 < PGSIZE) by done.
  induction fuel as [|fuel IH]; intros i s s' Hrun Hi; [done|].
  rewrite mmap_loop_unfold in Hrun. case_bool_decide as Hlt.
  - rewrite wrap64_small in Hrun by lia.
    destruct (IH _ _ _ Hrun ltac:(lia)) as (Hlog & Hnext & Hm & Hd & Hf).
    destruct (mmap_round_frame addr length w file offset i s)
      as (Hlog1 & Hnext1 & Hm1 & Hd1 & Hf1).
    rewrite (pages_from_step length i) by done.
    rewrite reopen_events_step by apply pages_from_nonneg.
    rewrite Hlog, Hnext, Hm, Hd, Hf, Hlog1, Hnext1, Hm1, Hd1, Hf1.
    rewrite <- app_assoc. repeat split; (done || lia).
  - injection Hrun as <-. rewrite pages_from_done by lia.
    unfold reopen_events. rewrite seqZ_nil by lia. cbn.
    rewrite app_nil_r. repeat split; (done || lia).
Qed.

(** X16.  At mapping time [do_mmap] reads nothing.  Given fuel for its
    rounds, by the time the call ends all it has asked of the file
    interface is one [file_reopen] of [file] for each page of the
    range, whether or not the page could be inserted; no handle has been
    closed; and memory, the dirty bits and the frames are as they
    were. *)
Theorem do_mmap_reopens_once_per_page (fuel : nat)
    (addr length writable file offset : Z) (s : vm_state) :
  0 <= length -> length + PGSIZE <= 2 ^ 64 ->
  (Z.to_nat ((length + PGSIZE - 1) / PGSIZE) < fuel)%nat ->
  exists o evs,
    do_mmap fuel addr length writable file offset s = Some o /\
    file_log (outcome_state o) = file_log s ++ evs /\
    Z.of_nat (List.length evs) = (length + PGSIZE - 1) / PGSIZE /\
    Forall (fun e => exists h, e = EvReopen file h) evs /\
    memory (outcome_state o) = memory s /\
    dirty (outcome_state o) = dirty s /\
    frame_table (outcome_state o) = frame_table s.
Proof.
  intros Hlen Hend Hfuel. unfold do_mmap.
  assert (HP : 0 < PGSIZE) by done.
  destruct (mmap_loop_terminates fuel addr length (bool_decide (writable <> 0))
              file offset Hend 0 s ltac:(lia) ltac:(by rewrite Z.sub_0_r))
    as [s1 Hrun].
  rewrite Hrun.
  destruct (mmap_loop_file_log _ _ _ _ _ _ Hend _ _ _ Hrun (Z.le_refl 0))
    as (Hlog & _ & Hm & Hd & Hf).
  assert (Hp : pages_from length 0 = (length + PGSIZE - 1) / PGSIZE).
  { unfold pages_from. rewrite Z.sub_0_r.
    assert (0 <= (length + PGSIZE - 1) / PGSIZE) by (apply Z.div_pos; lia).
    lia. }
  rewrite Hp in Hlog.
  assert (Hgoal : forall o,
    file_log (outcome_state o) = file_log s1 ->
    memory (outcome_state o) = memory s1 ->
    dirty (outcome_state o) = dirty s1 ->
    frame_table (outcome_state o) = frame_table s1 ->
    file_log (outcome_state o)
    = file_log s
      ++ reopen_events file (next_handle s) ((length + PGSIZE - 1) / PGSIZE) /\
    Z.of_nat
      (List.length
         (reopen_events file (next_handle s) ((length + PGSIZE - 1) / PGSIZE)))
    = (length + PGSIZE - 1) / PGSIZE /\
    Forall (fun e => exists h, e = EvReopen file h)
      (reopen_events file (next_handle s) ((length + PGSIZE - 1) / PGSIZE)) /\
    memory (outcome_state o) = memory s /\
    dirty (outcome_state o) = dirty s /\
    frame_table (outcome_state o) = frame_table s).
  { intros o -> -> -> ->. split; [done|]. split.
    - unfold reopen_events. rewrite length_fmap, length_seqZ.
      assert (0 <= (length + PGSIZE - 1) / PGSIZE) by (apply Z.div_pos; lia).
      lia.
    - split; [|done]. unfold reopen_events. apply Forall_fmap, Forall_forall.
      intros j _. cbn. by eexists. }
  destruct (mmap_file_list s1) as [l|]; cbn [list_push_back];
    eexists _, _; (split; [done|]); by apply Hgoal.
Qed.

Lemma do_mmap_reopens_once_per_page_witness :
  exists o evs,
    do_mmap 3 4096 8192 1 7 0 vm_one_page = Some o /\
    file_log (outcome_state o) = evs /\
    List.length evs = 2%nat.
Proof.
  destruct (do_mmap_reopens_once_per_page 3 4096 8192 1 7 0 vm_one_page)
    as (o & evs & Hrun & Hlog & Hcount & _); [lia|done|vm_compute; lia|].
  exists o, evs. split; [exact Hrun|]. split; [exact Hlog|].
  change ((8192 + PGSIZE - 1) / PGSIZE) with 2 in Hcount. lia.
Defined.


(** The loop changes no entry but those of the pages it visits. *)
Lemma mmap_loop_outside (fuel : nat) (addr length : Z) (w : bool)
    (file offset : Z) (a : Z) :
  0 <= addr -> addr + length + PGSIZE <= 2 ^ 64 ->
  forall (i : Z) (s s' : vm_state),
    mmap_loop fuel addr length w file offset i s = Some s' ->
    0 <= i ->
    (forall m : nat,
       i + Z.of_nat m * PGSIZE < length ->
       a <> addr + (i + Z.of_nat m * PGSIZE)) ->
    spt s' !! a = spt s !! a.
Proof.
  intros Haddr Hend.
  assert (HP : 0 < PGSIZE) by done.
  induction fuel as [|fuel IH]; intros i s s' Hrun Hi Hout; [done|].
  rewrite mmap_loop_unfold in Hrun. case_bool_decide as Hlt.
  - rewrite wrap64_small in Hrun by lia.
    rewrite (IH _ _ _ Hrun); [|lia|].
    + unfold mmap_round. rewrite vm_alloc_others; [done|].
      rewrite wrap64_small by lia.
      specialize (Hout 0%nat). lia.
    + intros m Hm. specialize (Hout (S m)). lia.
  - by injection Hrun as <-.
Qed.



(** X18.  [do_mmap] changes the page table inside its range only: an
    address that is not the start of one of the pages of
    [addr, addr + length) has, when the call ends, the entry it had, or
    none as before. *)
Theorem do_mmap_outside_range (fuel : nat)
    (addr length writable file offset : Z) (s : vm_state) (a : Z) :
  0 <= addr -> 0 <= length -> addr + length + PGSIZE <= 2 ^ 64 ->
  (Z.to_nat ((length + PGSIZE - 1) / PGSIZE) < fuel)%nat ->
  (forall k : Z, 0 <= k -> k * PGSIZE < length -> a <> addr + k * PGSIZE) ->
  exists o,
    do_mmap fuel addr length writable file offset s = Some o /\
    spt (outcome_state o) !! a = spt s !! a.
Proof.
  intros Haddr Hlen Hend Hfuel Hout. unfold do_mmap.
  destruct (mmap_loop_terminates fuel addr length (bool_decide (writable <> 0))
              file offset ltac:(lia) 0 s ltac:(lia) ltac:(by rewrite Z.sub_0_r))
    as [s1 Hrun].
  rewrite Hrun.
  assert (Hsame : spt s1 !! a = spt s !! a).
  { apply (mmap_loop_outside _ _ _ _ _ _ a Haddr Hend _ _ _ Hrun); [lia|].
    intros m Hm. rewrite Z.add_0_l in *. apply Hout; lia. }
  destruct (mmap_file_list s1) as [l|]; cbn [list_push_back];
    eexists; (split; [done|]); done.
Qed.

Lemma do_mmap_outside_range_witness :
  exists o,
    do_mmap 3 4096 4500 1 7 0 vm_one_page = Some o /\
    spt (outcome_state o) !! 12288 = None.
Proof.
  destruct (do_mmap_outside_range 3 4096 4500 1 7 0 vm_one_page 12288)
    as (o & Hrun & Hsame); [lia|lia|done|vm_compute; lia| |].
  - intros k Hk0 Hk.
    assert (HP : PGSIZE = 4096) by done. rewrite HP in *. lia.
  - exists o. split; [exact Hrun|]. rewrite Hsame. reflexivity.
Defined.



(** X20.  A mapping of length zero is not refused.  [do_mmap] skips its
    loop, installing no page and opening no handle, and goes on to
    [list_push_back]: with the list not initialised, as [file.c] has
    it, the call panics with the state untouched; on an initialised
    list it would append, for a page-aligned [addr] that is not the
    first page, a record whose [end] is the page before [addr]. *)
Theorem do_mmap_length_zero (fuel : nat) (addr writable file offset : Z)
    (s : vm_state) :
  (0 < fuel)%nat ->
  PGSIZE <= addr < 2 ^ 64 -> addr mod PGSIZE = 0 ->
  do_mmap fuel addr 0 writable file offset s
  = Some (match mmap_file_list s with
          | None => Panicked s
          | Some l =>
              Mapped addr
                (with_mmap_file_list
                   (Some (l ++ [mkRecord addr (addr - PGSIZE)])) s)
          end).
Proof.
  intros Hfuel Haddr Hal. unfold do_mmap.
  assert (HP : 0 < PGSIZE) by done.
  destruct fuel as [|fuel]; [lia|]. rewrite mmap_loop_unfold.
  rewrite bool_decide_eq_false_2 by lia.
  destruct (mmap_file_list s) as [l|]; cbn [list_push_back]; [|done].
  do 6 f_equal. rewrite Z.add_0_r. rewrite wrap64_small by lia.
  unfold pg_round_down.
  replace (addr - 1) with (PGSIZE - 1 + (addr / PGSIZE - 1) * PGSIZE).
  - rewrite Z.mod_add by lia. rewrite Z.mod_small by lia. f_equal.
    pose proof (Z.div_mod addr PGSIZE ltac:(lia)). lia.
  - pose proof (Z.div_mod addr PGSIZE ltac:(lia)). lia.
Qed.

Lemma do_mmap_length_zero_witness :
  do_mmap 1 8192 0 1 7 0 vm_one_page = Some (Panicked vm_one_page).
Proof.
  apply (do_mmap_length_zero 1 8192 1 7 0 vm_one_page); [lia|done|done].
Defined.

(** ** Loading a page and writing it back *)

Lemma write_memory_outside (bs : list Byte.byte) :
  forall (addr : Z) (m : gmap Z Byte.byte) (a : Z),
    a < addr \/ addr + Z.of_nat (length bs) <= a ->
    write_memory addr bs m !! a = m !! a.
Proof.
  induction bs as [|b bs IH]; intros addr m a Ha; [done|].
  cbn [write_memory]. cbn [length] in Ha.
  rewrite IH by lia. apply lookup_insert_ne. lia.
Qed.

Lemma write_memory_read (bs : list Byte.byte) :
  forall (addr : Z) (m : gmap Z Byte.byte),
    (fun a => default Byte.x00 (write_memory addr bs m !! a))
      <$> seqZ addr (Z.of_nat (length bs))
    = bs.
Proof.
  induction bs as [|b bs IH]; intros addr m; [done|].
  cbn [length write_memory]. rewrite seqZ_cons by lia.
  cbn [fmap list_fmap]. f_equal.
  - rewrite write_memory_outside by lia. by rewrite lookup_insert_eq.
  - replace (Z.pred (Z.of_nat (S (length bs)))) with (Z.of_nat (length bs))
      by lia.
    apply IH.
Qed.

Lemma read_memory_ext (s1 s2 : vm_state) (addr n : Z) :
  (forall a, addr <= a < addr + n -> memory s1 !! a = memory s2 !! a) ->
  read_memory s1 addr n = read_memory s2 addr n.
Proof.
  intros H. unfold read_memory. apply list_fmap_ext.
  intros i a Ha. apply lookup_seqZ in Ha as [-> Hi]. rewrite H; [done|lia].
Qed.

Lemma read_memory_app (s : vm_state) (addr n1 n2 : Z) :
  0 <= n1 -> 0 <= n2 ->
  read_memory s addr (n1 + n2)
  = read_memory s addr n1 ++ read_memory s (addr + n1) n2.
Proof.
  intros H1 H2. unfold read_memory. by rewrite seqZ_app, fmap_app.
Qed.

(** The memory [lazy_load_file] leaves: the bytes read, then zeros up to
    the end of the page. *)
Lemma lazy_load_file_memory (got : list Byte.byte) (pg : page)
    (fp : file_page) (mi : mmap_info) (s : vm_state) :
  data pg = File fp ->
  memory (lazy_load_file got pg mi s).2
  = write_memory
      (va pg + Z.of_nat (length (take (Z.to_nat (mi_read_bytes mi)) got)))
      (replicate
         (Z.to_nat
            (PGSIZE
             - Z.of_nat (length (take (Z.to_nat (mi_read_bytes mi)) got))))
         Byte.x00)
      (write_memory (va pg) (take (Z.to_nat (mi_read_bytes mi)) got)
         (memory s)).
Proof.
  intros Hd. unfold lazy_load_file, file_read. rewrite Hd. cbn.
  case_bool_decide as Hn; [done|].
  rewrite Hn, Z.sub_diag. done.
Qed.

(** X21.  After [lazy_load_file] the page holds the bytes the file
    delivered, cut at [read_bytes], followed by zeros up to its end,
    whatever memory held before; and no byte outside the page has
    changed. *)
Theorem lazy_load_file_fills_page (got : list Byte.byte) (pg : page)
    (fp : file_page) (mi : mmap_info) (s : vm_state) :
  data pg = File fp ->
  0 <= mi_read_bytes mi <= PGSIZE ->
  read_memory (lazy_load_file got pg mi s).2 (va pg) PGSIZE
  = take (Z.to_nat (mi_read_bytes mi)) got
    ++ replicate
         (Z.to_nat
            (PGSIZE - Z.min (Z.of_nat (length got)) (mi_read_bytes mi)))
         Byte.x00 /\
  (forall a : Z,
     a < va pg \/ va pg + PGSIZE <= a ->
     memory (lazy_load_file got pg mi s).2 !! a = memory s !! a).
Proof.
  intros Hd Hrb.
  pose proof (lazy_load_file_memory got pg fp mi s Hd) as Hm.
  set (bytes := take (Z.to_nat (mi_read_bytes mi)) got) in *.
  assert (Hn : Z.of_nat (length bytes)
               = Z.min (Z.of_nat (length got)) (mi_read_bytes mi))
    by (unfold bytes; rewrite length_take; lia).
  rewrite Hn in Hm.
  set (n := Z.min (Z.of_nat (length got)) (mi_read_bytes mi)) in *.
  set (zeros := replicate (Z.to_nat (PGSIZE - n)) Byte.x00) in *.
  assert (Hz : Z.of_nat (length zeros) = PGSIZE - n)
    by (unfold zeros; rewrite length_replicate; lia).
  split.
  - replace PGSIZE with (n + (PGSIZE - n)) at 1 by lia.
    rewrite read_memory_app by lia. f_equal.
    + unfold read_memory. rewrite Hm, <- Hn.
      rewrite <- (write_memory_read bytes (va pg) (memory s)) at 2.
      apply list_fmap_ext. intros i a Ha.
      apply lookup_seqZ in Ha as [-> Hi]. cbn.
      rewrite write_memory_outside by lia. done.
    + unfold read_memory. rewrite Hm, <- Hz. apply write_memory_read.
  - intros a Ha. rewrite Hm.
    rewrite !write_memory_outside by lia. done.
Qed.

Lemma lazy_load_file_fills_page_witness :
  read_memory
    (lazy_load_file [Byte.x61; Byte.x62] fresh_file_page (mkInfo 51 4096 404)
       vm_stale_memory).2 8192 PGSIZE
  = [Byte.x61; Byte.x62] ++ replicate 4094 Byte.x00 /\
  memory
    (lazy_load_file [Byte.x61; Byte.x62] fresh_file_page (mkInfo 51 4096 404)
       vm_stale_memory).2 !! 12288
  = Some Byte.x2a.
Proof.
  destruct (lazy_load_file_fills_page [Byte.x61; Byte.x62] fresh_file_page
              (mkFilePage 51 0 0) (mkInfo 51 4096 404) vm_stale_memory
              eq_refl)
    as [Hread Hout]; [done|].
  split.
  - exact Hread.
  - rewrite Hout; [reflexivity|]. right. done.
Defined.

(** X22.  Load and write-back agree.  A page that is destroyed right
    after [lazy_load_file] is clean: its file is closed and nothing is
    written.  If the page has become dirty while its content stayed as
    loaded, [file_backed_destroy] writes back, at the offset the load
    read from, exactly the bytes the load had read: the zero fill of the
    tail never reaches the file. *)
Theorem lazy_load_file_write_back (got : list Byte.byte) (pg : page)
    (fp : file_page) (mi : mmap_info) (s : vm_state) :
  data pg = File fp ->
  0 <= mi_read_bytes mi <= PGSIZE ->
  file_log
    (file_backed_destroy (lazy_load_file got pg mi s).1
       (lazy_load_file got pg mi s).2)
  = file_log s
    ++ [EvSeek (mi_file mi) (mi_offset mi);
        EvRead (mi_file mi) (mi_read_bytes mi);
        EvClose (fp_file fp)] /\
  file_log
    (file_backed_destroy (lazy_load_file got pg mi s).1
       (pml4_set_dirty (va pg) true (lazy_load_file got pg mi s).2))
  = file_log s
    ++ [EvSeek (mi_file mi) (mi_offset mi);
        EvRead (mi_file mi) (mi_read_bytes mi);
        EvSeek (fp_file fp) (mi_offset mi);
        EvWrite (fp_file fp) (take (Z.to_nat (mi_read_bytes mi)) got);
        EvClose (fp_file fp)].
Proof.
  intros Hd Hrb.
  pose proof (lazy_load_file_memory got pg fp mi s Hd) as Hm.
  set (bytes := take (Z.to_nat (mi_read_bytes mi)) got) in *.
  assert (Hpg : (lazy_load_file got pg mi s).1
                = mkPage (va pg) (writable pg) (frame pg)
                    (File (mkFilePage (fp_file fp) (mi_offset mi)
                             (Z.of_nat (length bytes)))))
    by (unfold lazy_load_file, file_read; by rewrite Hd).
  assert (Hlog : file_log (lazy_load_file got pg mi s).2
                 = file_log s
                   ++ [EvSeek (mi_file mi) (mi_offset mi);
                       EvRead (mi_file mi) (mi_read_bytes mi)]).
  { unfold lazy_load_file, file_read. rewrite Hd. cbn.
    case_bool_decide; cbn; by rewrite <- app_assoc. }
  assert (Hclean : va pg ∉ dirty (lazy_load_file got pg mi s).2).
  { unfold lazy_load_file, file_read. rewrite Hd. cbn.
    case_bool_decide; cbn; rewrite elem_of_difference;
      intros [_ Hn]; apply Hn; by apply elem_of_singleton. }
  rewrite Hpg. set (s1 := (lazy_load_file got pg mi s).2) in *.
  unfold file_backed_destroy, pml4_is_dirty. cbn [data va frame]. split.
  - rewrite bool_decide_eq_false_2 by done.
    destruct (frame pg); cbn; rewrite Hlog; by rewrite <- app_assoc.
  - rewrite bool_decide_eq_true_2
      by (cbn; apply elem_of_union_l; by apply elem_of_singleton).
    assert (Hbytes : read_memory (pml4_set_dirty (va pg) true s1) (va pg)
                       (Z.of_nat (length bytes))
                     = bytes).
    { unfold read_memory. cbn [memory pml4_set_dirty with_dirty]. rewrite Hm.
      rewrite <- (write_memory_read bytes (va pg) (memory s)) at 2.
      apply list_fmap_ext. intros i a Ha.
      apply lookup_seqZ in Ha as [-> Hi]. cbn.
      rewrite write_memory_outside by lia. done. }
    destruct (frame pg); cbn [fp_file fp_ofs fp_size file_write file_seek
      file_close log_event file_log with_frame_table pml4_set_dirty with_dirty
      memory];
      cbn [fp_file fp_ofs fp_size file_write file_seek
      file_close log_event file_log with_frame_table pml4_set_dirty with_dirty
      memory] in Hbytes.
    all: rewrite Hlog, <- !app_assoc; cbn [app]; do 4 f_equal;
      apply (f_equal (fun b => [EvWrite (fp_file fp) b; EvClose (fp_file fp)]));
      exact Hbytes.
Qed.

Lemma lazy_load_file_write_back_witness :
  file_log
    (file_backed_destroy
       (lazy_load_file [Byte.x61; Byte.x62] fresh_file_page
          (mkInfo 51 4096 404) vm_stale_memory).1
       (pml4_set_dirty 8192 true
          (lazy_load_file [Byte.x61; Byte.x62] fresh_file_page
             (mkInfo 51 4096 404) vm_stale_memory).2))
  = [EvSeek 51 4096; EvRead 51 404; EvSeek 51 4096;
     EvWrite 51 [Byte.x61; Byte.x62]; EvClose 51].
Proof.
  destruct (lazy_load_file_write_back [Byte.x61; Byte.x62] fresh_file_page
              (mkFilePage 51 0 0) (mkInfo 51 4096 404) vm_stale_memory
              eq_refl)
    as [_ Hdirty]; [done|].
  exact Hdirty.
Defined.

End MmapSpec.
